(** * Classroom session controller of mira-openwebui

    A shallow embedding of the client-side classroom code:

    - the Svelte stores ([classroomRoom], [classroomSelf],
      [classroomMessages], ... and the derived [isSpeaker]/[isTeacher],
      with the order in which a write calls the subscribers);
    - the controller component ([handleWsMessage], [handleJoinRoom],
      [handleLeaveRoom], the listener audio queue, the poll timers);
    - the voice bridge's text interception ([handleJsonMsg] of
      [PipecatClient]) with the controller's subscriptions, the URLs that
      [connect] derives and the replacement of [window.WebSocket];
    - the typing indicator and the playback toggle of the room view;
    - the REST wrappers of [lib/apis/classroom] and its URL builder.

    The browser is single threaded: every handler runs to completion, so a
    handler is a function from client state to client state, and what is
    asynchronous in the source (timers, pending promises, socket frames)
    is an explicit action of the environment.

    Conventions.  A field the code guards with [|| ''] or [?? null] is an
    [option]; a field it reads unguarded has the type the protocol gives
    it.  One handler run reads the clock once ([now]).  Browser objects
    (sockets, timers, audio contexts, bridge clients) are handles into
    lists kept in [Browser].  Left out: the welcome toast, the room list
    and the teacher-access flags of the lobby, the request side of the
    REST wrappers, and the transport and SDK callbacks of the voice
    bridge other than its text interception. *)

From Stdlib Require Import ZArith QArith Lia Ascii.
From stdpp Require Import base option list strings gmap pretty.

Local Open Scope string_scope.
Local Open Scope list_scope.
Local Open Scope Z_scope.

(** ** JavaScript values the code relies on *)

Module Js.

(** Truthiness of a string field that may be missing: [undefined],
    [null] and the empty string are falsy. *)
Definition truthy (o : option string) : bool :=
  match o with
  | Some s => negb (String.eqb s "")
  | None => false
  end.

(** [o || d] where [d] is a string. *)
Definition or_str (o : option string) (d : string) : string :=
  if truthy o then default d o else d.

(** [o || p] where [p] may itself be missing. *)
Definition or_opt (o p : option string) : option string :=
  if truthy o then o else p.

(** Truthiness of an optional boolean flag such as [_streaming]. *)
Definition flag (o : option bool) : bool := default false o.

(** [a === b] on [string | null]. *)
Definition seq (a b : option string) : bool := bool_decide (a = b).

(** An optional field of a record that arrived as JSON: the key is
    absent, or it holds [null], or it holds a value. *)
Inductive Field (A : Type) := absent | null | present (a : A).
Arguments absent {A}.
Arguments null {A}.
Arguments present {A} a.

(** One field of [{ ...o, ...p }]: the one of [p] if [p] has the key. *)
Definition spread {A} (o p : Field A) : Field A :=
  match p with
  | absent => o
  | _ => p
  end.

(** A number held as a reaction count: an integer, or the [NaN] that
    arithmetic on something that is not a number leaves behind. *)
Inductive Num := num (n : Z) | NaN.

(** The methods every plain object inherits from [Object.prototype]. *)
Definition inherited_methods : list string :=
  ["constructor"; "hasOwnProperty"; "isPrototypeOf"; "propertyIsEnumerable";
   "toLocaleString"; "toString"; "valueOf"; "__defineGetter__";
   "__defineSetter__"; "__lookupGetter__"; "__lookupSetter__"].

(** What [o[k]] reads on a plain object [o] whose own properties are
    numbers: an own property; or, inherited from [Object.prototype], a
    method or the prototype itself (the accessor [__proto__]); or
    [undefined]. *)
Inductive Read := own (v : Num) | method | prototype | undefined.

Definition read (k : string) (o : gmap string Num) : Read :=
  match o !! k with
  | Some v => own v
  | None =>
      if bool_decide (k ∈ inherited_methods) then method
      else if bool_decide (k = "__proto__") then prototype
      else undefined
  end.

End Js.

(** ** Data model ([lib/apis/classroom] and [lib/stores/classroom]) *)

Inductive PlaybackMode := text_and_audio | text_only.
Inductive Role := user | assistant.
Inductive RaiseStatus := pending | acknowledged | dismissed.
Inductive RoomType := teacher_driven | discussion.
Inductive ClassroomState :=
  lobby | joining | active | history | dashboard | settings | error.
Inductive SpeakerMode := voice | text.

Global Instance PlaybackMode_eq_dec : EqDecision PlaybackMode.
Proof. solve_decision. Defined.
Global Instance Role_eq_dec : EqDecision Role.
Proof. solve_decision. Defined.
Global Instance RaiseStatus_eq_dec : EqDecision RaiseStatus.
Proof. solve_decision. Defined.
Global Instance ClassroomState_eq_dec : EqDecision ClassroomState.
Proof. solve_decision. Defined.
Global Instance SpeakerMode_eq_dec : EqDecision SpeakerMode.
Proof. solve_decision. Defined.

(** [ClassroomUser] *)
Record ClassroomUser := {
  u_user_id : string;
  u_name : string;
  u_language : string;
  u_mode : PlaybackMode;
  u_is_speaker : bool;
  u_is_teacher : option bool
}.

(** [HandRaise] *)
Record HandRaise := {
  hr_id : string;
  hr_user_id : string;
  hr_user_name : string;
  hr_question_preview : Js.Field string;
  hr_status : RaiseStatus;
  hr_raised_at : Z;
  hr_resolved_at : Js.Field Z
}.

(** [ClassroomRoom].  [hand_raises] is declared as an array, but the
    controller reads it as [r.hand_raises || []], so a snapshot without the
    field is representable. *)
Record ClassroomRoom := {
  room_id : string;
  room_name : string;
  created_at : Z;
  user_count : Z;
  users : list ClassroomUser;
  speaker_id : option string;
  speaker_name : option string;
  token_queue : list string;
  hand_raises : option (list HandRaise);
  active_session_id : option string;
  topic : option string;
  teacher_id : option string;
  current_lesson_topic : option string;
  room_type : RoomType;
  curriculum_chapter_id : option string;
  curriculum_section_id : option string
}.

(** The record held by the [classroomSelf] store. *)
Record Self := {
  self_user_id : string;
  self_name : string;
  self_language : string;
  self_mode : PlaybackMode;
  self_is_speaker : bool
}.

(** [ClassroomMessage].  [_streaming] and [_interrupted] are optional
    fields; a message built by [addClassroomMessage] has neither. *)
Record ClassroomMessage := {
  msg_id : string;
  msg_role : Role;
  msg_speaker_name : option string;
  msg_content : string;
  msg_translated : option bool;
  msg_timestamp : Z;
  msg_streaming : option bool;
  msg_reaction_counts : option (gmap string Js.Num);
  msg_db_message_id : option string;
  msg_interrupted : option bool
}.

(** *** Object spreads [{ ...x, field: v }] *)

Definition room_with_speaker (sid sname : option string) (r : ClassroomRoom)
  : ClassroomRoom :=
  {| room_id := room_id r; room_name := room_name r;
     created_at := created_at r; user_count := user_count r;
     users := users r; speaker_id := sid; speaker_name := sname;
     token_queue := token_queue r; hand_raises := hand_raises r;
     active_session_id := active_session_id r; topic := topic r;
     teacher_id := teacher_id r;
     current_lesson_topic := current_lesson_topic r;
     room_type := room_type r;
     curriculum_chapter_id := curriculum_chapter_id r;
     curriculum_section_id := curriculum_section_id r |}.

Definition room_with_users (us : list ClassroomUser) (n : Z)
  (r : ClassroomRoom) : ClassroomRoom :=
  {| room_id := room_id r; room_name := room_name r;
     created_at := created_at r; user_count := n;
     users := us; speaker_id := speaker_id r;
     speaker_name := speaker_name r;
     token_queue := token_queue r; hand_raises := hand_raises r;
     active_session_id := active_session_id r; topic := topic r;
     teacher_id := teacher_id r;
     current_lesson_topic := current_lesson_topic r;
     room_type := room_type r;
     curriculum_chapter_id := curriculum_chapter_id r;
     curriculum_section_id := curriculum_section_id r |}.

Definition room_with_hand_raises (hrs : list HandRaise) (r : ClassroomRoom)
  : ClassroomRoom :=
  {| room_id := room_id r; room_name := room_name r;
     created_at := created_at r; user_count := user_count r;
     users := users r; speaker_id := speaker_id r;
     speaker_name := speaker_name r;
     token_queue := token_queue r; hand_raises := Some hrs;
     active_session_id := active_session_id r; topic := topic r;
     teacher_id := teacher_id r;
     current_lesson_topic := current_lesson_topic r;
     room_type := room_type r;
     curriculum_chapter_id := curriculum_chapter_id r;
     curriculum_section_id := curriculum_section_id r |}.

Definition room_with_lesson_topic (t : option string) (r : ClassroomRoom)
  : ClassroomRoom :=
  {| room_id := room_id r; room_name := room_name r;
     created_at := created_at r; user_count := user_count r;
     users := users r; speaker_id := speaker_id r;
     speaker_name := speaker_name r;
     token_queue := token_queue r; hand_raises := hand_raises r;
     active_session_id := active_session_id r; topic := topic r;
     teacher_id := teacher_id r;
     current_lesson_topic := t;
     room_type := room_type r;
     curriculum_chapter_id := curriculum_chapter_id r;
     curriculum_section_id := curriculum_section_id r |}.

Definition room_with_teacher (t : option string) (r : ClassroomRoom)
  : ClassroomRoom :=
  {| room_id := room_id r; room_name := room_name r;
     created_at := created_at r; user_count := user_count r;
     users := users r; speaker_id := speaker_id r;
     speaker_name := speaker_name r;
     token_queue := token_queue r; hand_raises := hand_raises r;
     active_session_id := active_session_id r; topic := topic r;
     teacher_id := t;
     current_lesson_topic := current_lesson_topic r;
     room_type := room_type r;
     curriculum_chapter_id := curriculum_chapter_id r;
     curriculum_section_id := curriculum_section_id r |}.

Definition self_with_is_speaker (b : bool) (s : Self) : Self :=
  {| self_user_id := self_user_id s; self_name := self_name s;
     self_language := self_language s; self_mode := self_mode s;
     self_is_speaker := b |}.

Definition self_with_mode (m : PlaybackMode) (s : Self) : Self :=
  {| self_user_id := self_user_id s; self_name := self_name s;
     self_language := self_language s; self_mode := m;
     self_is_speaker := self_is_speaker s |}.

(** [{ ...last, content: c }] *)
Definition msg_with_content (c : string) (m : ClassroomMessage)
  : ClassroomMessage :=
  {| msg_id := msg_id m; msg_role := msg_role m;
     msg_speaker_name := msg_speaker_name m; msg_content := c;
     msg_translated := msg_translated m; msg_timestamp := msg_timestamp m;
     msg_streaming := msg_streaming m;
     msg_reaction_counts := msg_reaction_counts m;
     msg_db_message_id := msg_db_message_id m;
     msg_interrupted := msg_interrupted m |}.

(** [{ ...last, content: c, _streaming: false, translated: t }] *)
Definition msg_finalized_response (c : string) (t : bool)
  (m : ClassroomMessage) : ClassroomMessage :=
  {| msg_id := msg_id m; msg_role := msg_role m;
     msg_speaker_name := msg_speaker_name m; msg_content := c;
     msg_translated := Some t; msg_timestamp := msg_timestamp m;
     msg_streaming := Some false;
     msg_reaction_counts := msg_reaction_counts m;
     msg_db_message_id := msg_db_message_id m;
     msg_interrupted := msg_interrupted m |}.

(** [{ ...last, content: c, _streaming: false, _interrupted: i }] *)
Definition msg_finalized_complete (c : string) (i : bool)
  (m : ClassroomMessage) : ClassroomMessage :=
  {| msg_id := msg_id m; msg_role := msg_role m;
     msg_speaker_name := msg_speaker_name m; msg_content := c;
     msg_translated := msg_translated m; msg_timestamp := msg_timestamp m;
     msg_streaming := Some false;
     msg_reaction_counts := msg_reaction_counts m;
     msg_db_message_id := msg_db_message_id m;
     msg_interrupted := Some i |}.

(** [{ ...m, reaction_counts: counts }] *)
Definition msg_with_reactions (counts : gmap string Js.Num)
  (m : ClassroomMessage)
  : ClassroomMessage :=
  {| msg_id := msg_id m; msg_role := msg_role m;
     msg_speaker_name := msg_speaker_name m; msg_content := msg_content m;
     msg_translated := msg_translated m; msg_timestamp := msg_timestamp m;
     msg_streaming := msg_streaming m;
     msg_reaction_counts := Some counts;
     msg_db_message_id := msg_db_message_id m;
     msg_interrupted := msg_interrupted m |}.

(** ** The browser environment

    What the controller reaches through browser APIs: sockets, interval
    timers, pending HTTP requests and promises, audio contexts and the
    voice-bridge clients.  Objects are referred to by handle (their index
    in the list that allocates them). *)

(** Outbound frames of the room socket ([ws.send(JSON.stringify(...))]). *)
Inductive OutMsg :=
| out_join (uid name language : string) (mode : PlaybackMode)
    (token : option string)
| out_set_mode (mode : PlaybackMode)
| out_text_message (txt : string)
| out_request_token
| out_release_token
| out_pass_token (to : option string)
| out_hand_raise (question_preview : string)
| out_hand_lower
| out_hand_acknowledge (raise_id : string)
| out_hand_dismiss (raise_id : string)
| out_reaction (message_id emoji : string)
| out_speaker_transcript (txt : string)
| out_teacher_action (action payload : string)
| out_request_topics.

(** [WebSocket.readyState] *)
Definition CONNECTING : nat := 0%nat.
Definition OPEN : nat := 1%nat.
Definition CLOSING : nat := 2%nat.
Definition CLOSED : nat := 3%nat.

Record WebSocket := {
  ws_url : string;
  readyState : nat;
  ws_sent : list OutMsg
}.

Definition ws_send (o : OutMsg) (w : WebSocket) : WebSocket :=
  {| ws_url := ws_url w; readyState := readyState w;
     ws_sent := ws_sent w ++ [o] |}.

Definition ws_with_readyState (n : nat) (w : WebSocket) : WebSocket :=
  {| ws_url := ws_url w; readyState := n; ws_sent := ws_sent w |}.

(** Callbacks registered with [setInterval]. *)
Inductive TimerKind := room_poll | lobby_poll.

(** HTTP work in flight.  [req_getRoom] is the [getRoom] call of the room
    poll; [req_refreshRooms] a stand-alone [refreshRooms()];
    [req_lobby_refresh] the [Promise.all] of the lobby poll. *)
Inductive Request :=
| req_getRoom (rid : string)
| req_refreshRooms
| req_lobby_refresh.

Inductive CtxState := suspended | running | closed.

Global Instance CtxState_eq_dec : EqDecision CtxState.
Proof. solve_decision. Defined.

(** A decoded chunk ([Float32Array]); every sample is a dyadic rational
    that a 32-bit float holds exactly. *)
Abbreviation Float32Array := (list Q).

(** The state of one [PipecatClient] that the text interception touches. *)
Record PipecatClient := {
  classroomConfig : option (string * string);
  currentBotText : string;
  botTranscript : string;
  botResponseComplete : Z;
  botResponseInterrupted : Z;
  pc_sessionId : option string;
  pc_live : bool;        (* [connect] called, [disconnect] not yet *)
  pc_subscribed : bool   (* the controller's subscriptions are attached *)
}.

Definition pc_with_text (cur tr : string) (p : PipecatClient)
  : PipecatClient :=
  {| classroomConfig := classroomConfig p; currentBotText := cur;
     botTranscript := tr;
     botResponseComplete := botResponseComplete p;
     botResponseInterrupted := botResponseInterrupted p;
     pc_sessionId := pc_sessionId p;
     pc_live := pc_live p; pc_subscribed := pc_subscribed p |}.

Definition pc_with_currentBotText (cur : string) (p : PipecatClient)
  : PipecatClient := pc_with_text cur (botTranscript p) p.

Definition pc_with_complete (ts : Z) (p : PipecatClient) : PipecatClient :=
  {| classroomConfig := classroomConfig p;
     currentBotText := currentBotText p; botTranscript := botTranscript p;
     botResponseComplete := ts;
     botResponseInterrupted := botResponseInterrupted p;
     pc_sessionId := pc_sessionId p;
     pc_live := pc_live p; pc_subscribed := pc_subscribed p |}.

Definition pc_with_interrupted (ts : Z) (p : PipecatClient) : PipecatClient :=
  {| classroomConfig := classroomConfig p;
     currentBotText := currentBotText p; botTranscript := botTranscript p;
     botResponseComplete := botResponseComplete p;
     botResponseInterrupted := ts;
     pc_sessionId := pc_sessionId p;
     pc_live := pc_live p; pc_subscribed := pc_subscribed p |}.

Definition pc_with_sessionId (sid : option string) (p : PipecatClient)
  : PipecatClient :=
  {| classroomConfig := classroomConfig p;
     currentBotText := currentBotText p; botTranscript := botTranscript p;
     botResponseComplete := botResponseComplete p;
     botResponseInterrupted := botResponseInterrupted p;
     pc_sessionId := sid;
     pc_live := pc_live p; pc_subscribed := pc_subscribed p |}.

Definition pc_with_links (live sub : bool) (p : PipecatClient)
  : PipecatClient :=
  {| classroomConfig := classroomConfig p;
     currentBotText := currentBotText p; botTranscript := botTranscript p;
     botResponseComplete := botResponseComplete p;
     botResponseInterrupted := botResponseInterrupted p;
     pc_sessionId := pc_sessionId p;
     pc_live := live; pc_subscribed := sub |}.

Record Browser := {
  sockets : list WebSocket;
  intervals : list (nat * TimerKind);   (* live [setInterval] timers *)
  next_timer : nat;
  requests : list Request;              (* HTTP requests in flight *)
  stored_mode : option PlaybackMode;    (* localStorage classroom_user_mode *)
  stored_token : option string;         (* localStorage token *)
  contexts : list CtxState;             (* every AudioContext created *)
  fresh_ctx_state : CtxState;           (* autoplay policy for a new one *)
  resumes : list (nat * bool);          (* pending [resume()] promises:
                                           context, retries playNextChunk *)
  blobs : list (list Byte.byte);        (* pending [Blob.arrayBuffer()] *)
  started : list Float32Array;          (* every [source.start()] so far *)
  bridges : list PipecatClient;
  activeClient : option nat             (* window.__pipecatActiveClient *)
}.

(** ** The client state *)

(** The writable stores of [lib/stores/classroom] and its [msgCounter]. *)
Record Stores := {
  classroomState : ClassroomState;
  classroomRoom : option ClassroomRoom;
  classroomSelf : option Self;
  classroomMessages : list ClassroomMessage;
  classroomWs : option nat;
  classroomError : string;
  classroomTopics : list string;
  isHandRaised : bool;
  currentLessonTopic : string;
  msgCounter : nat
}.

(** Listener audio playback. *)
Record Audio := {
  audioContext : option nat;
  audioQueue : list Float32Array;
  isPlayingAudio : bool
}.

(** Speaker voice pipeline. *)
Record Speaker := {
  speakerPipecat : option nat;
  speakerBotText : string;
  speakerUserText : string;
  speakerMode : SpeakerMode
}.

(** Poll timers and their in-flight flags. *)
Record Polling := {
  pollInterval : option nat;
  lobbyPollInterval : option nat;
  roomListPollInFlight : bool;
  teacherStatusPollInFlight : bool
}.

(** Join preferences. *)
Record Prefs := {
  userName : string;
  userLanguage : string;
  userMode : PlaybackMode;
  classroomUserId : string
}.

Record Client := {
  stores : Stores;
  audio : Audio;
  speaker : Speaker;
  polling : Polling;
  prefs : Prefs;
  browser : Browser
}.

Definition upd_stores (f : Stores → Stores) (c : Client) : Client :=
  {| stores := f (stores c); audio := audio c; speaker := speaker c;
     polling := polling c; prefs := prefs c; browser := browser c |}.
Definition upd_audio (f : Audio → Audio) (c : Client) : Client :=
  {| stores := stores c; audio := f (audio c); speaker := speaker c;
     polling := polling c; prefs := prefs c; browser := browser c |}.
Definition upd_speaker (f : Speaker → Speaker) (c : Client) : Client :=
  {| stores := stores c; audio := audio c; speaker := f (speaker c);
     polling := polling c; prefs := prefs c; browser := browser c |}.
Definition upd_polling (f : Polling → Polling) (c : Client) : Client :=
  {| stores := stores c; audio := audio c; speaker := speaker c;
     polling := f (polling c); prefs := prefs c; browser := browser c |}.
Definition upd_prefs (f : Prefs → Prefs) (c : Client) : Client :=
  {| stores := stores c; audio := audio c; speaker := speaker c;
     polling := polling c; prefs := f (prefs c); browser := browser c |}.
Definition upd_browser (f : Browser → Browser) (c : Client) : Client :=
  {| stores := stores c; audio := audio c; speaker := speaker c;
     polling := polling c; prefs := prefs c; browser := f (browser c) |}.

(** *** Store writes ([store.set(v)]) and variable assignments *)

Definition classroomState_set (v : ClassroomState) : Client → Client :=
  upd_stores (λ s,
    {| classroomState := v; classroomRoom := classroomRoom s;
       classroomSelf := classroomSelf s;
       classroomMessages := classroomMessages s;
       classroomWs := classroomWs s; classroomError := classroomError s;
       classroomTopics := classroomTopics s;
       isHandRaised := isHandRaised s;
       currentLessonTopic := currentLessonTopic s;
       msgCounter := msgCounter s |}).

Definition classroomRoom_set (v : option ClassroomRoom) : Client → Client :=
  upd_stores (λ s,
    {| classroomState := classroomState s; classroomRoom := v;
       classroomSelf := classroomSelf s;
       classroomMessages := classroomMessages s;
       classroomWs := classroomWs s; classroomError := classroomError s;
       classroomTopics := classroomTopics s;
       isHandRaised := isHandRaised s;
       currentLessonTopic := currentLessonTopic s;
       msgCounter := msgCounter s |}).

Definition classroomSelf_set (v : option Self) : Client → Client :=
  upd_stores (λ s,
    {| classroomState := classroomState s;
       classroomRoom := classroomRoom s; classroomSelf := v;
       classroomMessages := classroomMessages s;
       classroomWs := classroomWs s; classroomError := classroomError s;
       classroomTopics := classroomTopics s;
       isHandRaised := isHandRaised s;
       currentLessonTopic := currentLessonTopic s;
       msgCounter := msgCounter s |}).

Definition classroomMessages_set (v : list ClassroomMessage)
  : Client → Client :=
  upd_stores (λ s,
    {| classroomState := classroomState s;
       classroomRoom := classroomRoom s;
       classroomSelf := classroomSelf s; classroomMessages := v;
       classroomWs := classroomWs s; classroomError := classroomError s;
       classroomTopics := classroomTopics s;
       isHandRaised := isHandRaised s;
       currentLessonTopic := currentLessonTopic s;
       msgCounter := msgCounter s |}).

Definition classroomWs_set (v : option nat) : Client → Client :=
  upd_stores (λ s,
    {| classroomState := classroomState s;
       classroomRoom := classroomRoom s;
       classroomSelf := classroomSelf s;
       classroomMessages := classroomMessages s;
       classroomWs := v; classroomError := classroomError s;
       classroomTopics := classroomTopics s;
       isHandRaised := isHandRaised s;
       currentLessonTopic := currentLessonTopic s;
       msgCounter := msgCounter s |}).

Definition classroomError_set (v : string) : Client → Client :=
  upd_stores (λ s,
    {| classroomState := classroomState s;
       classroomRoom := classroomRoom s;
       classroomSelf := classroomSelf s;
       classroomMessages := classroomMessages s;
       classroomWs := classroomWs s; classroomError := v;
       classroomTopics := classroomTopics s;
       isHandRaised := isHandRaised s;
       currentLessonTopic := currentLessonTopic s;
       msgCounter := msgCounter s |}).

Definition classroomTopics_set (v : list string) : Client → Client :=
  upd_stores (λ s,
    {| classroomState := classroomState s;
       classroomRoom := classroomRoom s;
       classroomSelf := classroomSelf s;
       classroomMessages := classroomMessages s;
       classroomWs := classroomWs s; classroomError := classroomError s;
       classroomTopics := v;
       isHandRaised := isHandRaised s;
       currentLessonTopic := currentLessonTopic s;
       msgCounter := msgCounter s |}).

Definition isHandRaised_set (v : bool) : Client → Client :=
  upd_stores (λ s,
    {| classroomState := classroomState s;
       classroomRoom := classroomRoom s;
       classroomSelf := classroomSelf s;
       classroomMessages := classroomMessages s;
       classroomWs := classroomWs s; classroomError := classroomError s;
       classroomTopics := classroomTopics s;
       isHandRaised := v;
       currentLessonTopic := currentLessonTopic s;
       msgCounter := msgCounter s |}).

Definition currentLessonTopic_set (v : string) : Client → Client :=
  upd_stores (λ s,
    {| classroomState := classroomState s;
       classroomRoom := classroomRoom s;
       classroomSelf := classroomSelf s;
       classroomMessages := classroomMessages s;
       classroomWs := classroomWs s; classroomError := classroomError s;
       classroomTopics := classroomTopics s;
       isHandRaised := isHandRaised s;
       currentLessonTopic := v;
       msgCounter := msgCounter s |}).

Definition msgCounter_set (v : nat) : Client → Client :=
  upd_stores (λ s,
    {| classroomState := classroomState s;
       classroomRoom := classroomRoom s;
       classroomSelf := classroomSelf s;
       classroomMessages := classroomMessages s;
       classroomWs := classroomWs s; classroomError := classroomError s;
       classroomTopics := classroomTopics s;
       isHandRaised := isHandRaised s;
       currentLessonTopic := currentLessonTopic s;
       msgCounter := v |}).

(** [store.update(f)] *)
Definition classroomRoom_update
  (f : option ClassroomRoom → option ClassroomRoom) (c : Client) : Client :=
  classroomRoom_set (f (classroomRoom (stores c))) c.
Definition classroomSelf_update (f : option Self → option Self)
  (c : Client) : Client :=
  classroomSelf_set (f (classroomSelf (stores c))) c.
Definition classroomMessages_update
  (f : list ClassroomMessage → list ClassroomMessage) (c : Client) : Client :=
  classroomMessages_set (f (classroomMessages (stores c))) c.

Definition audioContext_set (v : option nat) : Client → Client :=
  upd_audio (λ a, {| audioContext := v; audioQueue := audioQueue a;
                     isPlayingAudio := isPlayingAudio a |}).
Definition audioQueue_set (v : list Float32Array) : Client → Client :=
  upd_audio (λ a, {| audioContext := audioContext a; audioQueue := v;
                     isPlayingAudio := isPlayingAudio a |}).
Definition isPlayingAudio_set (v : bool) : Client → Client :=
  upd_audio (λ a, {| audioContext := audioContext a;
                     audioQueue := audioQueue a; isPlayingAudio := v |}).

Definition speakerPipecat_set (v : option nat) : Client → Client :=
  upd_speaker (λ s, {| speakerPipecat := v;
                       speakerBotText := speakerBotText s;
                       speakerUserText := speakerUserText s;
                       speakerMode := speakerMode s |}).
Definition speakerBotText_set (v : string) : Client → Client :=
  upd_speaker (λ s, {| speakerPipecat := speakerPipecat s;
                       speakerBotText := v;
                       speakerUserText := speakerUserText s;
                       speakerMode := speakerMode s |}).
Definition speakerUserText_set (v : string) : Client → Client :=
  upd_speaker (λ s, {| speakerPipecat := speakerPipecat s;
                       speakerBotText := speakerBotText s;
                       speakerUserText := v;
                       speakerMode := speakerMode s |}).
Definition speakerMode_set (v : SpeakerMode) : Client → Client :=
  upd_speaker (λ s, {| speakerPipecat := speakerPipecat s;
                       speakerBotText := speakerBotText s;
                       speakerUserText := speakerUserText s;
                       speakerMode := v |}).

Definition pollInterval_set (v : option nat) : Client → Client :=
  upd_polling (λ p,
    {| pollInterval := v; lobbyPollInterval := lobbyPollInterval p;
       roomListPollInFlight := roomListPollInFlight p;
       teacherStatusPollInFlight := teacherStatusPollInFlight p |}).
Definition lobbyPollInterval_set (v : option nat) : Client → Client :=
  upd_polling (λ p,
    {| pollInterval := pollInterval p; lobbyPollInterval := v;
       roomListPollInFlight := roomListPollInFlight p;
       teacherStatusPollInFlight := teacherStatusPollInFlight p |}).
Definition pollInFlight_set (rooms_flag teacher_flag : bool)
  : Client → Client :=
  upd_polling (λ p,
    {| pollInterval := pollInterval p;
       lobbyPollInterval := lobbyPollInterval p;
       roomListPollInFlight := rooms_flag;
       teacherStatusPollInFlight := teacher_flag |}).

Definition userName_set (v : string) : Client → Client :=
  upd_prefs (λ p, {| userName := v; userLanguage := userLanguage p;
                     userMode := userMode p;
                     classroomUserId := classroomUserId p |}).
Definition userLanguage_set (v : string) : Client → Client :=
  upd_prefs (λ p, {| userName := userName p; userLanguage := v;
                     userMode := userMode p;
                     classroomUserId := classroomUserId p |}).
Definition userMode_set (v : PlaybackMode) : Client → Client :=
  upd_prefs (λ p, {| userName := userName p;
                     userLanguage := userLanguage p; userMode := v;
                     classroomUserId := classroomUserId p |}).

Definition browser_with
  (socks : list WebSocket) (ivs : list (nat * TimerKind)) (nt : nat)
  (reqs : list Request) (sm : option PlaybackMode) (ctxs : list CtxState)
  (res : list (nat * bool)) (bl : list (list Byte.byte))
  (st : list Float32Array) (brs : list PipecatClient) (ac : option nat)
  (b : Browser) : Browser :=
  {| sockets := socks; intervals := ivs; next_timer := nt;
     requests := reqs; stored_mode := sm; stored_token := stored_token b;
     contexts := ctxs; fresh_ctx_state := fresh_ctx_state b;
     resumes := res; blobs := bl; started := st; bridges := brs;
     activeClient := ac |}.

Definition sockets_set (v : list WebSocket) : Client → Client :=
  upd_browser (λ b, browser_with v (intervals b) (next_timer b)
    (requests b) (stored_mode b) (contexts b) (resumes b) (blobs b)
    (started b) (bridges b) (activeClient b) b).
Definition intervals_set (v : list (nat * TimerKind)) (nt : nat)
  : Client → Client :=
  upd_browser (λ b, browser_with (sockets b) v nt
    (requests b) (stored_mode b) (contexts b) (resumes b) (blobs b)
    (started b) (bridges b) (activeClient b) b).
Definition requests_set (v : list Request) : Client → Client :=
  upd_browser (λ b, browser_with (sockets b) (intervals b) (next_timer b)
    v (stored_mode b) (contexts b) (resumes b) (blobs b)
    (started b) (bridges b) (activeClient b) b).
Definition stored_mode_set (v : option PlaybackMode) : Client → Client :=
  upd_browser (λ b, browser_with (sockets b) (intervals b) (next_timer b)
    (requests b) v (contexts b) (resumes b) (blobs b)
    (started b) (bridges b) (activeClient b) b).
Definition contexts_set (v : list CtxState) : Client → Client :=
  upd_browser (λ b, browser_with (sockets b) (intervals b) (next_timer b)
    (requests b) (stored_mode b) v (resumes b) (blobs b)
    (started b) (bridges b) (activeClient b) b).
Definition resumes_set (v : list (nat * bool)) : Client → Client :=
  upd_browser (λ b, browser_with (sockets b) (intervals b) (next_timer b)
    (requests b) (stored_mode b) (contexts b) v (blobs b)
    (started b) (bridges b) (activeClient b) b).
Definition blobs_set (v : list (list Byte.byte)) : Client → Client :=
  upd_browser (λ b, browser_with (sockets b) (intervals b) (next_timer b)
    (requests b) (stored_mode b) (contexts b) (resumes b) v
    (started b) (bridges b) (activeClient b) b).
Definition started_set (v : list Float32Array) : Client → Client :=
  upd_browser (λ b, browser_with (sockets b) (intervals b) (next_timer b)
    (requests b) (stored_mode b) (contexts b) (resumes b) (blobs b)
    v (bridges b) (activeClient b) b).
Definition bridges_set (v : list PipecatClient) : Client → Client :=
  upd_browser (λ b, browser_with (sockets b) (intervals b) (next_timer b)
    (requests b) (stored_mode b) (contexts b) (resumes b) (blobs b)
    (started b) v (activeClient b) b).
Definition activeClient_set (v : option nat) : Client → Client :=
  upd_browser (λ b, browser_with (sockets b) (intervals b) (next_timer b)
    (requests b) (stored_mode b) (contexts b) (resumes b) (blobs b)
    (started b) (bridges b) v b).

(** ** The stores module ([lib/stores/classroom]) *)

(** [isSpeaker]: derived from [classroomRoom] and [classroomSelf]. *)
Definition isSpeaker (s : Stores) : bool :=
  match classroomRoom s, classroomSelf s with
  | Some room, Some self =>
      Js.seq (speaker_id room) (Some (self_user_id self))
  | _, _ => false
  end.

(** [isTeacher]: derived from the same two stores. *)
Definition isTeacher (s : Stores) : bool :=
  match classroomRoom s, classroomSelf s with
  | Some room, Some self =>
      Js.seq (teacher_id room) (Some (self_user_id self))
  | _, _ => false
  end.

(** [genMsgId]: [msgCounter++] and [`cm-${Date.now()}-${msgCounter}`].
    One handler run reads the clock as [now]. *)
Definition genMsgId (now : Z) (c : Client) : string * Client :=
  let n := S (msgCounter (stores c)) in
  ("cm-" +:+ pretty now +:+ "-" +:+ pretty n, msgCounter_set n c).

Definition addClassroomMessage (now : Z) (role : Role) (content : string)
  (speakerName : option string) (translated : option bool)
  (dbMessageId : option string) (c : Client) : Client :=
  let '(i, c) := genMsgId now c in
  let msg :=
    {| msg_id := i; msg_role := role; msg_speaker_name := speakerName;
       msg_content := content;
       msg_translated := Some (default false translated);
       msg_timestamp := now; msg_streaming := None;
       msg_reaction_counts := Some ∅;
       msg_db_message_id := dbMessageId; msg_interrupted := None |} in
  classroomMessages_update (λ msgs, msgs ++ [msg]) c.

Definition clearClassroomMessages : Client → Client :=
  classroomMessages_set [].

(** [counts[emoji] = Math.max(0, (counts[emoji] || 0) + delta);
     if (counts[emoji] === 0) delete counts[emoji]] on the plain object
    [counts].  A count that is a number, [NaN] or missing gives a number.
    For an emoji that names an inherited method, and has no count of its
    own, [counts[emoji]] is a function: the sum is a string,
    [Math.max] of it [NaN], which is stored and is not [0].  For
    [__proto__] the same sum is [NaN] as well, but the assignment goes to
    the inherited setter, which ignores it. *)
Definition count_reaction (emoji : string) (delta : Z)
  (counts : gmap string Js.Num) : gmap string Js.Num :=
  let add (was : Z) :=
    let n := Z.max 0 (was + delta) in
    let counts := <[emoji := Js.num n]> counts in
    if bool_decide (n = 0) then delete emoji counts else counts in
  match Js.read emoji counts with
  | Js.own (Js.num n) => add n
  | Js.own Js.NaN | Js.undefined => add 0
  | Js.method => <[emoji := Js.NaN]> counts
  | Js.prototype => counts
  end.

(** The body of the [msgs.map] of [updateMessageReaction]. *)
Definition react_to (messageId emoji : string) (delta : Z)
  (m : ClassroomMessage) : ClassroomMessage :=
  if bool_decide (msg_id m = messageId)
     || bool_decide (msg_db_message_id m = Some messageId)
  then
    let counts := default ∅ (msg_reaction_counts m) in
    msg_with_reactions (count_reaction emoji delta counts) m
  else m.

Definition updateMessageReaction (messageId emoji : string) (delta : Z)
  : Client → Client :=
  classroomMessages_update (λ msgs, react_to messageId emoji delta <$> msgs).

(** [ws.close()] on the socket with handle [h]. *)
Definition ws_close (h : nat) (c : Client) : Client :=
  sockets_set (alter (ws_with_readyState CLOSING) h (sockets (browser c))) c.

Definition resetClassroom (c : Client) : Client :=
  let c := classroomState_set lobby c in
  let c := classroomRoom_set None c in
  let c := classroomSelf_set None c in
  let c := classroomMessages_set [] c in
  let c := classroomError_set "" c in
  let c := classroomTopics_set [] c in
  let c := isHandRaised_set false c in
  let c := currentLessonTopic_set "" c in
  let c :=
    match classroomWs (stores c) with
    | Some h =>
        match sockets (browser c) !! h with
        | Some ws => if bool_decide (readyState ws ≤ OPEN)%nat
                     then ws_close h c else c
        | None => c
        end
    | None => c
    end in
  classroomWs_set None c.

(** ** The controller component *)

(** *** Listener audio playback *)

Definition AUDIO_SAMPLE_RATE : Z := 24000.

Definition ctx_state_of (h : nat) (c : Client) : CtxState :=
  default closed (contexts (browser c) !! h).

(** [ensureAudioContext]: returns the context's handle with the state. *)
Definition ensureAudioContext (c : Client) : nat * Client :=
  let usable :=
    match audioContext (audio c) with
    | Some h => negb (bool_decide (ctx_state_of h c = closed))
    | None => false
    end in
  let c :=
    if usable then c
    else
      let h := length (contexts (browser c)) in
      let c := contexts_set
                 (contexts (browser c) ++ [fresh_ctx_state (browser c)]) c in
      audioContext_set (Some h) c in
  let h := default 0%nat (audioContext (audio c)) in
  let c :=
    if bool_decide (ctx_state_of h c = suspended)
    then resumes_set (resumes (browser c) ++ [(h, false)]) c
    else c in
  (h, c).

(** One little-endian signed 16-bit sample. *)
Definition int16_le (lo hi : Byte.byte) : Z :=
  let u := Z.of_N (Byte.to_N lo) + 256 * Z.of_N (Byte.to_N hi) in
  if u <? 32768 then u else u - 65536.

(** [new Int16Array(rawBytes)]: a view of the buffer as 16-bit samples; a
    buffer of odd byte length raises [RangeError] ([None]). *)
Fixpoint Int16Array (rawBytes : list Byte.byte) : option (list Z) :=
  match rawBytes with
  | [] => Some []
  | [_] => None
  | lo :: hi :: rest => (int16_le lo hi ::.) <$> Int16Array rest
  end.

(** [float32[i] = int16[i] / 32768.0] *)
Definition to_float32 (k : Z) : Q := Qmake k 32768.

Definition playNextChunk (c : Client) : Client :=
  match audioQueue (audio c) with
  | [] => isPlayingAudio_set false c
  | chunk :: rest =>
      let c := isPlayingAudio_set true c in
      let '(ctx, c) := ensureAudioContext c in
      if bool_decide (ctx_state_of ctx c = suspended)
      then resumes_set (resumes (browser c) ++ [(ctx, true)]) c
      else
        let c := audioQueue_set rest c in
        started_set (started (browser c) ++ [chunk]) c
  end.

(** [queueAudioChunk]: [None] when the typed-array view cannot be built. *)
Definition queueAudioChunk (rawBytes : list Byte.byte) (c : Client)
  : option Client :=
  int16 ← Int16Array rawBytes;
  let float32 := to_float32 <$> int16 in
  let c := audioQueue_set (audioQueue (audio c) ++ [float32]) c in
  Some (if isPlayingAudio (audio c) then c else playNextChunk c).

Definition stopAudioPlayback (c : Client) : Client :=
  isPlayingAudio_set false (audioQueue_set [] c).

(** [audioContext.close()] on handle [h]. *)
Definition ctx_close (h : nat) (c : Client) : Client :=
  contexts_set (<[h := closed]> (contexts (browser c))) c.

(** *** Speaker pipeline management *)

(** [PipecatClient.disconnect()] on handle [h]. *)
Definition pc_disconnect (h : nat) (c : Client) : Client :=
  bridges_set
    (alter (λ p, pc_with_sessionId None (pc_with_links false (pc_subscribed p) p))
       h (bridges (browser c))) c.

Definition disconnectSpeakerPipeline (c : Client) : Client :=
  let c :=
    match speakerPipecat (speaker c) with
    | Some h => speakerPipecat_set None (pc_disconnect h c)
    | None => c
    end in
  (* speakerUnsubs.forEach((unsub) => unsub()) *)
  let c := bridges_set
             ((λ p, pc_with_links (pc_live p) false p) <$> bridges (browser c))
             c in
  let c := speakerBotText_set "" c in
  speakerUserText_set "" c.

(** [connectSpeakerPipeline] up to its [await]: the client is built (its
    constructor makes it the active client of the interception), the
    subscriptions are attached and [connect] resets the text state. *)
Definition connectSpeakerPipeline (c : Client) : Client :=
  match speakerPipecat (speaker c) with
  | Some _ => c
  | None =>
      let roomId := room_id <$> classroomRoom (stores c) in
      let selfId := self_user_id <$> classroomSelf (stores c) in
      if negb (Js.truthy roomId) || negb (Js.truthy selfId) then c
      else
        let h := length (bridges (browser c)) in
        let p :=
          {| classroomConfig :=
               Some (default "" roomId, default "" selfId);
             currentBotText := ""; botTranscript := "";
             botResponseComplete := 0; botResponseInterrupted := 0;
             pc_sessionId := None; pc_live := true;
             pc_subscribed := true |} in
        let c := bridges_set (bridges (browser c) ++ [p]) c in
        let c := activeClient_set (Some h) c in
        speakerPipecat_set (Some h) c
  end.

(** The three reactive statements ([$:]) that follow the pipeline
    functions, all three run one after the other, as in the first flush
    of the component and in every flush in which [$isSpeaker] has
    changed, which all three read.  Their guards exclude each other in a
    way that makes the outcome the same in whichever order they run.
    A flush in general reruns a statement only if a variable that it reads
    has been assigned a new value; [update] below takes the statements it
    reruns as a parameter. *)
Definition react (c : Client) : Client :=
  let c :=
    if isSpeaker (stores c)
       && bool_decide (classroomState (stores c) = active)
       && bool_decide (speakerMode (speaker c) = voice)
       && negb (bool_decide (is_Some (speakerPipecat (speaker c))))
    then connectSpeakerPipeline c else c in
  let c :=
    if (negb (isSpeaker (stores c))
        || bool_decide (speakerMode (speaker c) = text))
       && bool_decide (is_Some (speakerPipecat (speaker c)))
    then disconnectSpeakerPipeline c else c in
  if negb (isSpeaker (stores c)) then speakerMode_set text c else c.

(** *** The voice bridge: [handleJsonMsg] of [PipecatClient]

    The interception routes every JSON text it sees to
    [window.__pipecatActiveClient].  A [writable] of a number notifies its
    subscribers only when the value changes; a [writable] of an object
    always does. *)

Inductive BridgeMsg :=
| b_session_id (session_id : option string)
| b_bot_text (txt : option string)
| b_bot_text_complete (txt : option string) (interrupted : bool)
| b_user_transcript (txt : option string) (final : option bool)
    (cleaned : string)
    (* [cleaned]: what the transcript-prefix regular expression of the
       controller captures from [txt] *)
| b_other.

(** Subscriptions made by [connectSpeakerPipeline]. *)
Definition on_botTranscript (txt : string) (c : Client) : Client :=
  if Js.truthy (Some txt) then speakerBotText_set txt c else c.

(** Shared body of the [botResponseComplete] and
    [botResponseInterrupted] subscriptions. *)
Definition on_botResponse (now ts : Z) (c : Client) : Client :=
  if negb (bool_decide (ts = 0)) && Js.truthy (Some (speakerBotText (speaker c)))
  then
    let c := addClassroomMessage now assistant (speakerBotText (speaker c))
               (Some "Mira") None None c in
    speakerBotText_set "" c
  else c.

Definition ws_send_if_open (o : OutMsg) (c : Client) : Client :=
  match classroomWs (stores c) with
  | Some h =>
      match sockets (browser c) !! h with
      | Some ws =>
          if bool_decide (readyState ws = OPEN)
          then sockets_set (alter (ws_send o) h (sockets (browser c))) c
          else c
      | None => c
      end
  | None => c
  end.

Definition on_userTranscript (now : Z) (txt : string) (final : bool)
  (cleaned : string) (c : Client) : Client :=
  if Js.truthy (Some txt) then
    let c := speakerUserText_set txt c in
    if final then
      let c := addClassroomMessage now user cleaned
                 (Some (userName (prefs c))) None None c in
      let c := ws_send_if_open (out_speaker_transcript cleaned) c in
      speakerUserText_set "" c
    else c
  else c.

Definition bridge_update (h : nat) (f : PipecatClient → PipecatClient)
  (c : Client) : Client :=
  bridges_set (alter f h (bridges (browser c))) c.

(** [handleJsonMsg] on the active client with handle [h]. *)
Definition handleJsonMsg (now : Z) (msg : BridgeMsg) (h : nat) (c : Client)
  : Client :=
  match bridges (browser c) !! h with
  | None => c
  | Some p =>
      let notify (k : Client → Client) (c : Client) : Client :=
        if pc_subscribed p then k c else c in
      match msg with
      | b_session_id sid =>
          if Js.truthy sid then bridge_update h (pc_with_sessionId sid) c
          else c
      | b_bot_text txt =>
          if Js.truthy txt then
            let cur := currentBotText p +:+ default "" txt in
            let c := bridge_update h (pc_with_text cur cur) c in
            notify (on_botTranscript cur) c
          else c
      | b_bot_text_complete txt interrupted =>
          let cur := Js.or_str txt "" in
          let c := bridge_update h (pc_with_text cur cur) c in
          let c := notify (on_botTranscript cur) c in
          let old := if interrupted then botResponseInterrupted p
                     else botResponseComplete p in
          let c :=
            if bool_decide (old = now) then c
            else
              let c := bridge_update h
                         (if interrupted then pc_with_interrupted now
                          else pc_with_complete now) c in
              notify (on_botResponse now now) c in
          bridge_update h (pc_with_currentBotText "") c
      | b_user_transcript txt final cleaned =>
          if Js.truthy txt then
            notify (on_userTranscript now (default "" txt)
                      (default true final) cleaned) c
          else c
      | b_other => c
      end
  end.

(** The message listener of the interception. *)
Definition bridge_message (now : Z) (msg : BridgeMsg) (c : Client) : Client :=
  match activeClient (browser c) with
  | Some h => handleJsonMsg now msg h c
  | None => c
  end.

(** *** Inbound frames of the room socket *)

(** One entry of [recent_messages] in the [joined] frame.  [rm_random] is
    the [Math.random()] suffix drawn while this entry is mapped. *)
Record RecentMessage := {
  rm_id : option string;
  rm_role : string;
  rm_speaker_name : option string;
  rm_content : option string;
  rm_translated : bool;
  rm_timestamp : option Z;
  rm_reaction_counts : option (gmap string Z);
  rm_random : string
}.

Inductive WsData :=
| joined (room : ClassroomRoom) (you : Self)
    (recent_messages : option (list RecentMessage))
| token_changed (sid sname : option string)
| token_response (granted : bool)
| user_joined (u : ClassroomUser)
| user_left (uid : string)
| transcription (txt : string) (translated_text speaker : option string)
| bot_response (txt : string) (translated_text : option string)
| bot_text (txt : option string)
| bot_text_complete (txt : option string) (interrupted : bool)
| bot_audio_start
| bot_audio_end
| mode_changed (mode : PlaybackMode)
| hand_raised (raise : HandRaise)
| hand_lowered (uid : string)
| hand_acknowledged (raise : HandRaise)
| hand_dismissed (raise : HandRaise)
| reaction_update (message_id emoji action : string)
| topic_suggestions (topics : option (list string))
| lesson_topic_changed (t : option string)
| teacher_changed (t : option string)
| teacher_action_result
| kicked (message : option string)
| error_msg (message : option string)
| unknown_type.

(** [msgs.slice(0, -1)] *)
Definition but_last {A} (l : list A) : list A := take (pred (length l)) l.

(** [last && last.role === 'assistant' && last._streaming] *)
Definition is_streaming_assistant (m : ClassroomMessage) : bool :=
  bool_decide (msg_role m = assistant) && Js.flag (msg_streaming m).

Definition streaming_tail (msgs : list ClassroomMessage)
  : option ClassroomMessage :=
  match last msgs with
  | Some m => if is_streaming_assistant m then Some m else None
  | None => None
  end.

(** The updater of the [bot_response] case. *)
Definition on_bot_response (now : Z) (txt : string)
  (translated_text : option string) (msgs : list ClassroomMessage)
  : list ClassroomMessage :=
  let finalText := Js.or_str translated_text txt in
  let isTranslated :=
    Js.truthy translated_text
    && negb (bool_decide (translated_text = Some txt)) in
  match streaming_tail msgs with
  | Some m =>
      but_last msgs ++ [msg_finalized_response finalText isTranslated m]
  | None =>
      msgs ++
      [ {| msg_id := "msg-" +:+ pretty now; msg_role := assistant;
           msg_speaker_name := Some "Mira"; msg_content := finalText;
           msg_translated := Some isTranslated; msg_timestamp := now;
           msg_streaming := None; msg_reaction_counts := None;
           msg_db_message_id := None; msg_interrupted := None |} ]
  end.

(** The updater of the [bot_text] case. *)
Definition on_bot_text (now : Z) (txt : option string)
  (msgs : list ClassroomMessage) : list ClassroomMessage :=
  match streaming_tail msgs with
  | Some m =>
      but_last msgs
      ++ [msg_with_content (msg_content m +:+ Js.or_str txt "") m]
  | None =>
      msgs ++
      [ {| msg_id := "msg-" +:+ pretty now; msg_role := assistant;
           msg_speaker_name := Some "Mira";
           msg_content := Js.or_str txt "";
           msg_translated := None; msg_timestamp := now;
           msg_streaming := Some true; msg_reaction_counts := None;
           msg_db_message_id := None; msg_interrupted := None |} ]
  end.

(** The updater of the [bot_text_complete] case. *)
Definition on_bot_text_complete (now : Z) (txt : option string)
  (interrupted : bool) (msgs : list ClassroomMessage)
  : list ClassroomMessage :=
  match streaming_tail msgs with
  | Some m =>
      but_last msgs
      ++ [msg_finalized_complete (Js.or_str txt (msg_content m))
            interrupted m]
  | None =>
      if Js.truthy txt then
        msgs ++
        [ {| msg_id := "msg-" +:+ pretty now; msg_role := assistant;
             msg_speaker_name := Some "Mira";
             msg_content := default "" txt;
             msg_translated := None; msg_timestamp := now;
             msg_streaming := None; msg_reaction_counts := None;
             msg_db_message_id := None;
             msg_interrupted := Some interrupted |} ]
      else msgs
  end.

(** The mapper of the [joined] case over [recent_messages]. *)
Definition hydrate (now : Z) (m : RecentMessage) : ClassroomMessage :=
  {| msg_id := Js.or_str (rm_id m)
                 ("msg-" +:+ pretty now +:+ "-" +:+ rm_random m);
     msg_role := if String.eqb (rm_role m) "assistant" then assistant
                 else user;
     msg_speaker_name := rm_speaker_name m;
     msg_content := Js.or_str (rm_content m) "";
     msg_translated := Some (rm_translated m);
     msg_timestamp :=
       match rm_timestamp m with
       | Some t => if t <? 1000000000000 then t * 1000 else t
       | None => now
       end;
     msg_streaming := None;
     msg_reaction_counts :=
       Some (Js.num <$> default ∅ (rm_reaction_counts m));
     msg_db_message_id := Js.or_opt (rm_id m) None;
     msg_interrupted := None |}.

(** [{ ...hr, ...data.raise }]: the frame's raise has the fields that
    [HandRaise] requires; an optional field that it lacks stays as stored,
    one that it carries, be it as [null], is copied. *)
Definition merge_raise (hr raise : HandRaise) : HandRaise :=
  {| hr_id := hr_id raise; hr_user_id := hr_user_id raise;
     hr_user_name := hr_user_name raise;
     hr_question_preview :=
       Js.spread (hr_question_preview hr) (hr_question_preview raise);
     hr_status := hr_status raise; hr_raised_at := hr_raised_at raise;
     hr_resolved_at :=
       Js.spread (hr_resolved_at hr) (hr_resolved_at raise) |}.

(** [r.hand_raises || []] *)
Definition raises_of (r : ClassroomRoom) : list HandRaise :=
  default [] (hand_raises r).

(** The updater of the [hand_raised] case. *)
Definition on_hand_raised (raise : HandRaise) (r : ClassroomRoom)
  : ClassroomRoom :=
  let raises := raises_of r in
  let raises :=
    if bool_decide (Exists (λ hr, hr_id hr = hr_id raise) raises)
    then raises else raises ++ [raise] in
  room_with_hand_raises raises r.

(** The updater of the [hand_lowered] case. *)
Definition on_hand_lowered (uid : string) (r : ClassroomRoom)
  : ClassroomRoom :=
  room_with_hand_raises
    (filter (λ hr, ¬ (hr_user_id hr = uid ∧ hr_status hr = pending))
       (raises_of r)) r.

(** The updater of the [hand_acknowledged] and [hand_dismissed] cases. *)
Definition on_hand_resolved (raise : HandRaise) (r : ClassroomRoom)
  : ClassroomRoom :=
  room_with_hand_raises
    ((λ hr, if bool_decide (hr_id hr = hr_id raise)
            then merge_raise hr raise else hr) <$> raises_of r) r.

(** [persistUserMode] *)
Definition persistUserMode (m : PlaybackMode) : Client → Client :=
  stored_mode_set (Some m).

(** [refreshRooms()] called without [await]: a request is issued. *)
Definition refreshRooms (c : Client) : Client :=
  requests_set (requests (browser c) ++ [req_refreshRooms]) c.

(** [clearInterval(h)] *)
Definition clearInterval (h : nat) (c : Client) : Client :=
  intervals_set
    (filter (λ t, t.1 ≠ h) (intervals (browser c)))
    (next_timer (browser c)) c.

(** [setInterval(callback, ms)]: returns the new handle. *)
Definition setInterval (k : TimerKind) (c : Client) : nat * Client :=
  let h := next_timer (browser c) in
  (h, intervals_set (intervals (browser c) ++ [(h, k)]) (S h) c).

Definition handleLeaveRoom (c : Client) : Client :=
  let c :=
    match pollInterval (polling c) with
    | Some h => pollInterval_set None (clearInterval h c)
    | None => c
    end in
  let c := stopAudioPlayback c in
  let c :=
    match audioContext (audio c) with
    | Some h => audioContext_set None (ctx_close h c)
    | None => c
    end in
  let c := disconnectSpeakerPipeline c in
  let c := resetClassroom c in
  refreshRooms c.

(** *** [handleWsMessage] *)

(** The two store updates of the [token_changed] case, in source order. *)
Definition token_changed_room (sid sname : option string)
  : Client → Client :=
  classroomRoom_update (fmap (room_with_speaker sid sname)).

Definition token_changed_self (sid : option string) : Client → Client :=
  classroomSelf_update
    (fmap (λ s, self_with_is_speaker
                  (Js.seq (Some (self_user_id s)) sid) s)).

Definition self_is (uid : string) (c : Client) : bool :=
  bool_decide (Some uid = self_user_id <$> classroomSelf (stores c)).

Definition handleWsMessage (now : Z) (data : WsData) (c : Client) : Client :=
  match data with
  | joined room you recent_messages =>
      let c := classroomRoom_set (Some room) c in
      let c := classroomSelf_set (Some you) c in
      let c := classroomMessages_set
                 (match recent_messages with
                  | Some ms => hydrate now <$> ms
                  | None => []
                  end) c in
      let c := persistUserMode (self_mode you)
                 (userMode_set (self_mode you) c) in
      let name := self_name you in
      let c :=
        if Js.truthy (Some name)
           && negb (String.eqb name "User")
           && negb (String.eqb name
                      ("User-" +:+ String.substring 0 4 (self_user_id you)))
        then
          let c := if String.eqb name (userName (prefs c)) then c
                   else userName_set name c in
          if Js.truthy (Some (self_language you))
             && negb (String.eqb (self_language you)
                        (userLanguage (prefs c)))
          then userLanguage_set (self_language you) c else c
        else c in
      classroomState_set active c
  | token_changed sid sname =>
      token_changed_self sid (token_changed_room sid sname c)
  | token_response granted =>
      if granted
      then classroomSelf_update (fmap (self_with_is_speaker true)) c
      else c
  | user_joined u =>
      classroomRoom_update
        (fmap (λ r,
           if bool_decide
                (Exists (λ x, u_user_id x = u_user_id u) (users r))
           then r
           else room_with_users (users r ++ [u]) (user_count r + 1) r)) c
  | user_left uid =>
      classroomRoom_update
        (fmap (λ r,
           room_with_users (filter (λ x, u_user_id x ≠ uid) (users r))
             (Z.max 0 (user_count r - 1)) r)) c
  | transcription txt translated_text speaker =>
      addClassroomMessage now user (Js.or_str translated_text txt) speaker
        (Some (Js.truthy translated_text
               && negb (bool_decide (translated_text = Some txt))))
        None c
  | bot_response txt translated_text =>
      classroomMessages_update (on_bot_response now txt translated_text) c
  | bot_text txt =>
      let c := classroomMessages_update (on_bot_text now txt) c in
      speakerBotText_set (Js.or_str txt "") c
  | bot_text_complete txt interrupted =>
      let c := classroomMessages_update
                 (on_bot_text_complete now txt interrupted) c in
      speakerBotText_set "" c
  | bot_audio_start =>
      if bool_decide (userMode (prefs c) = text_and_audio)
         && negb (isSpeaker (stores c))
      then (ensureAudioContext c).2 else c
  | bot_audio_end => c
  | mode_changed mode =>
      let c := classroomSelf_update (fmap (self_with_mode mode)) c in
      let c := persistUserMode mode (userMode_set mode c) in
      if bool_decide (mode = text_only) then stopAudioPlayback c else c
  | hand_raised raise =>
      classroomRoom_update (fmap (on_hand_raised raise)) c
  | hand_lowered uid =>
      let c := classroomRoom_update (fmap (on_hand_lowered uid)) c in
      if self_is uid c then isHandRaised_set false c else c
  | hand_acknowledged raise
  | hand_dismissed raise =>
      let c := classroomRoom_update (fmap (on_hand_resolved raise)) c in
      if self_is (hr_user_id raise) c then isHandRaised_set false c else c
  | reaction_update message_id emoji action =>
      updateMessageReaction message_id emoji
        (if String.eqb action "add" then 1 else -1) c
  | topic_suggestions topics =>
      classroomTopics_set (default [] topics) c
  | lesson_topic_changed t =>
      let c := currentLessonTopic_set (Js.or_str t "") c in
      classroomRoom_update
        (fmap (room_with_lesson_topic (Js.or_opt t None))) c
  | teacher_changed t =>
      classroomRoom_update (fmap (room_with_teacher t)) c
  | teacher_action_result => c
  | kicked message =>
      let c := classroomError_set
                 (Js.or_str message "You were removed from the room") c in
      handleLeaveRoom c
  | error_msg message =>
      classroomError_set (Js.or_str message "Unknown error") c
  | unknown_type => c
  end.

(** *** Joining: the socket and its handlers, the room poll *)

(** What arrives on the room socket. *)
Inductive Frame :=
| frame_buffer (bytes : list Byte.byte)   (* ArrayBuffer *)
| frame_blob (bytes : list Byte.byte)     (* Blob *)
| frame_json (data : WsData)              (* text that parses *)
| frame_text (raw : string).              (* text that does not *)

(** [getClassroomWsUrl], without the base URL. *)
Definition getClassroomWsUrl (roomId : string) : string :=
  "/classroom/rooms/" +:+ roomId +:+ "/ws".

(** [handleJoinRoom].  Browsers hand out timer handles greater than zero,
    so [if (pollInterval)] is a test for a handle being held. *)
Definition handleJoinRoom (roomId : string) (c : Client) : Client :=
  let c := classroomState_set joining c in
  let c := classroomError_set "" c in
  let c := if bool_decide (userMode (prefs c) = text_and_audio)
           then (ensureAudioContext c).2 else c in
  let h := length (sockets (browser c)) in
  let c := sockets_set
             (sockets (browser c)
              ++ [ {| ws_url := getClassroomWsUrl roomId;
                      readyState := CONNECTING; ws_sent := [] |} ]) c in
  let c := classroomWs_set (Some h) c in
  let '(t, c) := setInterval room_poll c in
  pollInterval_set (Some t) c.

Definition ws_onopen (h : nat) (c : Client) : Client :=
  let joinMsg :=
    out_join (classroomUserId (prefs c)) (userName (prefs c))
      (userLanguage (prefs c)) (userMode (prefs c))
      (Js.or_opt (stored_token (browser c)) None) in
  sockets_set
    (alter (λ w, ws_send joinMsg (ws_with_readyState OPEN w)) h
       (sockets (browser c))) c.

Definition listens (c : Client) : bool :=
  bool_decide (userMode (prefs c) = text_and_audio)
  && negb (isSpeaker (stores c)).

Definition ws_onmessage (now : Z) (f : Frame) (c : Client) : Client :=
  match f with
  | frame_buffer bytes =>
      if listens c then default c (queueAudioChunk bytes c) else c
  | frame_blob bytes =>
      if listens c then blobs_set (blobs (browser c) ++ [bytes]) c else c
  | frame_json data => handleWsMessage now data c
  | frame_text _ => c
  end.

Definition ws_onerror (c : Client) : Client :=
  classroomState_set error
    (classroomError_set "WebSocket connection error" c).

Definition ws_onclose (h : nat) (c : Client) : Client :=
  let c := sockets_set
             (alter (ws_with_readyState CLOSED) h (sockets (browser c))) c in
  if bool_decide (classroomState (stores c) = active) then
    let c := disconnectSpeakerPipeline c in
    let c := classroomState_set lobby c in
    let c := classroomRoom_set None c in
    let c := classroomSelf_set None c in
    let c := classroomWs_set None c in
    refreshRooms c
  else c.

(** The callback of the room poll up to its [await getRoom(...)]. *)
Definition room_poll_tick (c : Client) : Client :=
  if bool_decide (classroomState (stores c) = active) then
    match classroomRoom (stores c) with
    | Some r =>
        requests_set (requests (browser c) ++ [req_getRoom (room_id r)]) c
    | None => c
    end
  else c.

(** The callback of the lobby poll up to its [await Promise.all(...)]. *)
Definition lobby_poll_tick (c : Client) : Client :=
  if negb (bool_decide (classroomState (stores c) = lobby)) then c
  else if roomListPollInFlight (polling c)
          || teacherStatusPollInFlight (polling c) then c
  else
    let c := pollInFlight_set true true c in
    requests_set (requests (browser c) ++ [req_lobby_refresh]) c.

Definition startLobbyPolling (c : Client) : Client :=
  match lobbyPollInterval (polling c) with
  | Some _ => c
  | None =>
      let '(t, c) := setInterval lobby_poll c in
      lobbyPollInterval_set (Some t) c
  end.

Definition timer_fires (h : nat) (c : Client) : Client :=
  match list_find (λ t, t.1 = h) (intervals (browser c)) with
  | Some (_, (_, room_poll)) => room_poll_tick c
  | Some (_, (_, lobby_poll)) => lobby_poll_tick c
  | None => c
  end.

(** The [i]-th request in flight settles; [result] is the room a [getRoom]
    resolves with, or [None] when it rejects. *)
Definition request_settles (i : nat) (result : option ClassroomRoom)
  (c : Client) : Client :=
  match requests (browser c) !! i with
  | None => c
  | Some r =>
      let c := requests_set (delete i (requests (browser c))) c in
      match r with
      | req_getRoom _ =>
          match result with
          | Some updated => classroomRoom_set (Some updated) c
          | None => c
          end
      | req_refreshRooms => c
      | req_lobby_refresh => pollInFlight_set false false c
      end
  end.

(** [event.data.arrayBuffer().then((buf) => queueAudioChunk(buf))] *)
Definition blob_ready (i : nat) (c : Client) : Client :=
  match blobs (browser c) !! i with
  | None => c
  | Some bytes =>
      let c := blobs_set (delete i (blobs (browser c))) c in
      default c (queueAudioChunk bytes c)
  end.

(** A pending [resume()] settles. *)
Definition resume_settles (i : nat) (ok : bool) (c : Client) : Client :=
  match (resumes (browser c) !! i : option (nat * bool)) with
  | None => c
  | Some (ctx, again) =>
      let c := resumes_set (delete i (resumes (browser c))) c in
      if ok then
        let c :=
          if bool_decide (ctx_state_of ctx c = suspended)
          then contexts_set (<[ctx := running]> (contexts (browser c))) c
          else c in
        if again then playNextChunk c else c
      else c
  end.

(** *** Commands issued from the UI *)

Definition handleToggleMode (newMode : SpeakerMode) : Client → Client :=
  speakerMode_set newMode.

Definition handleSetPlaybackMode (newMode : PlaybackMode) (c : Client)
  : Client :=
  let c := userMode_set newMode c in
  let c := persistUserMode newMode c in
  let c := if bool_decide (newMode = text_only) then stopAudioPlayback c
           else c in
  ws_send_if_open (out_set_mode newMode) c.

Definition handleSendMessage (now : Z) (txt : string) (c : Client) : Client :=
  if negb (Js.truthy (Some txt)) || negb (isSpeaker (stores c)) then c
  else
    let c := addClassroomMessage now user txt (Some (userName (prefs c)))
               None None c in
    ws_send_if_open (out_text_message txt) c.

Definition requestToken : Client → Client := ws_send_if_open out_request_token.
Definition releaseToken : Client → Client := ws_send_if_open out_release_token.
Definition passToken (toUserId : option string) : Client → Client :=
  ws_send_if_open (out_pass_token toUserId).

Definition ws_is_open (c : Client) : bool :=
  match classroomWs (stores c) with
  | Some h =>
      match sockets (browser c) !! h with
      | Some ws => bool_decide (readyState ws = OPEN)
      | None => false
      end
  | None => false
  end.

Definition handleRaiseHand (question : option string) (c : Client) : Client :=
  if ws_is_open c then
    let c := ws_send_if_open (out_hand_raise (Js.or_str question "")) c in
    isHandRaised_set true c
  else c.

Definition handleLowerHand (c : Client) : Client :=
  if ws_is_open c then
    let c := ws_send_if_open out_hand_lower c in
    isHandRaised_set false c
  else c.

(** The hand button of [ClassroomActive]:
    [isHandRaised ? dispatch('lowerHand') : dispatch('raiseHand', '')]. *)
Definition hand_button_click (c : Client) : Client :=
  if isHandRaised (stores c) then handleLowerHand c
  else handleRaiseHand (Some "") c.

Definition handleAcknowledgeHand (raiseId : string) : Client → Client :=
  ws_send_if_open (out_hand_acknowledge raiseId).
Definition handleDismissHand (raiseId : string) : Client → Client :=
  ws_send_if_open (out_hand_dismiss raiseId).
Definition handleReaction (messageId emoji : string) : Client → Client :=
  ws_send_if_open (out_reaction messageId emoji).
Definition handleRequestTopics : Client → Client :=
  ws_send_if_open out_request_topics.

(** [labels[action] || action] *)
Definition teacher_label (action payload : string) : string :=
  if String.eqb action "SET_TOPIC" then "📝 Topic: " +:+ payload
  else if String.eqb action "QUIZ" then "❓ Quiz time!"
  else if String.eqb action "SUMMARIZE" then "📋 Summarizing the lesson..."
  else if String.eqb action "SIMPLIFY" then "🔄 Simplifying..."
  else if String.eqb action "NEXT" then "⏭️ Next topic..."
  else action.

Definition handleTeacherAction (now : Z) (action payload : string)
  (c : Client) : Client :=
  if negb (isTeacher (stores c)) then c
  else if ws_is_open c then
    let c := ws_send_if_open (out_teacher_action action payload) c in
    addClassroomMessage now user (teacher_label action payload)
      (Some (userName (prefs c))) None None c
  else c.

Definition handleSelectTopic (now : Z) (t : string) (c : Client) : Client :=
  if isSpeaker (stores c) then handleSendMessage now t c else c.

(** [onDestroy] *)
Definition onDestroy (c : Client) : Client :=
  let c := match pollInterval (polling c) with
           | Some h => clearInterval h c
           | None => c
           end in
  let c := match lobbyPollInterval (polling c) with
           | Some h => clearInterval h c
           | None => c
           end in
  let c := stopAudioPlayback c in
  let c := match audioContext (audio c) with
           | Some h => audioContext_set None (ctx_close h c)
           | None => c
           end in
  let c := disconnectSpeakerPipeline c in
  resetClassroom c.

(** [loadStoredUserMode] *)
Definition loadStoredUserMode (c : Client) : Client :=
  match stored_mode (browser c) with
  | Some m => userMode_set m c
  | None => c
  end.

(** ** Runs of the controller

    Everything that can happen to the mounted component, one handler run
    at a time.  A socket event names the socket whose handler fires; timer
    and promise events name what fires or settles. *)

Inductive Action :=
(* lifecycle *)
| a_mount
| a_start_lobby_polling
| a_destroy
(* UI commands *)
| a_join (roomId : string)
| a_leave
| a_toggle_mode (m : SpeakerMode)
| a_set_playback_mode (m : PlaybackMode)
| a_send_message (txt : string)
| a_request_token
| a_release_token
| a_pass_token (to : option string)
| a_raise_hand (question : option string)
| a_lower_hand
| a_hand_button
| a_acknowledge_hand (raiseId : string)
| a_dismiss_hand (raiseId : string)
| a_reaction (messageId emoji : string)
| a_teacher_action (action payload : string)
| a_request_topics
| a_select_topic (t : string)
(* room socket *)
| a_ws_open (h : nat)
| a_ws_frame (h : nat) (f : Frame)
| a_ws_error (h : nat)
| a_ws_close (h : nat)
(* timers and promises *)
| a_timer (h : nat)
| a_settled (i : nat) (result : option ClassroomRoom)
| a_blob_ready (i : nat)
| a_resume_settled (i : nat) (ok : bool)
| a_source_ended
(* voice bridge *)
| a_bridge (msg : BridgeMsg).

Definition socket_state (h : nat) (c : Client) : option nat :=
  readyState <$> sockets (browser c) !! h.

Definition handle (now : Z) (a : Action) (c : Client) : Client :=
  match a with
  | a_mount => loadStoredUserMode c
  | a_start_lobby_polling => startLobbyPolling c
  | a_destroy => onDestroy c
  | a_join roomId => handleJoinRoom roomId c
  | a_leave => handleLeaveRoom c
  | a_toggle_mode m => handleToggleMode m c
  | a_set_playback_mode m => handleSetPlaybackMode m c
  | a_send_message txt => handleSendMessage now txt c
  | a_request_token => requestToken c
  | a_release_token => releaseToken c
  | a_pass_token to => passToken to c
  | a_raise_hand question => handleRaiseHand question c
  | a_lower_hand => handleLowerHand c
  | a_hand_button => hand_button_click c
  | a_acknowledge_hand raiseId => handleAcknowledgeHand raiseId c
  | a_dismiss_hand raiseId => handleDismissHand raiseId c
  | a_reaction messageId emoji => handleReaction messageId emoji c
  | a_teacher_action action payload =>
      handleTeacherAction now action payload c
  | a_request_topics => handleRequestTopics c
  | a_select_topic t => handleSelectTopic now t c
  | a_ws_open h =>
      if bool_decide (socket_state h c = Some CONNECTING)
      then ws_onopen h c else c
  | a_ws_frame h f =>
      if bool_decide (socket_state h c = Some OPEN)
      then ws_onmessage now f c else c
  | a_ws_error h =>
      if bool_decide (is_Some (socket_state h c)) then ws_onerror c else c
  | a_ws_close h =>
      match socket_state h c with
      | Some s => if bool_decide (s = CLOSED) then c else ws_onclose h c
      | None => c
      end
  | a_timer h => timer_fires h c
  | a_settled i result => request_settles i result c
  | a_blob_ready i => blob_ready i c
  | a_resume_settled i ok => resume_settles i ok c
  | a_source_ended => playNextChunk c
  | a_bridge msg => bridge_message now msg c
  end.

(** A handler run followed by a flush of the component in which all
    three reactive statements run. *)
Definition step (now : Z) (a : Action) (c : Client) : Client :=
  react (handle now a c).

Definition run (evs : list (Z * Action)) (c : Client) : Client :=
  foldl (λ c e, step e.1 e.2 c) c evs.

(** The component as it is mounted. *)
Definition initial (name uid : string) (policy : CtxState)
  (token : option string) (mode : option PlaybackMode) : Client :=
  {| stores :=
       {| classroomState := lobby; classroomRoom := None;
          classroomSelf := None; classroomMessages := [];
          classroomWs := None; classroomError := "";
          classroomTopics := []; isHandRaised := false;
          currentLessonTopic := ""; msgCounter := 0 |};
     audio := {| audioContext := None; audioQueue := [];
                 isPlayingAudio := false |};
     speaker := {| speakerPipecat := None; speakerBotText := "";
                   speakerUserText := ""; speakerMode := text |};
     polling := {| pollInterval := None; lobbyPollInterval := None;
                   roomListPollInFlight := false;
                   teacherStatusPollInFlight := false |};
     prefs := {| userName := name; userLanguage := "en";
                 userMode := text_only; classroomUserId := uid |};
     browser :=
       {| sockets := []; intervals := []; next_timer := 1;
          requests := []; stored_mode := mode; stored_token := token;
          contexts := []; fresh_ctx_state := policy; resumes := [];
          blobs := []; started := []; bridges := [];
          activeClient := None |} |}.

(** ** The REST wrappers ([lib/apis/classroom])

    What each wrapper does with the response of its [fetch]. *)

Module Rest.

#[local] Set Warnings "-register-all".

Inductive Json :=
| JNull
| JBool (b : bool)
| JNum (z : Z)
| JStr (s : string)
| JArr (items : list Json)
| JObj (fields : list (string * Json)).

(** A [Response]: [body] is what [res.json()] parses, [None] when the
    body is not JSON and [res.json()] rejects. *)
Record Response := {
  ok : bool;
  statusText : string;
  body : option Json
}.

(** What a wrapper's promise rejects with.  [Error_of v] is
    [new Error(v)]: its message is [v] when [v] is a string. *)
Inductive Thrown :=
| Error_of (message : Json)
| TypeError_of_null
| SyntaxError.

(** A settled promise; [Resolved None] resolves with [undefined]. *)
Inductive Outcome :=
| Resolved (v : option Json)
| Rejected (e : Thrown).

Definition truthy (j : Json) : bool :=
  match j with
  | JNull => false
  | JBool b => b
  | JNum z => negb (z =? 0)
  | JStr s => negb (String.eqb s "")
  | JArr _ | JObj _ => true
  end.

(** [o[k]] on a parsed object: the last binding of a repeated key. *)
Definition field (k : string) (fields : list (string * Json))
  : option Json :=
  snd <$> last (filter (λ p, p.1 = k) fields).

(** [j.k]: [None] is [undefined], [inl] a [TypeError] on [null]. *)
Definition prop (k : string) (j : Json) : unit + option Json :=
  match j with
  | JNull => inl ()
  | JObj fields => inr (field k fields)
  | _ => inr None
  end.

(** [v || d] *)
Definition or_else (v : option Json) (d : Json) : Json :=
  match v with
  | Some j => if truthy j then j else d
  | None => d
  end.

(** [const err = await res.json().catch(() => ({ detail: res.statusText }));
     throw new Error(err.detail || fallback)] *)
Definition throw_detail (fallback : string) (res : Response) : Outcome :=
  let err := default (JObj [("detail", JStr (statusText res))])
               (body res) in
  match prop "detail" err with
  | inl _ => Rejected TypeError_of_null
  | inr d => Rejected (Error_of (or_else d (JStr fallback)))
  end.

(** [return res.json()] *)
Definition return_json (res : Response) : Outcome :=
  match body res with
  | Some j => Resolved (Some j)
  | None => Rejected SyntaxError
  end.

(** [const data = await res.json(); return data.k || []] *)
Definition return_field (k : string) (res : Response) : Outcome :=
  match body res with
  | Some j =>
      match prop k j with
      | inl _ => Rejected TypeError_of_null
      | inr v => Resolved (Some (or_else v (JArr [])))
      end
  | None => Rejected SyntaxError
  end.

Definition createRoom (res : Response) : Outcome :=
  if ok res then return_json res
  else throw_detail "Failed to create room" res.

Definition listRooms (res : Response) : Outcome :=
  if ok res then return_field "rooms" res
  else throw_detail "Failed to list rooms" res.

Definition getRoom (res : Response) : Outcome :=
  if ok res then return_json res else throw_detail "Room not found" res.

Definition updateRoom (res : Response) : Outcome :=
  if ok res then return_json res
  else throw_detail "Failed to update room" res.

Definition listRoomMembers (res : Response) : Outcome :=
  if ok res then return_json res
  else throw_detail "Failed to list members" res.

Definition deleteRoom (res : Response) : Outcome :=
  if ok res then Resolved None
  else throw_detail "Failed to delete room" res.

Definition manageToken (res : Response) : Outcome :=
  if ok res then return_json res
  else throw_detail "Token action failed" res.

Definition getTeacherStatus (res : Response) : Outcome :=
  if ok res then return_json res
  else throw_detail "Failed to get teacher status" res.

Definition requestTeacherRole (res : Response) : Outcome :=
  if ok res then return_json res
  else throw_detail "Failed to request teacher role" res.

Definition listTeacherRoleRequests (res : Response) : Outcome :=
  if ok res then return_field "requests" res
  else throw_detail "Failed to list teacher requests" res.

Definition reviewTeacherRoleRequest (approved : bool) (res : Response)
  : Outcome :=
  let action := if approved then "approve" else "reject" in
  if ok res then return_json res
  else throw_detail ("Failed to " +:+ action +:+ " request") res.

Definition listSessions (res : Response) : Outcome :=
  if ok res then return_field "sessions" res
  else Resolved (Some (JArr [])).

Definition getSession (res : Response) : Outcome :=
  if ok res then return_json res
  else Rejected (Error_of (JStr "Session not found")).

Definition getSessionSummary (res : Response) : Outcome :=
  if ok res then return_json res
  else Rejected (Error_of (JStr "Failed to get session summary")).

Definition getDashboard (res : Response) : Outcome :=
  if ok res then return_json res
  else Rejected (Error_of (JStr "Failed to fetch dashboard")).

Definition listCurriculumFiles (res : Response) : Outcome :=
  if ok res then return_json res
  else Resolved (Some (JObj [("files", JArr []);
                             ("available", JBool false)])).

Definition getCurriculumTopics (res : Response) : Outcome :=
  if ok res then return_field "tree" res
  else Resolved (Some (JArr [])).

Definition searchCurriculumConcepts (res : Response) : Outcome :=
  if ok res then return_field "results" res
  else Resolved (Some (JArr [])).

Definition getCurriculumContext (res : Response) : Outcome :=
  if ok res then return_json res else Resolved (Some JNull).

(** The exported wrappers that issue a request. *)
Inductive Wrapper :=
| w_createRoom | w_listRooms | w_getRoom | w_updateRoom
| w_listRoomMembers | w_deleteRoom | w_manageToken
| w_getTeacherStatus | w_requestTeacherRole | w_listTeacherRoleRequests
| w_reviewTeacherRoleRequest (approved : bool)
| w_listSessions | w_getSession | w_getSessionSummary | w_getDashboard
| w_listCurriculumFiles | w_getCurriculumTopics
| w_searchCurriculumConcepts | w_getCurriculumContext.

Definition call (w : Wrapper) : Response → Outcome :=
  match w with
  | w_createRoom => createRoom
  | w_listRooms => listRooms
  | w_getRoom => getRoom
  | w_updateRoom => updateRoom
  | w_listRoomMembers => listRoomMembers
  | w_deleteRoom => deleteRoom
  | w_manageToken => manageToken
  | w_getTeacherStatus => getTeacherStatus
  | w_requestTeacherRole => requestTeacherRole
  | w_listTeacherRoleRequests => listTeacherRoleRequests
  | w_reviewTeacherRoleRequest approved => reviewTeacherRoleRequest approved
  | w_listSessions => listSessions
  | w_getSession => getSession
  | w_getSessionSummary => getSessionSummary
  | w_getDashboard => getDashboard
  | w_listCurriculumFiles => listCurriculumFiles
  | w_getCurriculumTopics => getCurriculumTopics
  | w_searchCurriculumConcepts => searchCurriculumConcepts
  | w_getCurriculumContext => getCurriculumContext
  end.

(** The generic message each wrapper falls back to, for those that
    read [detail]. *)
Definition fallback (w : Wrapper) : option string :=
  match w with
  | w_createRoom => Some "Failed to create room"
  | w_listRooms => Some "Failed to list rooms"
  | w_getRoom => Some "Room not found"
  | w_updateRoom => Some "Failed to update room"
  | w_listRoomMembers => Some "Failed to list members"
  | w_deleteRoom => Some "Failed to delete room"
  | w_manageToken => Some "Token action failed"
  | w_getTeacherStatus => Some "Failed to get teacher status"
  | w_requestTeacherRole => Some "Failed to request teacher role"
  | w_listTeacherRoleRequests => Some "Failed to list teacher requests"
  | w_reviewTeacherRoleRequest true => Some "Failed to approve request"
  | w_reviewTeacherRoleRequest false => Some "Failed to reject request"
  | _ => None
  end.

End Rest.

(** ** The room view ([ClassroomActive]) *)

(** The typing indicator of [ClassroomActive]:
    [messages.length > 0 && messages[messages.length - 1]?._streaming === true] *)
Definition isTyping (messages : list ClassroomMessage) : bool :=
  match last messages with
  | Some m => bool_decide (msg_streaming m = Some true)
  | None => false
  end.


(** ** The reactive statements one by one

    [react] runs them in source order; the compiler may schedule them in
    another one. *)

(** [$: if ($isSpeaker && $classroomState === 'active'
            && speakerMode === 'voice' && !speakerPipecat)
          connectSpeakerPipeline()] *)
Definition react_connect (c : Client) : Client :=
  if isSpeaker (stores c)
     && bool_decide (classroomState (stores c) = active)
     && bool_decide (speakerMode (speaker c) = voice)
     && negb (bool_decide (is_Some (speakerPipecat (speaker c))))
  then connectSpeakerPipeline c else c.

(** [$: if ((!$isSpeaker || speakerMode === 'text') && speakerPipecat)
          disconnectSpeakerPipeline()] *)
Definition react_disconnect (c : Client) : Client :=
  if (negb (isSpeaker (stores c))
      || bool_decide (speakerMode (speaker c) = text))
     && bool_decide (is_Some (speakerPipecat (speaker c)))
  then disconnectSpeakerPipeline c else c.

(** [$: if (!$isSpeaker) speakerMode = 'text'] *)
Definition react_reset_mode (c : Client) : Client :=
  if negb (isSpeaker (stores c)) then speakerMode_set text c else c.

(** One flush that runs the statements in the given order. *)
Definition flush (order : list (Client → Client)) (c : Client) : Client :=
  foldl (λ c statement, statement c) c order.

(** Which statements a flush reruns because of what the handler before it
    has assigned. *)
Record Rerun := {
  reset_mode_runs : bool;
  connect_runs : bool;
  disconnect_runs : bool
}.

(** The component's [$$.update].  The compiler puts the statement that
    assigns [speakerMode] before the two that read it, and the other two in
    source order.  A statement is rerun if a variable it reads has been
    assigned a new value since the last flush, by the handler ([r]) or by a
    statement that ran before it in this flush: [connectSpeakerPipeline]
    assigns [speakerPipecat]. *)
Definition update (r : Rerun) (c : Client) : Client :=
  let c1 := if reset_mode_runs r then react_reset_mode c else c in
  let mode_assigned :=
    negb (bool_decide (speakerMode (speaker c1) = speakerMode (speaker c))) in
  let c2 := if connect_runs r || mode_assigned then react_connect c1 else c1 in
  let pipecat_assigned :=
    negb (bool_decide (speakerPipecat (speaker c2)
                       = speakerPipecat (speaker c1))) in
  if disconnect_runs r || mode_assigned || pipecat_assigned
  then react_disconnect c2 else c2.

(** What the flush after a handler run from [c] to [c'] reruns at the
    least: each statement that reads a variable whose value differs.  (It
    reruns more if a variable was assigned twice and has its old value
    again.) *)
Definition due (c c' : Client) (r : Rerun) : Prop :=
  (isSpeaker (stores c') ≠ isSpeaker (stores c) →
   reset_mode_runs r = true ∧ connect_runs r = true
   ∧ disconnect_runs r = true)
  ∧ (classroomState (stores c') ≠ classroomState (stores c) →
     connect_runs r = true)
  ∧ (speakerMode (speaker c') ≠ speakerMode (speaker c) →
     connect_runs r = true ∧ disconnect_runs r = true)
  ∧ (speakerPipecat (speaker c') ≠ speakerPipecat (speaker c) →
     connect_runs r = true ∧ disconnect_runs r = true).

(** ** JavaScript string methods the URL builders use

    Strings are sequences of bytes; the patterns the code searches for
    are ASCII, for which a search over bytes finds what the search over
    UTF-16 code units finds. *)

Module Str.

(** [s.startsWith(p)] *)
Fixpoint startsWith (p s : string) : bool :=
  match p, s with
  | EmptyString, _ => true
  | String a p, String b s => Ascii.eqb a b && startsWith p s
  | String _ _, EmptyString => false
  end.

(** [s.slice(n)] *)
Fixpoint slice (n : nat) (s : string) : string :=
  match n, s with
  | S n, String _ s => slice n s
  | _, _ => s
  end.

(** [s.includes(sub)] *)
Fixpoint includes (sub s : string) : bool :=
  startsWith sub s
  || match s with
     | String _ s => includes sub s
     | EmptyString => false
     end.

(** [s.endsWith(suf)] *)
Fixpoint endsWith (suf s : string) : bool :=
  String.eqb suf s
  || match s with
     | String _ s => endsWith suf s
     | EmptyString => false
     end.

(** [s.replace(pat, rep)] for a string [pat] and a replacement without
    [$]: the first occurrence is replaced. *)
Fixpoint replace (pat rep s : string) : string :=
  if startsWith pat s then rep +:+ slice (String.length pat) s
  else match s with
       | String a s => String a (replace pat rep s)
       | EmptyString => EmptyString
       end.

(** The character occurs in the string. *)
Fixpoint has_char (x : ascii) (s : string) : bool :=
  match s with
  | EmptyString => false
  | String a s => Ascii.eqb a x || has_char x s
  end.

End Str.

(** ** The URL builders *)

(** [getClassroomWsUrl] of [lib/apis/classroom] with its base URL;
    [baseUrl.replace(/^http/, 'ws')] rewrites a leading [http]. *)
Definition wsBase (baseUrl : string) : string :=
  if Str.startsWith "http" baseUrl then "ws" +:+ Str.slice 4 baseUrl
  else baseUrl.

Definition roomWsUrl (baseUrl roomId : string) : string :=
  wsBase baseUrl +:+ getClassroomWsUrl roomId.

(** [PipecatClient.connect]: the URL of the voice socket. *)
Definition wsUrl (url : string) : string :=
  let wsUrl :=
    if Str.startsWith "http://" url then Str.replace "http://" "ws://" url
    else if Str.startsWith "https://" url
         then Str.replace "https://" "wss://" url
    else url in
  if Str.endsWith "/ws" wsUrl then wsUrl else wsUrl +:+ "/ws".

(** [PipecatClient.connect]: the URL of the pre-flight check. *)
Definition healthUrl (wsUrl : string) : string :=
  Str.replace "/ws" "/health"
    (Str.replace "ws://" "http://" (Str.replace "wss://" "https://" wsUrl)).

(** [http://] or [https://] *)
Definition scheme (secure : bool) : string :=
  if secure then "https://" else "http://".

(** ** The socket interception of the voice bridge
    ([PipecatClient.setupWebSocketInterception])

    The constructor of [PipecatClient] replaces [window.WebSocket] once
    and keeps its bookkeeping in globals of [window]. *)

Module Patch.

(** The [config] message: [{ type: "config", token?, room_id?,
    speaker_id? }]. *)
Record ConfigMsg := {
  cfg_token : option string;
  cfg_room : option (string * string)   (* [room_id] and [speaker_id] *)
}.

(** A socket: [hooked] when the replaced constructor made it, [listened]
    when the text listener is attached to it. *)
Record Socket := {
  url : string;
  hooked : bool;
  listened : bool;
  opened : bool;
  sent : list ConfigMsg
}.

Record Window := {
  wsIntercepted : bool;                     (* __pipecatWsIntercepted *)
  configSent : bool;                        (* __pipecatConfigSent *)
  textListenerAttached : bool;              (* __pipecatTextListenerAttached *)
  activeClient : option nat;                (* __pipecatActiveClient *)
  clients : list (option (string * string)); (* their [classroomConfig] *)
  sockets : list Socket;
  token : option string                     (* localStorage token *)
}.

Definition initial (token : option string) : Window :=
  {| wsIntercepted := false; configSent := false;
     textListenerAttached := false; activeClient := None;
     clients := []; sockets := []; token := token |}.

(** [new PipecatClient()]: [setupWebSocketInterception]. *)
Definition construct (w : Window) : Window :=
  {| wsIntercepted := true; configSent := false;
     textListenerAttached := false;
     activeClient := Some (length (clients w));
     clients := clients w ++ [None]; sockets := sockets w;
     token := token w |}.

(** [client.classroomConfig = cfg] *)
Definition set_classroomConfig (h : nat) (cfg : option (string * string))
  (w : Window) : Window :=
  {| wsIntercepted := wsIntercepted w; configSent := configSent w;
     textListenerAttached := textListenerAttached w;
     activeClient := activeClient w;
     clients := <[h := cfg]> (clients w); sockets := sockets w;
     token := token w |}.

(** [new WebSocket(url)], through the replacement once it is installed. *)
Definition new_WebSocket (u : string) (w : Window) : Window :=
  let listen :=
    wsIntercepted w && Str.includes "/ws" u
    && negb (textListenerAttached w) in
  {| wsIntercepted := wsIntercepted w; configSent := configSent w;
     textListenerAttached := textListenerAttached w || listen;
     activeClient := activeClient w; clients := clients w;
     sockets := sockets w
                ++ [ {| url := u; hooked := wsIntercepted w;
                        listened := listen; opened := false; sent := [] |} ];
     token := token w |}.

(** The message the [open] listener builds. *)
Definition configMsg (w : Window) : ConfigMsg :=
  {| cfg_token := Js.or_opt (token w) None;
     cfg_room := h ← activeClient w; mjoin (clients w !! h) |}.

(** The [open] event of socket [h]; a socket opens once. *)
Definition ws_open (h : nat) (w : Window) : Window :=
  match sockets w !! h with
  | Some s =>
      if opened s then w
      else
        let send :=
          hooked s && negb (configSent w) && Str.includes "/ws" (url s) in
        let s' := {| url := url s; hooked := hooked s;
                     listened := listened s; opened := true;
                     sent := if send then sent s ++ [configMsg w]
                             else sent s |} in
        {| wsIntercepted := wsIntercepted w;
           configSent := configSent w || send;
           textListenerAttached := textListenerAttached w;
           activeClient := activeClient w; clients := clients w;
           sockets := <[h := s']> (sockets w); token := token w |}
  | None => w
  end.

Inductive Event :=
| ev_construct
| ev_set_classroomConfig (h : nat) (cfg : option (string * string))
| ev_new_WebSocket (u : string)
| ev_open (h : nat).

Definition step (e : Event) (w : Window) : Window :=
  match e with
  | ev_construct => construct w
  | ev_set_classroomConfig h cfg => set_classroomConfig h cfg w
  | ev_new_WebSocket u => new_WebSocket u w
  | ev_open h => ws_open h w
  end.

Definition run (evs : list Event) (w : Window) : Window :=
  foldl (λ w e, step e w) w evs.

(** The [config] messages sent so far, and the sockets that listen. *)
Definition configs (w : Window) : list ConfigMsg :=
  sockets w ≫= sent.
Definition listeners (w : Window) : list Socket :=
  filter (λ s, listened s = true) (sockets w).

(** The [PipecatClient]s constructed by a run. *)
Definition is_construct (e : Event) : bool :=
  match e with ev_construct => true | _ => false end.
Definition constructions (evs : list Event) : nat :=
  length (filter (λ e, is_construct e = true) evs).

(** What the interception did to a socket is in order: it got one
    [config] at most, and it got one or listens only if the replaced
    constructor made it for a URL with [/ws]. *)
Definition in_order (s : Socket) : Prop :=
  (length (sent s) ≤ 1)%nat
  ∧ (sent s ≠ [] ∨ listened s = true →
     hooked s = true ∧ Str.includes "/ws" (url s) = true).

(** What a run keeps, with [n] clients constructed. *)
Definition kept (n : nat) (w : Window) : Prop :=
  Forall in_order (sockets w)
  ∧ Forall (λ s, (hooked s = true → wsIntercepted w = true)
                 ∧ (opened s = false → sent s = [])) (sockets w)
  ∧ (wsIntercepted w = false →
     n = 0%nat ∧ configSent w = false ∧ textListenerAttached w = false)
  ∧ (length (configs w) + (if configSent w then 0 else 1)
     ≤ n + (if wsIntercepted w then 0 else 1))%nat
  ∧ (length (listeners w) + (if textListenerAttached w then 0 else 1)
     ≤ n + (if wsIntercepted w then 0 else 1))%nat.

End Patch.

(** ** Subscribers of the stores ([svelte/store])

    [isSpeaker] is a [derived] store.  It holds the value its function
    gave last, and recomputes it in a callback that it subscribes to
    [classroomRoom] and to [classroomSelf] when it gets its first
    subscriber (the controller reads [$isSpeaker], so it has one while the
    controller is mounted).  A write that changes a store's value calls
    the store's subscribers one after the other, in the order they
    subscribed; [get(isSpeaker)] returns the value held. *)

(** A subscriber of [classroomRoom] or [classroomSelf]: the callback of
    the derived store ([sync]), or a reader, which calls [get(isSpeaker)]
    and keeps what it gets. *)
Inductive Subscriber := derived_sync | reader.

Global Instance Subscriber_eq_dec : EqDecision Subscriber.
Proof. solve_decision. Defined.

(** The client, the value [isSpeaker] holds, and what the readers got so
    far, each with the stores as they were when it was read. *)
Record Watched := {
  w_client : Client;
  w_isSpeaker : bool;
  w_seen : list (Stores * bool)
}.

(** One subscriber is called. *)
Definition call (w : Watched) (s : Subscriber) : Watched :=
  match s with
  | derived_sync =>
      {| w_client := w_client w;
         w_isSpeaker := isSpeaker (stores (w_client w));
         w_seen := w_seen w |}
  | reader =>
      {| w_client := w_client w; w_isSpeaker := w_isSpeaker w;
         w_seen := w_seen w ++ [(stores (w_client w), w_isSpeaker w)] |}
  end.

(** [store.update(f)] on a store that holds a record or [null]: the new
    value is stored, then the subscribers are called, unless the old and
    the new value are both [null] ([safe_not_equal] takes two records for
    different, whatever they hold). *)
Definition notify {A} (old new : option A) (subs : list Subscriber)
  (w : Watched) : Watched :=
  if bool_decide (is_Some old ∨ is_Some new) then foldl call w subs else w.

Definition watched_with_client (c : Client) (w : Watched) : Watched :=
  {| w_client := c; w_isSpeaker := w_isSpeaker w; w_seen := w_seen w |}.

Definition room_update (subs : list Subscriber)
  (f : option ClassroomRoom → option ClassroomRoom) (w : Watched)
  : Watched :=
  let old := classroomRoom (stores (w_client w)) in
  notify old (f old) subs
    (watched_with_client (classroomRoom_update f (w_client w)) w).

Definition self_update (subs : list Subscriber)
  (f : option Self → option Self) (w : Watched) : Watched :=
  let old := classroomSelf (stores (w_client w)) in
  notify old (f old) subs
    (watched_with_client (classroomSelf_update f (w_client w)) w).

(** The [token_changed] case of [handleWsMessage] with the subscribers of
    the two stores it writes. *)
Definition token_changed_watched (roomSubs selfSubs : list Subscriber)
  (sid sname : option string) (w : Watched) : Watched :=
  let w := room_update roomSubs (fmap (room_with_speaker sid sname)) w in
  self_update selfSubs
    (fmap (λ s, self_with_is_speaker
                  (Js.seq (Some (self_user_id s)) sid) s)) w.

(** ** Vocabulary of the properties *)

(** The message log of a client. *)
Definition log (c : Client) : list ClassroomMessage :=
  classroomMessages (stores c).


(** What a reader got agrees with the stores as they were when it read:
    [isSpeaker] was true exactly when they named the local user as the
    speaker. *)
Definition consistent (o : Stores * bool) : Prop := o.2 = isSpeaker o.1.

(** The room names the self record's user as its speaker. *)
Definition speaker_is_self (s : Stores) : Prop :=
  ∃ room self, classroomRoom s = Some room ∧ classroomSelf s = Some self
               ∧ speaker_id room = Some (self_user_id self).

(** *** Hand raises *)

(** The two hand events of the floor-control protocol. *)
Inductive HandEvent :=
| he_raised (raise : HandRaise)
| he_lowered (uid : string).

Definition hand_frame (e : HandEvent) : WsData :=
  match e with
  | he_raised raise => hand_raised raise
  | he_lowered uid => hand_lowered uid
  end.

Definition hands (now : Z) (evs : list HandEvent) (c : Client) : Client :=
  foldl (λ c e, handleWsMessage now (hand_frame e) c) c evs.

Definition room_raises (c : Client) : list HandRaise :=
  from_option raises_of [] (classroomRoom (stores c)).

(** The pending hand-raise records of user [uid] held in the room state. *)
Definition pending_of (uid : string) (c : Client) : list HandRaise :=
  filter (λ hr, hr_user_id hr = uid ∧ hr_status hr = pending)
    (room_raises c).

Definition one_pending_per_user (c : Client) : Prop :=
  ∀ uid, (length (pending_of uid c) ≤ 1)%nat.

(** A raise arrives in turn when its id is already listed or its user has
    no pending record: each raise of a user follows that user's lower. *)
Definition raise_in_turn (c : Client) (e : HandEvent) : Prop :=
  match e with
  | he_raised raise =>
      Exists (λ hr, hr_id hr = hr_id raise) (room_raises c)
      ∨ pending_of (hr_user_id raise) c = []
  | he_lowered _ => True
  end.

Fixpoint in_turn (now : Z) (evs : list HandEvent) (c : Client) : Prop :=
  match evs with
  | [] => True
  | e :: evs =>
      raise_in_turn c e
      ∧ in_turn now evs (handleWsMessage now (hand_frame e) c)
  end.

(** What the socket held by [classroomWs] has sent so far. *)
Definition sent (c : Client) : list OutMsg :=
  match classroomWs (stores c) with
  | Some h => from_option ws_sent [] (sockets (browser c) !! h)
  | None => []
  end.

(** *** Streaming *)


(** The text the fragments spell, in arrival order. *)
Definition spelled (frags : list (Z * option string)) : string :=
  foldr (λ f acc, Js.or_str f.2 "" +:+ acc) "" frags.

(** The log without the entry a stream in progress is writing to. *)
Definition settled (msgs : list ClassroomMessage) : list ClassroomMessage :=
  match streaming_tail msgs with
  | Some _ => but_last msgs
  | None => msgs
  end.


(** *** How one handler run changes the message log *)

Inductive LogChange :=
| lc_same | lc_add | lc_bot_text | lc_complete | lc_response | lc_react
| lc_replace.

Inductive log_step (l : list ClassroomMessage)
  : LogChange → list ClassroomMessage → Prop :=
| ls_same : log_step l lc_same l
| ls_add m :
    msg_streaming m = None → log_step l lc_add (l ++ [m])
| ls_bot_text now t : log_step l lc_bot_text (on_bot_text now t l)
| ls_complete now t i :
    log_step l lc_complete (on_bot_text_complete now t i l)
| ls_response now t tr :
    log_step l lc_response (on_bot_response now t tr l)
| ls_react mid emoji delta :
    log_step l lc_react (react_to mid emoji delta <$> l)
| ls_replace l' :
    Forall (λ m, msg_streaming m = None) l' → log_step l lc_replace l'.

(** Actions that replace the whole log: a [joined] frame hydrates it, a
    [kicked] frame, leaving and unmounting clear it. *)
Definition replaces_log (a : Action) : bool :=
  match a with
  | a_leave | a_destroy => true
  | a_ws_frame _ (frame_json (joined _ _ _)) => true
  | a_ws_frame _ (frame_json (kicked _)) => true
  | _ => false
  end.

Definition is_bot_text (a : Action) : bool :=
  match a with
  | a_ws_frame _ (frame_json (bot_text _)) => true
  | _ => false
  end.

(** Actions that go through [addClassroomMessage]: a [transcription]
    frame, a message typed or picked by the speaker, a teacher action, a
    turn or transcript reported by the voice bridge. *)
Definition adds_message (a : Action) : bool :=
  match a with
  | a_ws_frame _ (frame_json (transcription _ _ _)) => true
  | a_send_message _ | a_select_topic _ | a_teacher_action _ _ => true
  | a_bridge (b_bot_text_complete _ _) => true
  | a_bridge (b_user_transcript _ _ _) => true
  | _ => false
  end.

(** *** The streaming tail *)

Definition unflagged (m : ClassroomMessage) : Prop :=
  Js.flag (msg_streaming m) = false.

(** At most one entry has the streaming flag set, and it is the tail:
    every entry before the last one is unflagged. *)
Definition tail_only (l : list ClassroomMessage) : Prop :=
  Forall unflagged (but_last l).

(** Only assistant entries carry the streaming flag. *)
Definition flags_on_assistant (l : list ClassroomMessage) : Prop :=
  Forall (λ m, Js.flag (msg_streaming m) = true → msg_role m = assistant) l.

(** A run is orderly when nothing goes through [addClassroomMessage] while
    the tail of the log is being streamed. *)
Fixpoint orderly (evs : list (Z * Action)) (c : Client) : Prop :=
  match evs with
  | [] => True
  | e :: evs =>
      (adds_message e.2 = true → streaming_tail (log c) = None)
      ∧ orderly evs (step e.1 e.2 c)
  end.

(** Entry [i] of the log is out of a stream's reach: it is not a streaming
    assistant entry, or it is not the last entry. *)
Definition out_of_reach (l : list ClassroomMessage) (i : nat)
  (m : ClassroomMessage) : Prop :=
  l !! i = Some m
  ∧ (is_streaming_assistant m = false ∨ (S i < length l)%nat).

(** *** Listener playback *)

(** The conversion at the head of [queueAudioChunk]. *)
Definition decode_chunk (rawBytes : list Byte.byte) : option (list Q) :=
  (λ int16 : list Z, to_float32 <$> int16) <$> Int16Array rawBytes.

(** What decides whether audio is queued. *)
Definition mode_view (c : Client) : PlaybackMode * option PlaybackMode :=
  (userMode (prefs c), stored_mode (browser c)).

(** The state of the playback pipeline: the queue, the [Blob] frames
    whose conversion is pending, and the chunks played so far. *)
Definition pipeline (c : Client)
  : list (list Q) * list (list Byte.byte) * list (list Q) :=
  (audioQueue (audio c), blobs (browser c), started (browser c)).

(** The moves of the pipeline while no frame is accepted: the queue is
    flushed, its head is played, a pending conversion settles. *)
Inductive feed
  : list (list Q) * list (list Byte.byte) * list (list Q) →
    list (list Q) * list (list Byte.byte) * list (list Q) → Prop :=
| feed_flush q b s : feed (q, b, s) ([], b, s)
| feed_play ch q b s : feed (ch :: q, b, s) (q, b, s ++ [ch])
| feed_blob q b s i bytes :
    b !! i = Some bytes →
    feed (q, b, s)
      (q ++ option_list (decode_chunk bytes), delete i b, s).

(** A handler run that leaves the playback preference and the pipeline alone. *)
Definition unchanged (c c' : Client) : Prop :=
  mode_view c' = mode_view c ∧ pipeline c' = pipeline c.

(** A handler run that keeps the preference and moves the pipeline by
    [feed] steps only. *)
Definition fed (c c' : Client) : Prop :=
  mode_view c' = mode_view c ∧ rtc feed (pipeline c) (pipeline c').

(** The playback preference is text-only, in the component and in
    [localStorage]. *)
Definition muted (c : Client) : Prop :=
  mode_view c = (text_only, Some text_only).

(** Everything queued, and everything played beyond [played], is a chunk
    of [pool]; every pending conversion yields a chunk of [pool]. *)
Definition fed_from (pool played : list (list Q))
  (p : list (list Q) * list (list Byte.byte) * list (list Q)) : Prop :=
  Forall (λ ch, ch ∈ pool) p.1.1
  ∧ Forall (λ bytes, ∀ ch, decode_chunk bytes = Some ch → ch ∈ pool) p.1.2
  ∧ ∃ news, p.2 = played ++ news ∧ Forall (λ ch, ch ∈ pool) news.

(** Actions that leave the playback preference on text-only: all but a
    switch back to audio by the user or by the server. *)
Definition keeps_text_only (a : Action) : bool :=
  match a with
  | a_set_playback_mode text_and_audio => false
  | a_ws_frame _ (frame_json (mode_changed text_and_audio)) => false
  | a_ws_frame _ (frame_json (joined _ you _)) =>
      bool_decide (self_mode you = text_only)
  | _ => true
  end.

(** *** REST responses *)

(** Wrappers whose success value is the parsed body ([return res.json()]). *)
Definition returns_body (w : Rest.Wrapper) : bool :=
  match w with
  | Rest.w_listRooms | Rest.w_listTeacherRoleRequests | Rest.w_listSessions
  | Rest.w_getCurriculumTopics | Rest.w_searchCurriculumConcepts
  | Rest.w_deleteRoom => false
  | _ => true
  end.

(** A wrapper reports the backend's [detail]: a non-ok response whose
    JSON body has a non-empty string [detail] makes the call fail with
    that text. *)
Definition reports_detail (w : Rest.Wrapper) : Prop :=
  ∀ res fields d,
    Rest.ok res = false →
    Rest.body res = Some (Rest.JObj fields) →
    Rest.field "detail" fields = Some (Rest.JStr d) → d ≠ "" →
    Rest.call w res = Rest.Rejected (Rest.Error_of (Rest.JStr d)).

(** [err.detail] on a parsed body that is not [null]: a field of an
    object, [undefined] on anything else. *)
Definition detail_of (j : Rest.Json) : option Rest.Json :=
  match j with
  | Rest.JObj fields => Rest.field "detail" fields
  | _ => None
  end.

(** A wrapper falls back to its generic message when the body of a
    non-ok response is not JSON. *)
Definition falls_back_without_json (w : Rest.Wrapper) (generic : string)
  : Prop :=
  ∀ res, Rest.ok res = false → Rest.body res = None →
         Rest.call w res = Rest.Rejected (Rest.Error_of (Rest.JStr generic)).

(** *** Samples *)

(** A rational that a 32-bit float holds exactly: [m * 2^e] with a 24-bit
    significand and an exponent in range. *)
Definition binary32 (q : Q) : Prop :=
  ∃ m e : Z, Z.abs m < 2 ^ 24 ∧ -149 ≤ e ≤ 104
             ∧ (q == inject_Z m * Qpower 2 e)%Q.

(** ** Sample data for the concrete runs *)

Module Sample.

Definition room : ClassroomRoom :=
  {| room_id := "r1"; room_name := "Algebra"; created_at := 0;
     user_count := 1; users := []; speaker_id := None;
     speaker_name := None; token_queue := []; hand_raises := Some [];
     active_session_id := None; topic := None; teacher_id := None;
     current_lesson_topic := None; room_type := teacher_driven;
     curriculum_chapter_id := None; curriculum_section_id := None |}.

Definition ann : Self :=
  {| self_user_id := "u1"; self_name := "Ann"; self_language := "en";
     self_mode := text_and_audio; self_is_speaker := false |}.

Definition raise (i uid : string) : HandRaise :=
  {| hr_id := i; hr_user_id := uid; hr_user_name := "Bob";
     hr_question_preview := Js.absent; hr_status := pending;
     hr_raised_at := 5; hr_resolved_at := Js.absent |}.

Definition mounted : Client := initial "Ann" "u1" running None None.

(** Ann joins room r1 over socket 0 and the server acknowledges. *)
Definition joining_r1 : list (Z * Action) :=
  [(1, a_join "r1"); (2, a_ws_open 0%nat);
   (3, a_ws_frame 0%nat (frame_json (joined room ann None)))].

Definition in_room : Client := run joining_r1 mounted.

(** Two raises of user u2 with distinct ids, no lower in between. *)
Definition two_raises : list (Z * Action) :=
  [(4, a_ws_frame 0%nat (frame_json (hand_raised (raise "h1" "u2"))));
   (5, a_ws_frame 0%nat (frame_json (hand_raised (raise "h2" "u2"))))].


(** Ann holds the token and talks: the voice bridge is attached and has
    relayed one fragment of the bot's answer. *)
Definition talking : Client :=
  run [(4, a_ws_frame 0%nat
             (frame_json (token_changed (Some "u1") (Some "Ann"))));
       (5, a_toggle_mode voice);
       (6, a_bridge (b_bot_text (Some "Hel")))] in_room.



(** A transcription lands between two fragments of a stream. *)
Definition interleaved : list (Z * Action) :=
  [(4, a_ws_frame 0%nat (frame_json (bot_text (Some "Hel"))));
   (5, a_ws_frame 0%nat
         (frame_json (transcription "hi" None (Some "Bob"))));
   (6, a_ws_frame 0%nat (frame_json (bot_text (Some "lo"))))].

(** The same frames with the stream completed first. *)
Definition in_order : list (Z * Action) :=
  [(4, a_ws_frame 0%nat (frame_json (bot_text (Some "Hel"))));
   (5, a_ws_frame 0%nat (frame_json (bot_text (Some "lo"))));
   (6, a_ws_frame 0%nat (frame_json (bot_text_complete None false)));
   (7, a_ws_frame 0%nat
         (frame_json (transcription "hi" None (Some "Bob"))))].

(** Ann listens with audio on: the first chunk plays, the second one
    waits in the queue. *)
Definition listening : Client :=
  run [(4, a_ws_frame 0%nat (frame_buffer [Byte.x00; Byte.x40]));
       (5, a_ws_frame 0%nat (frame_buffer [Byte.x00; Byte.xc0]))] in_room.

(** What can follow the switch to text-only: more audio frames, the end
    of the chunk that was playing. *)
Definition after_switch : list (Z * Action) :=
  [(7, a_ws_frame 0%nat (frame_buffer [Byte.x01; Byte.x02]));
   (8, a_source_ended);
   (9, a_ws_frame 0%nat (frame_blob [Byte.x03; Byte.x04]))].

(** After the switch to text-only the server's answer to an earlier
    switch to audio arrives, then an audio frame. *)
Definition stale_echo : list (Z * Action) :=
  [(7, a_ws_frame 0%nat (frame_json (mode_changed text_and_audio)));
   (8, a_ws_frame 0%nat (frame_buffer [Byte.x01; Byte.x02]))].

(** Audio arrives as a [Blob], the user switches to text-only, then the
    conversion of the [Blob] settles. *)
Definition blob_before_switch : list (Z * Action) :=
  [(4, a_ws_frame 0%nat (frame_blob [Byte.x03; Byte.x04]));
   (6, a_set_playback_mode text_only);
   (7, a_blob_ready 0%nat)].

(** The connection is lost, Ann joins again, then leaves. *)
Definition rejoin_then_leave : list (Z * Action) :=
  joining_r1
  ++ [(10, a_ws_close 0%nat);
      (20, a_join "r1"); (21, a_ws_open 1%nat);
      (22, a_ws_frame 1%nat (frame_json (joined room ann None)));
      (30, a_leave)].

(** Ann leaves while a poll request is in flight; it resolves later. *)
Definition leave_during_poll : list (Z * Action) :=
  joining_r1
  ++ [(3003, a_timer 1%nat); (3500, a_leave);
      (3900, a_settled 0%nat (Some room))].

(** Two ticks of the room poll, the first request still in flight. *)
Definition two_ticks : list (Z * Action) :=
  [(3003, a_timer 1%nat); (6003, a_timer 1%nat)].

(** Two ticks of the lobby poll, the first refresh still in flight. *)
Definition two_lobby_ticks : list (Z * Action) :=
  [(0, a_start_lobby_polling); (1000, a_timer 1%nat);
   (2000, a_timer 1%nat)].

(** A rejection as the backend words it. *)
Definition room_full : Rest.Response :=
  {| Rest.ok := false; Rest.statusText := "Conflict";
     Rest.body := Some (Rest.JObj [("detail", Rest.JStr "Room is full")]) |}.

(** A proxy error page: not JSON. *)
Definition bad_gateway : Rest.Response :=
  {| Rest.ok := false; Rest.statusText := "Bad Gateway";
     Rest.body := None |}.

(** Two samples: the most negative one and the most positive one. *)
Definition pcm : list Byte.byte :=
  [Byte.x00; Byte.x80; Byte.xff; Byte.x7f].

Definition liked : ClassroomMessage :=
  {| msg_id := "m1"; msg_role := assistant; msg_speaker_name := Some "Mira";
     msg_content := "Hello"; msg_translated := Some false; msg_timestamp := 3;
     msg_streaming := None;
     msg_reaction_counts := Some {[ "+1" := Js.num 2 ]};
     msg_db_message_id := Some "m1"; msg_interrupted := None |}.

Definition bob : ClassroomUser :=
  {| u_user_id := "u2"; u_name := "Bob"; u_language := "hi";
     u_mode := text_only; u_is_speaker := false; u_is_teacher := None |}.

(** Ann alone in a room whose count says so. *)
Definition alone : Client :=
  classroomRoom_set
    (Some (room_with_users [] 0 room)) in_room.
End Sample.

(** ** Vocabulary of the further properties *)

(** *** Reactions *)

(** [m.reaction_counts || {}] *)
Definition counts_of (m : ClassroomMessage) : gmap string Js.Num :=
  default ∅ (msg_reaction_counts m).

(** Every emoji listed for the message has a number above zero as its
    count. *)
Definition counts_positive (m : ClassroomMessage) : Prop :=
  map_Forall (λ _ v, ∃ n, v = Js.num n ∧ 0 < n) (counts_of m).

(** No emoji is listed for the message with a count of zero or less:
    each count is a number above zero, or [NaN]. *)
Definition no_count_below_one (m : ClassroomMessage) : Prop :=
  map_Forall (λ _ v, match v with Js.num n => 0 < n | Js.NaN => True end)
    (counts_of m).

(** [m.id === messageId || m.db_message_id === messageId] *)
Definition reaction_target (messageId : string) (m : ClassroomMessage) : bool :=
  bool_decide (msg_id m = messageId)
  || bool_decide (msg_db_message_id m = Some messageId).

(** The message with its reaction map written out: a missing map becomes
    the empty one. *)
Definition with_counts_written (m : ClassroomMessage) : ClassroomMessage :=
  msg_with_reactions (counts_of m) m.

(** *** Room membership *)

(** The two membership frames. *)
Inductive MemberEvent :=
| me_joined (u : ClassroomUser)
| me_left (uid : string).

Definition member_frame (e : MemberEvent) : WsData :=
  match e with
  | me_joined u => user_joined u
  | me_left uid => user_left uid
  end.

Definition members (now : Z) (evs : list MemberEvent) (c : Client) : Client :=
  foldl (λ c e, handleWsMessage now (member_frame e) c) c evs.

(** The ids of the users listed in the room record. *)
Definition room_user_ids (c : Client) : list string :=
  u_user_id <$> from_option users [] (classroomRoom (stores c)).

(** [user_count] agrees with the list it counts. *)
Definition count_matches (c : Client) : Prop :=
  ∀ r, classroomRoom (stores c) = Some r →
       user_count r = Z.of_nat (length (users r)).

(** A [user_left] frame arrives in turn when it names a listed user. *)
Fixpoint leaves_in_turn (now : Z) (evs : list MemberEvent) (c : Client)
  : Prop :=
  match evs with
  | [] => True
  | e :: evs =>
      match e with
      | me_left uid => uid ∈ room_user_ids c
      | me_joined _ => True
      end
      ∧ leaves_in_turn now evs (handleWsMessage now (member_frame e) c)
  end.

(** *** Hand raises that are resolved, playback modes *)

(** The frame that resolves a raise: [hand_acknowledged] or
    [hand_dismissed]. *)
Definition resolved_frame (dismiss : bool) (raise : HandRaise) : WsData :=
  if dismiss then hand_dismissed raise else hand_acknowledged raise.


(** *** A turn on the voice bridge *)

(** [bot_text] messages seen by the interception, one after the other. *)
Definition voice_fragments (frags : list (Z * option string)) (b : Client)
  : Client :=
  foldl (λ b f, bridge_message f.1 (b_bot_text f.2) b) b frags.

(** The bridge client the interception routes to, with the controller's
    subscriptions attached to it. *)
Definition routed_to (h : nat) (p : PipecatClient) (b : Client) : Prop :=
  activeClient (browser b) = Some h
  ∧ bridges (browser b) !! h = Some p
  ∧ pc_subscribed p = true.

(** What the controller takes for the text of the turn when the bridge
    signals its end: the final text, else the fragments, else what
    [speakerBotText] held before. *)
Definition turn_text (final : option string)
  (frags : list (Z * option string)) (before : string) : string :=
  Js.or_str final (Js.or_str (Some (spelled frags)) before).

(** *** The voice pipeline *)

(** A voice pipeline is held only by the speaker in voice mode. *)
Definition pipeline_for_speaker (c : Client) : Prop :=
  is_Some (speakerPipecat (speaker c)) →
  isSpeaker (stores c) = true ∧ speakerMode (speaker c) = voice.

Definition held (c : Client) : option nat := speakerPipecat (speaker c).

(** The pipeline held is [k], or none is held. *)
Definition kept_or_dropped (k : option nat) (c : Client) : Prop :=
  held c = k ∨ held c = None.

(** *** The lobby poll *)

Definition is_lobby_refresh (r : Request) : bool :=
  match r with req_lobby_refresh => true | _ => false end.

(** The refreshes of the lobby poll that are in flight. *)
Definition lobby_refreshes (c : Client) : list Request :=
  filter (λ r, is_lobby_refresh r = true) (requests (browser c)).

(** What the lobby poll's guard looks at, with the requests in flight. *)
Definition poll_view (c : Client) : list Request * bool * bool :=
  (requests (browser c), roomListPollInFlight (polling c),
   teacherStatusPollInFlight (polling c)).

(** The in-flight flags are set exactly while one refresh is in flight. *)
Definition flags_track_refresh (c : Client) : Prop :=
  roomListPollInFlight (polling c) = teacherStatusPollInFlight (polling c)
  ∧ length (lobby_refreshes c)
    = if roomListPollInFlight (polling c) then 1%nat else 0%nat.

(** *** The audio contexts *)

(** The handles of the contexts that were created and are not closed. *)
Definition live_contexts (c : Client) : list nat :=
  filter (λ h, ctx_state_of h c ≠ closed)
    (seq 0 (length (contexts (browser c)))).

(** Every context that is not closed is the one [audioContext] holds. *)
Definition one_live (c : Client) : Prop :=
  ∀ h s, contexts (browser c) !! h = Some s → s ≠ closed →
         audioContext (audio c) = Some h.

Definition ctx_view (c : Client) : option nat * list CtxState :=
  (audioContext (audio c), contexts (browser c)).

(** *** Message ids *)

(** The counter never goes back. *)
Definition counter (c : Client) : nat := msgCounter (stores c).

(** *** The stored playback mode *)

(** What [localStorage] holds is the component's mode; while nothing is
    stored the mode is the one the component starts with. *)
Definition mode_is_stored (c : Client) : Prop :=
  userMode (prefs c) = default text_only (stored_mode (browser c)).

(** The page is loaded again with the storage [c] leaves behind. *)
Definition reload (name uid : string) (policy : CtxState)
  (token : option string) (c : Client) : Client :=
  loadStoredUserMode (initial name uid policy token (stored_mode (browser c))).

(** *** What the controller sends on a socket *)

Definition is_join (o : OutMsg) : bool :=
  match o with out_join _ _ _ _ _ => true | _ => false end.

(** What was sent on a socket is in order: nothing unless the socket has
    opened, and then a [join] frame first and no other [join]. *)
Definition join_first (w : WebSocket) : Prop :=
  match ws_sent w with
  | [] => readyState w ≠ OPEN
  | o :: rest =>
      is_join o = true ∧ Forall (λ o, is_join o = false) rest
      ∧ readyState w ≠ CONNECTING
  end.

Definition joins_first (c : Client) : Prop :=
  Forall join_first (sockets (browser c)).

(** *** Frames *)

(** [c] with the state of the playback queue overwritten: the three
    variables of the component, the contexts, the pending [resume()]
    promises and the chunks started. *)
Definition playback_with (a : Audio) (ctxs : list CtxState)
  (rs : list (nat * bool)) (st : list Float32Array) (c : Client) : Client :=
  started_set st (resumes_set rs (contexts_set ctxs (upd_audio (λ _, a) c))).

(** * Proofs *)

(** ** JavaScript helpers *)

Lemma or_str_truthy o d : Js.truthy o = true → Js.or_str o d = default d o.
Proof. unfold Js.or_str. by intros ->. Qed.

Lemma or_str_falsy o d : Js.truthy o = false → Js.or_str o d = d.
Proof. unfold Js.or_str. by intros ->. Qed.

Lemma truthy_Some s : Js.truthy (Some s) = true ↔ s ≠ "".
Proof.
  unfold Js.truthy. rewrite negb_true_iff.
  destruct (String.eqb_spec s ""); naive_solver.
Qed.

Lemma seq_true a b : Js.seq a b = true ↔ a = b.
Proof. unfold Js.seq. apply bool_decide_eq_true. Qed.

(** ** The derived [isSpeaker] *)

Lemma isSpeaker_spec (s : Stores) : isSpeaker s = true ↔ speaker_is_self s.
Proof.
  unfold isSpeaker, speaker_is_self. split.
  - destruct (classroomRoom s) as [room|], (classroomSelf s) as [self|];
      try discriminate.
    intros H%seq_true. eauto.
  - intros (room & self & -> & -> & H). by apply seq_true.
Qed.

Lemma token_changed_stores (now : Z) (sid sname : option string)
  (c : Client) :
  classroomRoom (stores (handleWsMessage now (token_changed sid sname) c))
  = room_with_speaker sid sname <$> classroomRoom (stores c)
  ∧ self_user_id <$>
      classroomSelf (stores (handleWsMessage now (token_changed sid sname) c))
    = self_user_id <$> classroomSelf (stores c).
Proof.
  cbn. split; [done|]. by destruct (classroomSelf (stores c)).
Qed.

Lemma call_client (subs : list Subscriber) : ∀ w,
  w_client (foldl call w subs) = w_client w.
Proof.
  induction subs as [|[|] subs IH]; intros w; [done|..];
    cbn [foldl]; by rewrite IH.
Qed.

(** Readers that are called one after the other all get the value held. *)
Lemma call_readers (n : nat) : ∀ w,
  foldl call w (replicate n reader)
  = {| w_client := w_client w; w_isSpeaker := w_isSpeaker w;
       w_seen := w_seen w
                 ++ replicate n (stores (w_client w), w_isSpeaker w) |}.
Proof.
  induction n as [|n IH]; intros w.
  - cbn. rewrite app_nil_r. by destruct w.
  - cbn [replicate foldl]. rewrite IH. cbn. by rewrite <- app_assoc.
Qed.

(** Once the value held agrees with the stores, it stays so while
    subscribers are called, and every reader gets it. *)
Lemma call_settled (subs : list Subscriber) : ∀ w,
  w_isSpeaker w = isSpeaker (stores (w_client w)) →
  w_isSpeaker (foldl call w subs) = isSpeaker (stores (w_client w))
  ∧ ∃ news, w_seen (foldl call w subs) = w_seen w ++ news
            ∧ Forall consistent news.
Proof.
  induction subs as [|s subs IH]; intros w Hw.
  - split; [done|]. exists []. by rewrite app_nil_r.
  - cbn [foldl]. destruct s.
    + destruct (IH (call w derived_sync)) as (Hv & news & Hseen & Hall);
        [done|].
      split; [exact Hv|]. by exists news.
    + destruct (IH (call w reader)) as (Hv & news & Hseen & Hall);
        [exact Hw|].
      split; [exact Hv|].
      exists ((stores (w_client w), w_isSpeaker w) :: news).
      split; [by rewrite Hseen; cbn; rewrite <- app_assoc|].
      constructor; [exact Hw|exact Hall].
Qed.

Lemma isSpeaker_self_is_speaker (f : Self → bool) (c : Client) :
  isSpeaker
    (stores (classroomSelf_update (fmap (λ s, self_with_is_speaker (f s) s))
               c))
  = isSpeaker (stores c).
Proof.
  unfold isSpeaker. cbn.
  by destruct (classroomRoom (stores c)), (classroomSelf (stores c)).
Qed.

(** C1, amended.  The function of [isSpeaker] gives true exactly when
    the room's [speaker_id] is the self record's [user_id].  The derived
    store holds what the function gave last.  Let a [token_changed] frame
    be applied while the held value agrees with the stores, with [early]
    readers subscribed to [classroomRoom] before the derived store and any
    subscribers after it.  Then the stores end as [handleWsMessage] leaves
    them, the held value agrees with them again, and it is true exactly
    when the frame names the local user as the speaker.  If there is a
    room, each early reader reads the value from before the frame while
    the room is already updated; whatever any other subscriber reads, of
    [classroomRoom] or of [classroomSelf], agrees with the stores as they
    are when it reads. *)
Theorem isSpeaker_iff_speaker_id (now : Z) (sid sname : option string)
  (early : nat) (late selfSubs : list Subscriber) (w : Watched) :
  w_isSpeaker w = isSpeaker (stores (w_client w)) →
  let c := w_client w in
  let w' := token_changed_watched
              (replicate early reader ++ derived_sync :: late) selfSubs
              sid sname w in
  (∀ s, isSpeaker s = true ↔ speaker_is_self s)
  ∧ w_client w' = handleWsMessage now (token_changed sid sname) c
  ∧ w_isSpeaker w' = isSpeaker (stores (w_client w'))
  ∧ (w_isSpeaker w' = true
     ↔ is_Some (classroomRoom (stores c))
       ∧ sid = self_user_id <$> classroomSelf (stores c)
       ∧ is_Some (classroomSelf (stores c)))
  ∧ ∃ news,
      w_seen w'
      = w_seen w
        ++ (if bool_decide (is_Some (classroomRoom (stores c)))
            then replicate early
                   (stores (token_changed_room sid sname c),
                    isSpeaker (stores c))
            else [])
        ++ news
      ∧ Forall consistent news.
Proof.
  intros Hw c w'.
  assert (w_client w' = handleWsMessage now (token_changed sid sname) c)
    as Hc.
  { subst w'. unfold token_changed_watched, self_update, room_update, notify.
    repeat case_bool_decide; cbn; by rewrite ?call_client. }
  (* the room update *)
  set (c1 := token_changed_room sid sname c).
  set (w1 := room_update (replicate early reader ++ derived_sync :: late)
               (fmap (room_with_speaker sid sname)) w).
  assert (w_client w1 = c1) as Hc1.
  { subst w1. unfold room_update, notify. case_bool_decide; [|done].
    by rewrite call_client. }
  assert (w_isSpeaker w1 = isSpeaker (stores c1)
          ∧ ∃ news1,
              w_seen w1
              = w_seen w
                ++ (if bool_decide (is_Some (classroomRoom (stores c)))
                    then replicate early (stores c1, isSpeaker (stores c))
                    else [])
                ++ news1
              ∧ Forall consistent news1) as (Hv1 & news1 & Hs1 & Ha1).
  { subst w1. unfold room_update, notify.
    assert (is_Some (classroomRoom (stores (w_client w)))
            ∨ is_Some (room_with_speaker sid sname
                       <$> classroomRoom (stores (w_client w)))
            ↔ is_Some (classroomRoom (stores c))) as Hiff.
    { unfold c. rewrite fmap_is_Some. tauto. }
    rewrite (bool_decide_ext _ _ Hiff). case_bool_decide as Hn.
    - rewrite foldl_app, call_readers. cbn [foldl].
      match goal with
      | |- context [foldl call ?w0 late] =>
          destruct (call_settled late w0) as (Hv & news & Hseen & Hall);
            [done|]
      end.
      rewrite Hv, Hseen. cbn. rewrite Hw. split; [done|].
      exists news. by rewrite <- app_assoc.
    - cbn. split.
      + rewrite Hw. unfold c1, token_changed_room, isSpeaker. cbn.
        fold c. destruct (classroomRoom (stores c)) as [r|]; [|done].
        destruct Hn. by eexists.
      + exists []. by rewrite !app_nil_r. }
  (* the self update *)
  assert (isSpeaker (stores (w_client w')) = isSpeaker (stores c1)) as Hsame.
  { rewrite Hc. apply isSpeaker_self_is_speaker. }
  assert (w_isSpeaker w' = isSpeaker (stores (w_client w'))
          ∧ ∃ news2, w_seen w' = w_seen w1 ++ news2
                     ∧ Forall consistent news2) as (Hv2 & news2 & Hs2 & Ha2).
  { rewrite Hsame. subst w'. unfold token_changed_watched. fold w1.
    unfold self_update, notify.
    match goal with
    | |- context [if bool_decide ?P then _ else _] => destruct (bool_decide P)
    end.
    - match goal with
      | |- context [foldl call ?w0 selfSubs] =>
          destruct (call_settled selfSubs w0) as (Hv & news & Hseen & Hall)
      end.
      { cbn. rewrite Hc1, Hv1. symmetry. apply isSpeaker_self_is_speaker. }
      rewrite Hv, Hseen. cbn. rewrite Hc1. split.
      + apply isSpeaker_self_is_speaker.
      + by exists news.
    - cbn. split; [done|]. exists []. by rewrite app_nil_r. }
  split; [apply isSpeaker_spec|]. split; [exact Hc|]. split; [exact Hv2|].
  split.
  - rewrite Hv2, Hc, isSpeaker_spec. unfold speaker_is_self.
    destruct (token_changed_stores now sid sname c) as [Hr Hs].
    rewrite Hr. clear Hr.
    destruct (classroomSelf (stores (handleWsMessage now _ c))) as [s'|] eqn:E;
      destruct (classroomSelf (stores c)) as [s|] eqn:E0; simplify_eq/=.
    + destruct (classroomRoom (stores c)) as [r|]; simpl.
      * split.
        -- intros (room & self & ? & ? & ?). simplify_eq/=.
           repeat split; eauto. congruence.
        -- intros (_ & -> & _). eexists _, _. repeat split; eauto.
           simpl. congruence.
      * split; [by intros (? & ? & ? & _)|]. intros ([? ?] & _). done.
    + split; [by intros (? & ? & _ & ? & _)|]. intros (_ & _ & [? ?]). done.
  - exists (news1 ++ news2). rewrite Hs2, Hs1, <- !app_assoc.
    split; [done|]. by apply Forall_app.
Qed.

Lemma isSpeaker_iff_speaker_id_witness :
  w_isSpeaker
    (token_changed_watched [reader; derived_sync; reader]
       [derived_sync; reader] (Some "u1") (Some "Ann")
       {| w_client := Sample.in_room; w_isSpeaker := false; w_seen := [] |})
  = true.
Proof.
  destruct (isSpeaker_iff_speaker_id 4 (Some "u1") (Some "Ann")
              1 [reader] [derived_sync; reader]
              {| w_client := Sample.in_room; w_isSpeaker := false;
                 w_seen := [] |})
    as (_ & _ & _ & H & _).
  - vm_compute. reflexivity.
  - apply H. split; [|split].
    + vm_compute. by eexists.
    + vm_compute. reflexivity.
    + vm_compute. by eexists.
Defined.

(** C1 as stated fails: a subscriber that subscribed to [classroomRoom]
    before the derived store did is called first when [token_changed]
    hands the token to the local user; it reads [isSpeaker] as false
    while the room's [speaker_id] is already the local user's id. *)
Lemma early_subscriber_reads_stale_isSpeaker :
  ∃ s, (s, false)
       ∈ w_seen
           (token_changed_watched [reader; derived_sync] [derived_sync]
              (Some "u1") (Some "Ann")
              {| w_client := Sample.in_room; w_isSpeaker := false;
                 w_seen := [] |})
       ∧ speaker_is_self s
       ∧ isSpeaker s = true
       ∧ isSpeaker (stores Sample.in_room) = false.
Proof.
  eexists.
  split.
  { match goal with
    | |- _ ∈ ?l => let l' := eval vm_compute in l in change l with l'
    end.
    left. }
  split; [|split; vm_compute; reflexivity].
  eexists _, _. repeat split.
Qed.

(** ** Hand raises *)

Lemma room_raises_hand_raised now raise c :
  room_raises (handleWsMessage now (hand_raised raise) c)
  = match classroomRoom (stores c) with
    | Some _ =>
        if bool_decide (Exists (λ hr, hr_id hr = hr_id raise) (room_raises c))
        then room_raises c else room_raises c ++ [raise]
    | None => []
    end.
Proof.
  unfold room_raises. cbn.
  destruct (classroomRoom (stores c)) as [r|]; [|done]. cbn.
  by case_bool_decide.
Qed.

Lemma room_raises_hand_lowered now uid c :
  room_raises (handleWsMessage now (hand_lowered uid) c)
  = filter (λ hr, ¬ (hr_user_id hr = uid ∧ hr_status hr = pending))
      (room_raises c).
Proof.
  unfold room_raises. cbn.
  destruct (self_is uid _); cbn;
    by destruct (classroomRoom (stores c)) as [r|].
Qed.

Lemma pending_of_lowered now uid c :
  pending_of uid (handleWsMessage now (hand_lowered uid) c) = [].
Proof.
  unfold pending_of. rewrite room_raises_hand_lowered.
  induction (room_raises c) as [|hr l IH]; [done|].
  rewrite filter_cons. case_decide as Hk.
  - rewrite filter_cons. case_decide; [tauto|done].
  - done.
Qed.

Lemma length_filter_filter {A} (P Q : A → Prop)
  `{!∀ x, Decision (P x)} `{!∀ x, Decision (Q x)} (l : list A) :
  (length (filter P (filter Q l)) ≤ length (filter P l))%nat.
Proof.
  induction l as [|x l IH]; [done|].
  rewrite !filter_cons.
  destruct (decide (Q x)), (decide (P x)); rewrite ?filter_cons; simpl;
    repeat case_decide; simpl; try tauto; lia.
Qed.

Lemma hand_event_keeps_one_pending now e c :
  one_pending_per_user c → raise_in_turn c e →
  one_pending_per_user (handleWsMessage now (hand_frame e) c).
Proof.
  intros Hone Hturn uid. unfold pending_of.
  destruct e as [raise|u]; cbn [hand_frame raise_in_turn] in *.
  - rewrite room_raises_hand_raised.
    destruct (classroomRoom (stores c)) as [r|] eqn:Er; [|simpl; lia].
    case_bool_decide as Hex; [apply Hone|].
    rewrite filter_app, length_app.
    destruct Hturn as [Hin|Hnone]; [done|].
    rewrite filter_cons, filter_nil. case_decide as Hp; simpl.
    + destruct Hp as [<- _]. unfold pending_of in Hnone.
      rewrite Hnone. simpl. lia.
    + specialize (Hone uid). unfold pending_of in Hone. lia.
  - rewrite room_raises_hand_lowered.
    etrans; [|apply (Hone uid)]. unfold pending_of.
    apply length_filter_filter.
Qed.

Lemma hands_in_turn now evs : ∀ c k,
  one_pending_per_user c → in_turn now evs c →
  one_pending_per_user (hands now (take k evs) c).
Proof.
  induction evs as [|e evs IH]; intros c k Hone Hturn.
  - by rewrite take_nil.
  - destruct k as [|k]; [done|]. destruct Hturn as [He Hrest].
    simpl. apply IH; [|done]. by apply hand_event_keeps_one_pending.
Qed.

Lemma raise_hand_sends question c :
  ws_is_open c = true →
  sent (handleRaiseHand question c)
  = sent c ++ [out_hand_raise (Js.or_str question "")].
Proof.
  unfold handleRaiseHand, ws_is_open, sent, ws_send_if_open.
  destruct (classroomWs (stores c)) as [h|] eqn:Eh; [|done].
  destruct (sockets (browser c) !! h) as [w|] eqn:Ew; [|done].
  intros Hopen. rewrite Hopen. cbn. rewrite Eh.
  rewrite list_lookup_alter_eq, Ew. done.
Qed.

(** C2, amended.  The client deduplicates hand raises by raise id, not by
    user.  Along every sequence of [hand_raised] and [hand_lowered] frames
    in which a raise arrives only for an id already listed or for a user
    without a pending record, the room state holds at most one pending
    record per user at every point, and a [hand_lowered] frame for a user
    leaves no pending record of that user.  A second raise is no no-op on
    the client: [handleRaiseHand] sends a [hand_raise] frame whenever the
    socket is open, and the hand button goes by the flag [isHandRaised]
    alone, lowering the hand while it is set and raising it otherwise.
    A [hand_raised] frame does not touch the flag, so with the flag clear
    a click sends [hand_raise] whatever pending records the room state
    lists. *)
Theorem one_pending_per_user_in_turn (now : Z) (evs : list HandEvent)
  (c : Client) :
  one_pending_per_user c → in_turn now evs c →
  (∀ k, one_pending_per_user (hands now (take k evs) c))
  ∧ (∀ uid c', pending_of uid (handleWsMessage now (hand_lowered uid) c') = [])
  ∧ (∀ c', hand_button_click c'
           = if isHandRaised (stores c') then handleLowerHand c'
             else handleRaiseHand (Some "") c')
  ∧ (∀ question c', ws_is_open c' = true →
       sent (handleRaiseHand question c')
       = sent c' ++ [out_hand_raise (Js.or_str question "")])
  ∧ (∀ raise c',
       isHandRaised (stores (handleWsMessage now (hand_raised raise) c'))
       = isHandRaised (stores c'))
  ∧ (∀ c', isHandRaised (stores c') = false → ws_is_open c' = true →
       sent (hand_button_click c') = sent c' ++ [out_hand_raise ""]
       ∧ room_raises (hand_button_click c') = room_raises c').
Proof.
  intros Hone Hturn. split; [|split; [|split; [|split; [|split]]]].
  - intros k. by apply hands_in_turn.
  - intros uid c'. apply pending_of_lowered.
  - reflexivity.
  - intros question c'. apply raise_hand_sends.
  - reflexivity.
  - intros c' Hflag Hopen. unfold hand_button_click. rewrite Hflag. split.
    + by rewrite (raise_hand_sends (Some "") c').
    + unfold handleRaiseHand, room_raises, ws_send_if_open.
      rewrite Hopen. by repeat case_match.
Qed.

Lemma one_pending_per_user_in_turn_witness :
  one_pending_per_user
    (hands 4 (take 3 [he_raised (Sample.raise "h1" "u2"); he_lowered "u2";
                      he_raised (Sample.raise "h2" "u2")]) Sample.in_room).
Proof.
  apply (one_pending_per_user_in_turn 4
           [he_raised (Sample.raise "h1" "u2"); he_lowered "u2";
            he_raised (Sample.raise "h2" "u2")] Sample.in_room).
  - intros uid. vm_compute. lia.
  - cbn [in_turn raise_in_turn].
    repeat split; right; vm_compute; reflexivity.
Defined.

(** C2 as stated fails: two [hand_raised] frames with distinct raise ids
    for the same user leave two pending records of that user; a second
    raise command while the hand is raised sends a second [hand_raise]
    frame; and once a [hand_raised] frame has listed a pending raise of
    the local user, whose flag is clear, a click on the hand button sends
    another [hand_raise]. *)
Lemma two_pending_raises_of_one_user :
  ¬ one_pending_per_user (run Sample.two_raises Sample.in_room)
  ∧ (let c := step 6 (a_raise_hand None) Sample.in_room in
     isHandRaised (stores c) = true
     ∧ step 7 (a_raise_hand None) c ≠ c)
  ∧ (let c := step 6 (a_ws_frame 0%nat
                        (frame_json (hand_raised (Sample.raise "h1" "u1"))))
                Sample.in_room in
     length (pending_of "u1" c) = 1%nat
     ∧ sent (step 7 a_hand_button c) = sent c ++ [out_hand_raise ""]).
Proof.
  split; [|split].
  - intros H. specialize (H "u2"). vm_compute in H. lia.
  - split; [reflexivity|]. intros H.
    apply (f_equal (λ c, length (sent c))) in H. vm_compute in H.
    discriminate.
  - split; vm_compute; reflexivity.
Qed.

(** ** Streaming into the message log *)

Lemma append_assoc (a b c : string) : (a +:+ b) +:+ c = a +:+ (b +:+ c).
Proof.
  induction a as [|x a IH]; [done|].
  change (String x ((a +:+ b) +:+ c) = String x (a +:+ b +:+ c)).
  by rewrite IH.
Qed.

Lemma append_nil_r (a : string) : a +:+ "" = a.
Proof.
  induction a as [|x a IH]; [done|].
  change (String x (a +:+ "") = String x a). by rewrite IH.
Qed.

Lemma but_last_snoc {A} (l : list A) (x : A) : but_last (l ++ [x]) = l.
Proof.
  unfold but_last. rewrite length_app. simpl.
  replace (pred (length l + 1)) with (length l) by lia.
  apply take_app_length.
Qed.

Lemma streaming_tail_snoc l m :
  streaming_tail (l ++ [m])
  = if is_streaming_assistant m then Some m else None.
Proof. unfold streaming_tail. by rewrite last_snoc. Qed.

Lemma streaming_tail_Some l m :
  streaming_tail l = Some m →
  l = but_last l ++ [m] ∧ is_streaming_assistant m = true.
Proof.
  unfold streaming_tail. destruct (last l) as [x|] eqn:El; [|done].
  destruct (is_streaming_assistant x) eqn:Ex; [|done].
  intros [= <-]. apply last_Some in El as [l' ->].
  by rewrite but_last_snoc.
Qed.












(** ** One handler run and the message log *)

Lemma stores_connectSpeakerPipeline c :
  stores (connectSpeakerPipeline c) = stores c.
Proof.
  unfold connectSpeakerPipeline. repeat case_match; reflexivity.
Qed.

Lemma stores_disconnectSpeakerPipeline c :
  stores (disconnectSpeakerPipeline c) = stores c.
Proof.
  unfold disconnectSpeakerPipeline. repeat case_match; reflexivity.
Qed.

Lemma stores_react c : stores (react c) = stores c.
Proof.
  unfold react.
  repeat (case_match; rewrite ?stores_connectSpeakerPipeline,
            ?stores_disconnectSpeakerPipeline; cbn [stores speakerMode_set upd_speaker]);
    rewrite ?stores_connectSpeakerPipeline, ?stores_disconnectSpeakerPipeline;
    reflexivity.
Qed.

Lemma log_step_def now a c : log (step now a c) = log (handle now a c).
Proof. unfold step, log. by rewrite stores_react. Qed.

(** Functions of the audio queue, the timers and the bridge leave the
    stores alone. *)
Ltac stores_kept :=
  repeat first
    [ reflexivity
    | progress cbn [stores upd_audio upd_speaker upd_polling upd_prefs
                    upd_browser fst snd]
    | case_match ].

Lemma stores_ensureAudioContext c : stores (ensureAudioContext c).2 = stores c.
Proof.
  unfold ensureAudioContext, resumes_set, audioContext_set, contexts_set.
  stores_kept.
Qed.

Lemma stores_playNextChunk c : stores (playNextChunk c) = stores c.
Proof.
  unfold playNextChunk. destruct (audioQueue (audio c)); [reflexivity|].
  destruct (ensureAudioContext _) as [ctx c'] eqn:E.
  pose proof (stores_ensureAudioContext (isPlayingAudio_set true c)) as H.
  rewrite E in H. simpl in H.
  case_match; cbn; by rewrite H.
Qed.

Lemma stores_queueAudioChunk bytes c c' :
  queueAudioChunk bytes c = Some c' → stores c' = stores c.
Proof.
  unfold queueAudioChunk. destruct (Int16Array bytes); [|done].
  simpl. intros [= <-]. case_match; [reflexivity|].
  by rewrite stores_playNextChunk.
Qed.

Lemma stores_queueAudioChunk_default bytes c :
  stores (default c (queueAudioChunk bytes c)) = stores c.
Proof.
  destruct (queueAudioChunk bytes c) as [c'|] eqn:E; [|done].
  by apply stores_queueAudioChunk in E.
Qed.

Lemma stores_ws_send_if_open o c : stores (ws_send_if_open o c) = stores c.
Proof. unfold ws_send_if_open. stores_kept. Qed.

Lemma log_addClassroomMessage now role content sp tr db c :
  ∃ m, log (addClassroomMessage now role content sp tr db c) = log c ++ [m]
       ∧ msg_streaming m = None.
Proof. eexists. split; reflexivity. Qed.

Lemma log_handleLeaveRoom c : log (handleLeaveRoom c) = [].
Proof.
  unfold handleLeaveRoom, refreshRooms, resetClassroom, log.
  cbn. repeat case_match; reflexivity.
Qed.

Lemma log_onDestroy c : log (onDestroy c) = [].
Proof.
  unfold onDestroy, resetClassroom, log.
  cbn. repeat case_match; reflexivity.
Qed.

Lemma hydrate_not_streaming now ms :
  Forall (λ m, msg_streaming m = None) (hydrate now <$> ms).
Proof. apply Forall_fmap, Forall_forall. by intros m _. Qed.

(** The effect of a room-socket frame on the log. *)
Lemma handleWsMessage_log_step now d c :
  ∃ k, log_step (log c) k (log (handleWsMessage now d c))
       ∧ (k = lc_replace →
          match d with joined _ _ _ | kicked _ => True | _ => False end)
       ∧ (k = lc_bot_text →
          match d with bot_text _ => True | _ => False end)
       ∧ (k = lc_add →
          match d with transcription _ _ _ => True | _ => False end).
Proof.
  destruct d.
  - exists lc_replace. split; [|done]. unfold log. cbn.
    assert (∀ c', classroomMessages (stores c')
                  = match recent_messages with
                    | Some ms => hydrate now <$> ms
                    | None => []
                    end →
            log_step (classroomMessages (stores c)) lc_replace
              (classroomMessages (stores c'))) as H.
    { intros c' ->. constructor.
      destruct recent_messages; [apply hydrate_not_streaming|constructor]. }
    repeat case_match; apply H; reflexivity.
  - exists lc_same. split; [constructor|done].
  - exists lc_same. split; [|done]. cbn [handleWsMessage]. case_match; constructor.
  - exists lc_same. split; [constructor|done].
  - exists lc_same. split; [constructor|done].
  - exists lc_add. split; [|done]. unfold log. cbn. by constructor.
  - exists lc_response. split; [constructor|done].
  - exists lc_bot_text. split; [constructor|done].
  - exists lc_complete. split; [constructor|done].
  - exists lc_same. split; [|done]. cbn [handleWsMessage].
    case_match; [|constructor]. unfold log.
    rewrite stores_ensureAudioContext. constructor.
  - exists lc_same. split; [constructor|done].
  - exists lc_same. split; [|done]. cbn [handleWsMessage]. case_match; constructor.
  - exists lc_same. split; [constructor|done].
  - exists lc_same. split; [|done]. cbn [handleWsMessage]. case_match; constructor.
  - exists lc_same. split; [|done]. cbn [handleWsMessage]. case_match; constructor.
  - exists lc_same. split; [|done]. cbn [handleWsMessage]. case_match; constructor.
  - exists lc_react. split; [constructor|done].
  - exists lc_same. split; [constructor|done].
  - exists lc_same. split; [constructor|done].
  - exists lc_same. split; [constructor|done].
  - exists lc_same. split; [constructor|done].
  - exists lc_replace. split; [|done]. cbn [handleWsMessage].
    rewrite log_handleLeaveRoom. constructor. constructor.
  - exists lc_same. split; [constructor|done].
  - exists lc_same. split; [constructor|done].
Qed.

Ltac log_kept :=
  unfold log;
  repeat first
    [ reflexivity
    | rewrite stores_ensureAudioContext
    | rewrite stores_playNextChunk
    | rewrite stores_queueAudioChunk_default
    | rewrite stores_ws_send_if_open
    | rewrite stores_disconnectSpeakerPipeline
    | progress cbn
    | case_match ].

Lemma log_handleJoinRoom roomId c : log (handleJoinRoom roomId c) = log c.
Proof. unfold handleJoinRoom. log_kept. Qed.

Lemma log_handleSetPlaybackMode m c : log (handleSetPlaybackMode m c) = log c.
Proof. unfold handleSetPlaybackMode. log_kept. Qed.

Lemma log_hand_commands c question :
  log (handleRaiseHand question c) = log c
  ∧ log (handleLowerHand c) = log c
  ∧ log (hand_button_click c) = log c.
Proof.
  unfold hand_button_click, handleRaiseHand, handleLowerHand.
  repeat split; log_kept.
Qed.

Lemma log_ws_onclose h c : log (ws_onclose h c) = log c.
Proof. unfold ws_onclose, refreshRooms. log_kept. Qed.

Lemma log_timer_fires h c : log (timer_fires h c) = log c.
Proof. unfold timer_fires, room_poll_tick, lobby_poll_tick. log_kept. Qed.

Lemma log_request_settles i result c : log (request_settles i result c) = log c.
Proof. unfold request_settles. log_kept. Qed.

Lemma log_blob_ready i c : log (blob_ready i c) = log c.
Proof.
  unfold blob_ready. case_match; [|done].
  unfold log. by rewrite stores_queueAudioChunk_default.
Qed.

Lemma log_resume_settles i ok c : log (resume_settles i ok c) = log c.
Proof. unfold resume_settles. log_kept. Qed.

Lemma handleSendMessage_log_step now txt c :
  ∃ k, log_step (log c) k (log (handleSendMessage now txt c))
       ∧ (k = lc_same ∨ k = lc_add).
Proof.
  unfold handleSendMessage. case_match.
  - exists lc_same. split; [constructor|by left].
  - exists lc_add. split; [|by right].
    unfold log. rewrite stores_ws_send_if_open.
    destruct (log_addClassroomMessage now user txt
                (Some (userName (prefs c))) None None c) as (m & Hm & Hs).
    unfold log in Hm. rewrite Hm. by constructor.
Qed.

Lemma handleTeacherAction_log_step now action payload c :
  ∃ k, log_step (log c) k (log (handleTeacherAction now action payload c))
       ∧ (k = lc_same ∨ k = lc_add).
Proof.
  unfold handleTeacherAction. repeat case_match;
    try (exists lc_same; split; [constructor|by left]).
  exists lc_add. split; [|by right].
  destruct (log_addClassroomMessage now user (teacher_label action payload)
              (Some (userName (prefs (ws_send_if_open
                                        (out_teacher_action action payload) c))))
              None None
              (ws_send_if_open (out_teacher_action action payload) c))
    as (m & Hm & Hs).
  rewrite Hm. unfold log. rewrite stores_ws_send_if_open. by constructor.
Qed.

Lemma bridge_message_log_step now msg c :
  ∃ k, log_step (log c) k (log (bridge_message now msg c))
       ∧ (k = lc_same
          ∨ k = lc_add ∧ adds_message (a_bridge msg) = true).
Proof.
  assert (∃ k, log_step (log c) k (log c) ∧
            (k = lc_same ∨ k = lc_add ∧ adds_message (a_bridge msg) = true))
    as Hsame by (exists lc_same; split; [constructor|by left]).
  unfold bridge_message. destruct (activeClient (browser c)) as [h|]; [|done].
  unfold handleJsonMsg. destruct (bridges (browser c) !! h) as [p|]; [|done].
  destruct msg as [sid|txt|txt interrupted|txt final cleaned|]; [| | | |done].
  - case_match; done.
  - case_match; [|done]. destruct (pc_subscribed p); [|done].
    unfold on_botTranscript. case_match; done.
  - destruct (pc_subscribed p); [|case_match; done].
    unfold on_botTranscript, on_botResponse.
    repeat case_match; try done;
      (exists lc_add; split; [|by right]);
      unfold log; cbn; by constructor.
  - case_match; [|done]. destruct (pc_subscribed p); [|done].
    unfold on_userTranscript. repeat case_match; try done.
    exists lc_add. split; [|by right].
    unfold log. cbn [stores speakerUserText_set upd_speaker].
    rewrite stores_ws_send_if_open. cbn. by constructor.
Qed.

(** The effect of any handler run on the log, with the kind of action that
    can cause each kind of change. *)
Lemma step_log_step now a c :
  ∃ k, log_step (log c) k (log (step now a c))
       ∧ (k = lc_replace → replaces_log a = true)
       ∧ (k = lc_bot_text → is_bot_text a = true)
       ∧ (k = lc_add → adds_message a = true).
Proof.
  rewrite log_step_def.
  assert (log (handle now a c) = log c →
          ∃ k, log_step (log c) k (log (handle now a c))
               ∧ (k = lc_replace → replaces_log a = true)
               ∧ (k = lc_bot_text → is_bot_text a = true)
               ∧ (k = lc_add → adds_message a = true)) as Hsame.
  { intros ->. exists lc_same. split; [constructor|done]. }
  assert (∀ o c', log (ws_send_if_open o c') = log c') as Hsend.
  { intros o c'. unfold log. by rewrite stores_ws_send_if_open. }
  destruct a; cbn [handle].
  - (* a_mount *)
    apply Hsame. cbn [handle]. unfold loadStoredUserMode. by case_match.
  - (* a_start_lobby_polling *)
    apply Hsame. cbn [handle]. unfold startLobbyPolling. by case_match.
  - (* a_destroy *)
    exists lc_replace. rewrite log_onDestroy.
    split; [constructor; constructor|done].
  - (* a_join *) apply Hsame, log_handleJoinRoom.
  - (* a_leave *)
    exists lc_replace. rewrite log_handleLeaveRoom.
    split; [constructor; constructor|done].
  - (* a_toggle_mode *) by apply Hsame.
  - (* a_set_playback_mode *) apply Hsame, log_handleSetPlaybackMode.
  - (* a_send_message *)
    destruct (handleSendMessage_log_step now txt c) as (k & Hk & [->| ->]);
      eexists; (split; [exact Hk|done]).
  - (* a_request_token *) apply Hsame, Hsend.
  - (* a_release_token *) apply Hsame, Hsend.
  - (* a_pass_token *) apply Hsame, Hsend.
  - (* a_raise_hand *) apply Hsame, (log_hand_commands c question).
  - (* a_lower_hand *) apply Hsame, (log_hand_commands c None).
  - (* a_hand_button *) apply Hsame, (log_hand_commands c None).
  - (* a_acknowledge_hand *) apply Hsame, Hsend.
  - (* a_dismiss_hand *) apply Hsame, Hsend.
  - (* a_reaction *) apply Hsame, Hsend.
  - (* a_teacher_action *)
    destruct (handleTeacherAction_log_step now action payload c)
      as (k & Hk & [->| ->]); eexists; (split; [exact Hk|done]).
  - (* a_request_topics *) apply Hsame, Hsend.
  - (* a_select_topic *)
    unfold handleSelectTopic. case_match.
    + destruct (handleSendMessage_log_step now t c) as (k & Hk & [->| ->]);
        eexists; (split; [exact Hk|done]).
    + exists lc_same. split; [constructor|done].
  - (* a_ws_open *) apply Hsame. cbn [handle]. by case_match.
  - (* a_ws_frame *)
    case_match; [|exists lc_same; split; [constructor|done]].
    destruct f as [bytes|bytes|data|raw]; cbn [ws_onmessage].
    + exists lc_same. split; [|done]. case_match; [|constructor].
      unfold log. rewrite stores_queueAudioChunk_default. constructor.
    + exists lc_same. split; [|done]. case_match; constructor.
    + destruct (handleWsMessage_log_step now data c)
        as (k & Hk & H1 & H2 & H3).
      exists k. split; [done|].
      repeat split; intros ->; cbn; destruct data; tauto.
    + exists lc_same. split; [constructor|done].
  - (* a_ws_error *) apply Hsame. cbn [handle]. by case_match.
  - (* a_ws_close *)
    apply Hsame. cbn [handle]. case_match; [|done]. case_match; [done|].
    apply log_ws_onclose.
  - (* a_timer *) apply Hsame, log_timer_fires.
  - (* a_settled *) apply Hsame, log_request_settles.
  - (* a_blob_ready *) apply Hsame, log_blob_ready.
  - (* a_resume_settled *) apply Hsame, log_resume_settles.
  - (* a_source_ended *)
    apply Hsame. cbn [handle]. unfold log. by rewrite stores_playNextChunk.
  - (* a_bridge *)
    destruct (bridge_message_log_step now msg c) as (k & Hk & [->|[-> ?]]);
      eexists; (split; [exact Hk|done]).
Qed.

(** ** What a log change preserves *)

Lemma but_last_fmap {A B} (f : A → B) (l : list A) :
  but_last (f <$> l) = f <$> but_last l.
Proof. unfold but_last. by rewrite length_fmap, fmap_take. Qed.


Lemma react_to_fields mid emoji delta m :
  msg_content (react_to mid emoji delta m) = msg_content m
  ∧ msg_streaming (react_to mid emoji delta m) = msg_streaming m
  ∧ msg_role (react_to mid emoji delta m) = msg_role m.
Proof. unfold react_to. by case_match. Qed.

Lemma is_streaming_assistant_react_to mid emoji delta m :
  is_streaming_assistant (react_to mid emoji delta m)
  = is_streaming_assistant m.
Proof.
  unfold is_streaming_assistant.
  destruct (react_to_fields mid emoji delta m) as (_ & -> & ->). done.
Qed.


(** Rewriting the streaming tail does not touch an entry out of reach. *)
Lemma tail_rewrite_lookup l mt x i m :
  streaming_tail l = Some mt → out_of_reach l i m →
  (but_last l ++ [x]) !! i = Some m
  ∧ length (but_last l ++ [x]) = length l.
Proof.
  intros Ht [Hi Hreach]. apply streaming_tail_Some in Ht as [Hl Hmt].
  assert (length l = S (length (but_last l))) as Hlen.
  { rewrite Hl at 1. rewrite length_app. simpl. lia. }
  split; [|rewrite length_app; simpl; lia].
  rewrite Hl in Hi.
  destruct (decide (i < length (but_last l))%nat) as [Hlt|Hge].
  - rewrite lookup_app_l in Hi by done. by rewrite lookup_app_l.
  - assert (i = length (but_last l)) as ->.
    { apply lookup_lt_Some in Hi. rewrite length_app in Hi. simpl in Hi. lia. }
    rewrite list_lookup_middle in Hi by done. simplify_eq.
    destruct Hreach as [Hr|Hr]; [congruence|lia].
Qed.

Lemma app_keeps_lookup (l : list ClassroomMessage) x i m :
  out_of_reach l i m →
  (l ++ [x]) !! i = Some m ∧ (length l ≤ length (l ++ [x]))%nat.
Proof.
  intros [Hi _]. split; [by apply lookup_app_l_Some|].
  rewrite length_app. lia.
Qed.

(** Any change but a replacement keeps every entry out of reach: same
    content, same flag, same role, and the log does not shrink. *)
Lemma log_step_keeps l k l' i m :
  log_step l k l' → k ≠ lc_replace → out_of_reach l i m →
  ∃ m', out_of_reach l' i m'
        ∧ msg_content m' = msg_content m
        ∧ msg_streaming m' = msg_streaming m
        ∧ msg_role m' = msg_role m.
Proof.
  intros Hstep Hk Hreach.
  assert (∀ l2, l2 !! i = Some m ∧ (length l ≤ length l2)%nat →
                ∃ m', out_of_reach l2 i m'
                      ∧ msg_content m' = msg_content m
                      ∧ msg_streaming m' = msg_streaming m
                      ∧ msg_role m' = msg_role m) as Hkeep.
  { intros l2 [Hi Hlen]. exists m. split; [|done]. split; [done|].
    destruct Hreach as [_ [?|?]]; [by left|right; lia]. }
  assert (∀ x, (∃ mt, streaming_tail l = Some mt) →
               (but_last l ++ [x]) !! i = Some m
               ∧ (length l ≤ length (but_last l ++ [x]))%nat) as Htail.
  { intros x [mt Ht].
    destruct (tail_rewrite_lookup l mt x i m Ht Hreach) as [? ->]. done. }
  destruct Hstep as [|x Hx|now t|now t ii|now t tr|mid emoji delta|l' Hl'].
  - apply Hkeep. by destruct Hreach.
  - apply Hkeep. by apply app_keeps_lookup.
  - apply Hkeep. unfold on_bot_text.
    destruct (streaming_tail l) eqn:E; [by eauto|by apply app_keeps_lookup].
  - apply Hkeep. unfold on_bot_text_complete.
    destruct (streaming_tail l) eqn:E; [by eauto|].
    case_match; [by apply app_keeps_lookup|by destruct Hreach].
  - apply Hkeep. unfold on_bot_response.
    destruct (streaming_tail l) eqn:E; [by eauto|by apply app_keeps_lookup].
  - destruct Hreach as [Hi Hr].
    destruct (react_to_fields mid emoji delta m) as (Hc & Hs & Hro).
    exists (react_to mid emoji delta m). split; [|done]. split.
    + by rewrite list_lookup_fmap, Hi.
    + rewrite length_fmap, is_streaming_assistant_react_to. done.
  - done.
Qed.


Lemma all_unflagged l :
  tail_only l → flags_on_assistant l → streaming_tail l = None →
  Forall unflagged l.
Proof.
  unfold tail_only, flags_on_assistant, streaming_tail.
  destruct (last l) as [m|] eqn:El.
  - apply last_Some in El as [l0 ->]. rewrite but_last_snoc.
    intros H0 Ha Hm. apply Forall_app. split; [done|].
    apply Forall_app in Ha as [_ Ha]. apply Forall_inv in Ha.
    apply Forall_singleton. unfold unflagged.
    unfold is_streaming_assistant in Hm.
    destruct (Js.flag (msg_streaming m)) eqn:Ef; [|done].
    simpl in Ha. specialize (Ha eq_refl).
    rewrite bool_decide_eq_true_2 in Hm by done. done.
  - apply last_None in El as ->. constructor.
Qed.

Lemma tail_step_invariant l mt x :
  streaming_tail l = Some mt →
  (Js.flag (msg_streaming x) = true → msg_role x = assistant) →
  tail_only l → flags_on_assistant l →
  tail_only (but_last l ++ [x]) ∧ flags_on_assistant (but_last l ++ [x]).
Proof.
  intros Ht Hx H0 Ha. apply streaming_tail_Some in Ht as [Hl _].
  unfold tail_only. rewrite but_last_snoc. split; [done|].
  unfold flags_on_assistant in *. rewrite Hl in Ha.
  apply Forall_app in Ha as [Ha _]. apply Forall_app. split; [done|].
  by apply Forall_singleton.
Qed.

Lemma append_invariant l x :
  (Js.flag (msg_streaming x) = true → msg_role x = assistant) →
  streaming_tail l = None →
  tail_only l → flags_on_assistant l →
  tail_only (l ++ [x]) ∧ flags_on_assistant (l ++ [x]).
Proof.
  intros Hx Hnone H0 Ha. unfold tail_only. rewrite but_last_snoc.
  split; [by apply all_unflagged|].
  apply Forall_app. split; [done|]. by apply Forall_singleton.
Qed.

(** The invariant of the log: only the tail can be flagged, and only an
    assistant entry; it survives every change provided nothing is appended
    during a stream. *)
Lemma log_step_invariant l k l' :
  log_step l k l' → (k = lc_add → streaming_tail l = None) →
  tail_only l ∧ flags_on_assistant l →
  tail_only l' ∧ flags_on_assistant l'.
Proof.
  intros Hstep Hadd [H0 Ha].
  destruct Hstep as [|x Hx|now t|now t ii|now t tr|mid emoji delta|l' Hl'].
  - done.
  - apply append_invariant; try done; [|by apply Hadd].
    unfold Js.flag. by rewrite Hx.
  - unfold on_bot_text. destruct (streaming_tail l) as [mt|] eqn:E.
    + apply (tail_step_invariant l mt); try done. simpl.
      apply streaming_tail_Some in E as [_ Hm].
      unfold is_streaming_assistant in Hm.
      apply andb_true_iff in Hm as [Hr%bool_decide_eq_true _]. done.
    + by apply append_invariant.
  - unfold on_bot_text_complete. destruct (streaming_tail l) as [mt|] eqn:E.
    + by apply (tail_step_invariant l mt).
    + case_match; [|done]. by apply append_invariant.
  - unfold on_bot_response. destruct (streaming_tail l) as [mt|] eqn:E.
    + by apply (tail_step_invariant l mt).
    + by apply append_invariant.
  - unfold tail_only, flags_on_assistant in *. rewrite but_last_fmap.
    split; apply Forall_fmap; (eapply Forall_impl; [eassumption|]);
      intros m; unfold unflagged; simpl;
      destruct (react_to_fields mid emoji delta m) as (_ & Hs & Hr);
      rewrite ?Hs, ?Hr; done.
  - split.
    + unfold tail_only, but_last. apply Forall_take.
      eapply Forall_impl; [exact Hl'|]. intros m Hm.
      unfold unflagged, Js.flag. by rewrite Hm.
    + eapply Forall_impl; [exact Hl'|]. intros m Hm.
      unfold Js.flag. by rewrite Hm.
Qed.

(** ** Runs and the message log *)

Lemma run_cons e evs c : run (e :: evs) c = run evs (step e.1 e.2 c).
Proof. reflexivity. Qed.



Lemma run_invariant evs : ∀ c k,
  orderly evs c →
  tail_only (log c) ∧ flags_on_assistant (log c) →
  tail_only (log (run (take k evs) c))
  ∧ flags_on_assistant (log (run (take k evs) c)).
Proof.
  induction evs as [|e evs IH]; intros c k Hord Hinv.
  - by rewrite take_nil.
  - destruct k as [|k]; [done|]. destruct Hord as [He Hord].
    cbn [take]. rewrite run_cons. apply IH; [done|].
    destruct (step_log_step e.1 e.2 c) as (j & Hstep & _ & _ & Hadd).
    apply (log_step_invariant _ _ _ Hstep); [|done].
    intros ->. by apply He, Hadd.
Qed.

(** ** Interruption *)








(** ** The streaming tail *)

(** C5, amended.  The controller never finalizes a stream when it appends:
    [addClassroomMessage] ignores the streaming flag.  In every state
    reached by a run in which nothing is appended through
    [addClassroomMessage] (transcription frame, typed or picked message,
    teacher action, bridge turn) while the tail is being streamed, at most
    one entry has the streaming flag set and it is the tail.  In every run
    whatsoever, a handler run that does not replace the log leaves the
    content of every entry other than the streaming tail unchanged. *)
Theorem streaming_tail_only_when_orderly (evs : list (Z * Action))
  (c : Client) :
  tail_only (log c) → flags_on_assistant (log c) → orderly evs c →
  (∀ k, tail_only (log (run (take k evs) c)))
  ∧ (∀ now a c' i m, replaces_log a = false → out_of_reach (log c') i m →
       ∃ m', log (step now a c') !! i = Some m'
             ∧ msg_content m' = msg_content m).
Proof.
  intros H0 Ha Hord. split.
  - intros k. by apply run_invariant.
  - intros now a c' i m Hrep Hreach.
    destruct (step_log_step now a c') as (k & Hstep & Hk & _).
    destruct (log_step_keeps _ _ _ i m Hstep) as (m' & [Hm' _] & Hc' & _);
      [intros ->; rewrite Hk in Hrep; done|done|].
    by exists m'.
Qed.

Lemma streaming_tail_only_when_orderly_witness :
  tail_only (log (run (take 4 Sample.in_order) Sample.in_room)).
Proof.
  apply (streaming_tail_only_when_orderly Sample.in_order Sample.in_room).
  - vm_compute. constructor.
  - vm_compute. constructor.
  - cbn [orderly Sample.in_order fst snd].
    repeat (split;
              [intros H; try (vm_compute in H; discriminate H);
               vm_compute; reflexivity|]).
    exact I.
Defined.

(** C5 as stated fails: a transcription that arrives between two fragments
    is appended after the streaming entry, which keeps its flag; the next
    fragment then opens a second streaming entry. *)
Lemma stale_streaming_entry :
  ¬ tail_only (log (run Sample.interleaved Sample.in_room))
  ∧ (msg_content <$>
       filter (λ m, Js.flag (msg_streaming m) = true)
         (log (run Sample.interleaved Sample.in_room))) = ["Hel"; "lo"].
Proof.
  split.
  - unfold tail_only. intros H. vm_compute in H.
    apply Forall_inv in H. discriminate.
  - vm_compute. reflexivity.
Qed.

(** ** Listener playback after the switch to text-only *)

Lemma unchanged_refl c : unchanged c c.
Proof. done. Qed.

Lemma unchanged_trans c1 c2 c3 :
  unchanged c1 c2 → unchanged c2 c3 → unchanged c1 c3.
Proof. intros [? ?] [? ?]. split; congruence. Qed.

Ltac unchanged_by_cases :=
  repeat first [ apply unchanged_refl | split; reflexivity | case_match ].

Lemma unchanged_ensureAudioContext c : unchanged c (ensureAudioContext c).2.
Proof.
  unfold ensureAudioContext, resumes_set, audioContext_set, contexts_set.
  unchanged_by_cases.
Qed.

Lemma unchanged_ws_send_if_open o c : unchanged c (ws_send_if_open o c).
Proof. unfold ws_send_if_open, sockets_set. unchanged_by_cases. Qed.

Lemma unchanged_disconnectSpeakerPipeline c :
  unchanged c (disconnectSpeakerPipeline c).
Proof.
  unfold disconnectSpeakerPipeline, pc_disconnect, bridges_set,
    speakerPipecat_set, speakerBotText_set, speakerUserText_set.
  unchanged_by_cases.
Qed.

Lemma unchanged_connectSpeakerPipeline c :
  unchanged c (connectSpeakerPipeline c).
Proof.
  unfold connectSpeakerPipeline, bridges_set, activeClient_set,
    speakerPipecat_set.
  unchanged_by_cases.
Qed.

Lemma unchanged_react c : unchanged c (react c).
Proof.
  assert (∀ m c', unchanged c' (speakerMode_set m c')) as Hm by done.
  unfold react.
  repeat case_match;
    repeat first
      [ apply unchanged_refl
      | (eapply unchanged_trans; [|apply Hm])
      | (eapply unchanged_trans; [|apply unchanged_disconnectSpeakerPipeline])
      | (eapply unchanged_trans; [|apply unchanged_connectSpeakerPipeline]) ].
Qed.

Lemma unchanged_resetClassroom c : unchanged c (resetClassroom c).
Proof.
  unfold resetClassroom, ws_close, sockets_set. cbn. unchanged_by_cases.
Qed.

Lemma unchanged_speakerUserText_set v c :
  unchanged c (speakerUserText_set v c).
Proof. done. Qed.

Lemma unchanged_isHandRaised_set v c : unchanged c (isHandRaised_set v c).
Proof. done. Qed.

Lemma unchanged_addClassroomMessage now role content sp tr db c :
  unchanged c (addClassroomMessage now role content sp tr db c).
Proof. done. Qed.

Lemma unchanged_lost_connection c w s r st :
  unchanged c
    (classroomWs_set w
       (classroomSelf_set s (classroomRoom_set r (classroomState_set st c)))).
Proof. done. Qed.

Lemma unchanged_bridge_message now msg c :
  unchanged c (bridge_message now msg c).
Proof.
  unfold bridge_message. destruct (activeClient (browser c)) as [h|]; [|done].
  unfold handleJsonMsg. destruct (bridges (browser c) !! h) as [p|]; [|done].
  destruct msg as [sid|txt|txt interrupted|txt final cleaned|]; [| | | |done].
  - by case_match.
  - case_match; [|done]. destruct (pc_subscribed p); [|done].
    unfold on_botTranscript. by case_match.
  - unfold on_botTranscript, on_botResponse.
    destruct (pc_subscribed p); repeat case_match; done.
  - case_match; [|done]. destruct (pc_subscribed p); [|done].
    unfold on_userTranscript. repeat case_match; try done.
    eapply unchanged_trans; [|apply unchanged_speakerUserText_set].
    eapply unchanged_trans; [|apply unchanged_ws_send_if_open]. done.
Qed.

Lemma fed_unchanged c c' : unchanged c c' → fed c c'.
Proof. intros [Hm Hp]. split; [done|]. by rewrite Hp. Qed.

Lemma fed_trans c1 c2 c3 : fed c1 c2 → fed c2 c3 → fed c1 c3.
Proof. intros [? ?] [? ?]. split; [congruence|]. by etrans. Qed.

Lemma fed_then_unchanged c1 c2 c3 : fed c1 c2 → unchanged c2 c3 → fed c1 c3.
Proof. intros H1 H2. eapply fed_trans; [done|by apply fed_unchanged]. Qed.

Lemma fed_stopAudioPlayback c : fed c (stopAudioPlayback c).
Proof.
  split; [done|]. apply rtc_once. unfold pipeline. cbn. constructor.
Qed.

Lemma fed_playNextChunk c : fed c (playNextChunk c).
Proof.
  unfold playNextChunk.
  destruct (audioQueue (audio c)) as [|ch rest] eqn:Eq;
    [by apply fed_unchanged|].
  destruct (ensureAudioContext (isPlayingAudio_set true c)) as [ctx c1] eqn:E.
  pose proof (unchanged_ensureAudioContext (isPlayingAudio_set true c))
    as [Hm Hp].
  rewrite E in Hm, Hp. cbn [snd] in Hm, Hp.
  case_match.
  - apply fed_unchanged. split; [exact Hm|exact Hp].
  - split; [exact Hm|]. apply rtc_once.
    unfold pipeline in Hp. cbn in Hp. injection Hp as _ Hb1 Hs1.
    unfold pipeline. cbn. rewrite Hb1, Hs1, Eq. constructor.
Qed.

Lemma fed_queueAudioChunk_blob i bytes c :
  blobs (browser c) !! i = Some bytes →
  fed c (default (blobs_set (delete i (blobs (browser c))) c)
           (queueAudioChunk bytes
              (blobs_set (delete i (blobs (browser c))) c))).
Proof.
  intros Hi. unfold queueAudioChunk.
  assert (feed (pipeline c)
            (audioQueue (audio c) ++ option_list (decode_chunk bytes),
             delete i (blobs (browser c)), started (browser c))) as Hfeed.
  { unfold pipeline. by constructor. }
  unfold decode_chunk in Hfeed.
  destruct (Int16Array bytes) as [int16|]; cbn [mbind option_bind default].
  - cbn [fmap option_fmap option_map option_list] in Hfeed.
    set (c1 := audioQueue_set _ _).
    assert (fed c c1) as H1.
    { split; [done|]. by apply rtc_once. }
    cbn [from_option id].
    destruct (isPlayingAudio (audio c1)); [done|].
    eapply fed_trans; [exact H1|apply fed_playNextChunk].
  - cbn [fmap option_fmap option_map option_list] in Hfeed.
    rewrite app_nil_r in Hfeed.
    split; [done|]. by apply rtc_once.
Qed.

Lemma unchanged_refreshRooms c : unchanged c (refreshRooms c).
Proof. done. Qed.

Lemma unchanged_close_context c :
  unchanged c
    (match audioContext (audio c) with
     | Some h => audioContext_set None (ctx_close h c)
     | None => c
     end).
Proof. by destruct (audioContext (audio c)). Qed.

Lemma unchanged_clear_poll c :
  unchanged c
    (match pollInterval (polling c) with
     | Some h => pollInterval_set None (clearInterval h c)
     | None => c
     end).
Proof. by destruct (pollInterval (polling c)). Qed.

Lemma unchanged_clear_timers c :
  unchanged c
    (match
       lobbyPollInterval
         (polling (match pollInterval (polling c) with
                   | Some h => clearInterval h c
                   | None => c
                   end))
     with
     | Some h => clearInterval h (match pollInterval (polling c) with
                                  | Some h => clearInterval h c
                                  | None => c
                                  end)
     | None => match pollInterval (polling c) with
               | Some h => clearInterval h c
               | None => c
               end
     end).
Proof. by repeat case_match. Qed.

Lemma fed_leave c : fed c (handleLeaveRoom c).
Proof.
  unfold handleLeaveRoom. cbv zeta.
  eapply fed_then_unchanged; [|apply unchanged_refreshRooms].
  eapply fed_then_unchanged; [|apply unchanged_resetClassroom].
  eapply fed_then_unchanged; [|apply unchanged_disconnectSpeakerPipeline].
  eapply fed_then_unchanged; [|apply unchanged_close_context].
  eapply fed_trans; [|apply fed_stopAudioPlayback].
  apply fed_unchanged, unchanged_clear_poll.
Qed.

Lemma fed_onDestroy c : fed c (onDestroy c).
Proof.
  unfold onDestroy. cbv zeta.
  eapply fed_then_unchanged; [|apply unchanged_resetClassroom].
  eapply fed_then_unchanged; [|apply unchanged_disconnectSpeakerPipeline].
  eapply fed_then_unchanged; [|apply unchanged_close_context].
  eapply fed_trans; [|apply fed_stopAudioPlayback].
  apply fed_unchanged, unchanged_clear_timers.
Qed.

Lemma muted_mode c : muted c → userMode (prefs c) = text_only.
Proof. unfold muted, mode_view. by intros [= -> _]. Qed.

Lemma muted_stored c : muted c → stored_mode (browser c) = Some text_only.
Proof. unfold muted, mode_view. by intros [= _ ->]. Qed.

Lemma fed_handleWsMessage now d h c :
  muted c → keeps_text_only (a_ws_frame h (frame_json d)) = true →
  fed c (handleWsMessage now d c).
Proof.
  intros Hmuted Hk.
  pose proof (muted_mode c Hmuted) as Hm.
  pose proof (muted_stored c Hmuted) as Hs.
  destruct d; cbn [handleWsMessage]; try (by apply fed_unchanged).
  - (* joined *)
    cbn in Hk. apply bool_decide_eq_true in Hk.
    apply fed_unchanged. rewrite Hk. split; [|by repeat case_match].
    unfold mode_view. cbn. repeat case_match; cbn; by rewrite Hm, Hs.
  - (* token_response *) apply fed_unchanged. by case_match.
  - (* bot_audio_start *)
    apply fed_unchanged. case_match; [|done].
    apply unchanged_ensureAudioContext.
  - (* mode_changed *)
    destruct mode; [done|]. cbv zeta.
    rewrite bool_decide_eq_true_2 by done.
    eapply fed_trans; [|apply fed_stopAudioPlayback].
    apply fed_unchanged. split; [|done].
    unfold mode_view. cbn. by rewrite Hm, Hs.
  - (* hand_lowered *) apply fed_unchanged. by case_match.
  - (* hand_acknowledged *) apply fed_unchanged. by case_match.
  - (* hand_dismissed *) apply fed_unchanged. by case_match.
  - (* kicked *)
    eapply fed_trans; [|apply fed_leave]. by apply fed_unchanged.
Qed.

(** While playback is text-only, a handler run keeps it so and moves the
    pipeline by [feed] steps only: no frame is accepted. *)
Lemma fed_handle now a c :
  muted c → keeps_text_only a = true → fed c (handle now a c).
Proof.
  intros Hmuted Hk.
  pose proof (muted_mode c Hmuted) as Hm.
  pose proof (muted_stored c Hmuted) as Hs.
  assert (∀ o c', fed c' (ws_send_if_open o c')) as Hsend.
  { intros o c'. apply fed_unchanged, unchanged_ws_send_if_open. }
  destruct a; cbn [handle].
  - (* a_mount *)
    apply fed_unchanged. unfold loadStoredUserMode. rewrite Hs.
    split; [|done]. unfold mode_view. cbn. by rewrite Hm.
  - (* a_start_lobby_polling *)
    apply fed_unchanged. unfold startLobbyPolling. by case_match.
  - (* a_destroy *) apply fed_onDestroy.
  - (* a_join *)
    apply fed_unchanged. unfold handleJoinRoom. cbn. rewrite Hm. done.
  - (* a_leave *) apply fed_leave.
  - (* a_toggle_mode *) by apply fed_unchanged.
  - (* a_set_playback_mode *)
    destruct m; [done|]. unfold handleSetPlaybackMode. cbv zeta.
    rewrite bool_decide_eq_true_2 by done.
    eapply fed_trans; [|apply Hsend].
    eapply fed_trans; [|apply fed_stopAudioPlayback].
    apply fed_unchanged. split; [|done].
    unfold mode_view. cbn. by rewrite Hm, Hs.
  - (* a_send_message *)
    unfold handleSendMessage. case_match; [by apply fed_unchanged|].
    eapply fed_trans; [|apply Hsend].
    apply fed_unchanged, unchanged_addClassroomMessage.
  - apply Hsend.
  - apply Hsend.
  - apply Hsend.
  - (* a_raise_hand *)
    unfold handleRaiseHand. case_match; [|by apply fed_unchanged].
    eapply fed_trans; [apply Hsend|].
    apply fed_unchanged, unchanged_isHandRaised_set.
  - (* a_lower_hand *)
    unfold handleLowerHand. case_match; [|by apply fed_unchanged].
    eapply fed_trans; [apply Hsend|].
    apply fed_unchanged, unchanged_isHandRaised_set.
  - (* a_hand_button *)
    unfold hand_button_click, handleRaiseHand, handleLowerHand.
    repeat case_match; try (by apply fed_unchanged);
      (eapply fed_trans; [apply Hsend|];
       apply fed_unchanged, unchanged_isHandRaised_set).
  - apply Hsend.
  - apply Hsend.
  - apply Hsend.
  - (* a_teacher_action *)
    unfold handleTeacherAction.
    repeat case_match; try (by apply fed_unchanged).
    eapply fed_trans; [apply Hsend|].
    apply fed_unchanged, unchanged_addClassroomMessage.
  - apply Hsend.
  - (* a_select_topic *)
    unfold handleSelectTopic, handleSendMessage.
    repeat case_match; try (by apply fed_unchanged).
    eapply fed_trans; [|apply Hsend].
    apply fed_unchanged, unchanged_addClassroomMessage.
  - (* a_ws_open *) apply fed_unchanged. by case_match.
  - (* a_ws_frame *)
    case_match; [|by apply fed_unchanged].
    destruct f as [bytes|bytes|data|raw].
    + unfold ws_onmessage, listens. rewrite Hm. by apply fed_unchanged.
    + unfold ws_onmessage, listens. rewrite Hm. by apply fed_unchanged.
    + by apply (fed_handleWsMessage now data h).
    + by apply fed_unchanged.
  - (* a_ws_error *) apply fed_unchanged. by case_match.
  - (* a_ws_close *)
    apply fed_unchanged.
    case_match; [|done]. case_match; [done|].
    unfold ws_onclose. cbv zeta. case_match; [|done].
    eapply unchanged_trans; [|apply unchanged_refreshRooms].
    eapply unchanged_trans; [|apply unchanged_lost_connection].
    eapply unchanged_trans; [|apply unchanged_disconnectSpeakerPipeline].
    done.
  - (* a_timer *)
    apply fed_unchanged.
    unfold timer_fires, room_poll_tick, lobby_poll_tick.
    by repeat case_match.
  - (* a_settled *)
    apply fed_unchanged. unfold request_settles. by repeat case_match.
  - (* a_blob_ready *)
    unfold blob_ready.
    destruct (blobs (browser c) !! i) as [bytes|] eqn:Ei;
      [|by apply fed_unchanged].
    by apply fed_queueAudioChunk_blob.
  - (* a_resume_settled *)
    unfold resume_settles.
    repeat case_match; try (by apply fed_unchanged);
      (eapply fed_trans; [|apply fed_playNextChunk]; by apply fed_unchanged).
  - (* a_source_ended *) apply fed_playNextChunk.
  - (* a_bridge *) apply fed_unchanged, unchanged_bridge_message.
Qed.

Lemma fed_step now a c :
  muted c → keeps_text_only a = true → fed c (step now a c).
Proof.
  intros Hm Hk. unfold step.
  eapply fed_then_unchanged; [by apply fed_handle|apply unchanged_react].
Qed.

Lemma fed_run later : ∀ c,
  muted c → Forall (λ e, keeps_text_only e.2 = true) later →
  fed c (run later c).
Proof.
  induction later as [|e later IH]; intros c Hm Hall.
  - by apply fed_unchanged.
  - apply Forall_cons in Hall as [He Hall]. rewrite run_cons.
    pose proof (fed_step e.1 e.2 c Hm He) as H1.
    eapply fed_trans; [exact H1|]. apply IH; [|done].
    unfold muted. destruct H1 as [-> _]. exact Hm.
Qed.

(** [feed] steps neither queue nor play anything that is not in the
    pool. *)
Lemma feed_fed_from pool played p p' :
  feed p p' → fed_from pool played p → fed_from pool played p'.
Proof.
  intros Hfeed (Hq & Hb & news & Hs & Hnews).
  destruct Hfeed as [q b s|ch q b s|q b s i bytes Hi]; cbn in *.
  - split; [constructor|]. split; [done|]. by exists news.
  - apply Forall_cons in Hq as [Hch Hq]. split; [done|]. split; [done|].
    exists (news ++ [ch]). rewrite Hs, app_assoc. split; [done|].
    apply Forall_app. split; [done|]. by apply Forall_singleton.
  - split; [|split; [|by exists news]].
    + apply Forall_app. split; [done|].
      rewrite Forall_forall in Hb.
      destruct (decode_chunk bytes) as [ch|] eqn:Ed; [|constructor].
      apply Forall_singleton. apply (Hb bytes); [|done].
      by apply list_elem_of_lookup_2 in Hi.
    + apply Forall_forall. intros bs Hin. rewrite Forall_forall in Hb.
      apply Hb. by apply list_elem_of_delete_inv in Hin.
Qed.

Lemma rtc_feed_fed_from pool played p p' :
  rtc feed p p' → fed_from pool played p → fed_from pool played p'.
Proof.
  induction 1 as [|p1 p2 p3 H12 _ IH]; [done|].
  intros H. apply IH. by apply (feed_fed_from _ _ p1).
Qed.

Lemma audio_react c : audio (react c) = audio c.
Proof.
  assert (∀ c', audio (connectSpeakerPipeline c') = audio c') as Hc.
  { intros c'. unfold connectSpeakerPipeline. by repeat case_match. }
  assert (∀ c', audio (disconnectSpeakerPipeline c') = audio c') as Hd.
  { intros c'. unfold disconnectSpeakerPipeline. by repeat case_match. }
  assert (∀ m c', audio (speakerMode_set m c') = audio c') as Hm by done.
  unfold react. repeat case_match; rewrite ?Hm, ?Hd, ?Hc; reflexivity.
Qed.

Lemma audio_ws_send_if_open o c : audio (ws_send_if_open o c) = audio c.
Proof. unfold ws_send_if_open. by repeat case_match. Qed.

(** The state right after the switch. *)
Lemma switch_to_text_only now c :
  muted (step now (a_set_playback_mode text_only) c)
  ∧ audioQueue (audio (step now (a_set_playback_mode text_only) c)) = []
  ∧ blobs (browser (step now (a_set_playback_mode text_only) c))
    = blobs (browser c)
  ∧ started (browser (step now (a_set_playback_mode text_only) c))
    = started (browser c)
  ∧ isPlayingAudio (audio (step now (a_set_playback_mode text_only) c))
    = false.
Proof.
  assert (muted (step now (a_set_playback_mode text_only) c)
          ∧ pipeline (step now (a_set_playback_mode text_only) c)
            = ([], blobs (browser c), started (browser c))
          ∧ isPlayingAudio
              (audio (step now (a_set_playback_mode text_only) c)) = false)
    as (Hmuted & Hp & Hplay).
  { unfold step.
    destruct (unchanged_react (handle now (a_set_playback_mode text_only) c))
      as [Hm Hp].
    unfold muted. rewrite Hm, Hp, audio_react. cbn [handle].
    unfold handleSetPlaybackMode. cbv zeta.
    destruct (unchanged_ws_send_if_open (out_set_mode text_only)
                (stopAudioPlayback
                   (persistUserMode text_only (userMode_set text_only c))))
      as [Hm' Hp'].
    rewrite bool_decide_eq_true_2 by done.
    rewrite Hm', Hp', audio_ws_send_if_open. done. }
  unfold pipeline in Hp.
  set (c' := step now (a_set_playback_mode text_only) c) in *.
  clearbody c'. injection Hp as Hq Hb Hs. done.
Qed.

Lemma switch_forgets_queue now c :
  step now (a_set_playback_mode text_only) c
  = step now (a_set_playback_mode text_only) (audioQueue_set [] c).
Proof. reflexivity. Qed.

Lemma fed_from_nothing played p :
  fed_from [] played p → p.1.1 = [] ∧ p.2 = played.
Proof.
  intros (Hq & _ & news & -> & Hnews). split.
  - destruct (p.1.1) as [|ch q]; [done|].
    apply Forall_inv in Hq. by apply elem_of_nil in Hq.
  - destruct news as [|ch news]; [by rewrite app_nil_r|].
    apply Forall_inv in Hnews. by apply elem_of_nil in Hnews.
Qed.

(** With no conversion pending when playback is text-only and the queue is
    empty, nothing is ever queued or played while the preference stays. *)
Lemma silent_while_muted later c :
  muted c → audioQueue (audio c) = [] → blobs (browser c) = [] →
  Forall (λ e, keeps_text_only e.2 = true) later →
  audioQueue (audio (run later c)) = []
  ∧ started (browser (run later c)) = started (browser c).
Proof.
  intros Hm Hq Hb Hlater.
  destruct (fed_run later c Hm Hlater) as [_ Hfed].
  apply (fed_from_nothing (started (browser c)) (pipeline (run later c))).
  apply (rtc_feed_fed_from _ _ _ _ Hfed).
  unfold fed_from, pipeline. cbn [fst snd]. rewrite Hq, Hb.
  split; [constructor|]. split; [constructor|].
  exists []. by rewrite app_nil_r.
Qed.

(** C6, amended.  Switching the playback preference to text-only empties
    the playback queue at once and clears the playing flag; the state
    after the switch is the one the same switch yields from an empty
    queue, so no later decode or playback call can involve a flushed
    chunk.  No binary frame is accepted as long as the preference is not
    switched back, by the user, by a [mode_changed] frame that carries
    [text_and_audio] or by a [joined] frame whose self record does: along
    such handler runs, every chunk queued or played after the switch was
    decoded from a [Blob] frame that had arrived before the switch and
    whose conversion was still pending.  A [mode_changed] frame makes its
    mode the preference whatever the preference was, and a client whose
    preference is audio and who is not the speaker hands every
    [ArrayBuffer] frame to the playback queue. *)
Theorem text_only_flushes_queue (now : Z) (c : Client)
  (later : list (Z * Action)) :
  Forall (λ e, keeps_text_only e.2 = true) later →
  audioQueue (audio (step now (a_set_playback_mode text_only) c)) = []
  ∧ isPlayingAudio (audio (step now (a_set_playback_mode text_only) c))
    = false
  ∧ started (browser (step now (a_set_playback_mode text_only) c))
    = started (browser c)
  ∧ step now (a_set_playback_mode text_only) c
    = step now (a_set_playback_mode text_only) (audioQueue_set [] c)
  ∧ fed_from (omap decode_chunk (blobs (browser c))) (started (browser c))
      (pipeline (run later (step now (a_set_playback_mode text_only) c)))
  ∧ (∀ now' mode c',
       mode_view (handleWsMessage now' (mode_changed mode) c')
       = (mode, Some mode))
  ∧ (∀ now' h bytes c',
       socket_state h c' = Some OPEN → listens c' = true →
       handle now' (a_ws_frame h (frame_buffer bytes)) c'
       = default c' (queueAudioChunk bytes c')).
Proof.
  intros Hlater.
  destruct (switch_to_text_only now c) as (Hmuted & Hq & Hb & Hs & Hplay).
  split; [exact Hq|]. split; [exact Hplay|]. split; [exact Hs|].
  split; [apply switch_forgets_queue|]. split; [|split].
  - destruct (fed_run later _ Hmuted Hlater) as [_ Hfed].
    apply (rtc_feed_fed_from _ _ _ _ Hfed).
    unfold pipeline at 1. rewrite Hq, Hb, Hs.
    split; [constructor|]. split.
    + apply Forall_forall. intros bytes Hin ch Hch.
      apply list_elem_of_omap. by exists bytes.
    + exists []. by rewrite app_nil_r.
  - intros now' mode c'. unfold mode_view. cbn [handleWsMessage].
    unfold persistUserMode, stopAudioPlayback. by repeat case_match.
  - intros now' h bytes c' Hopen Hlistens. cbn [handle]. rewrite Hopen.
    cbn. by rewrite Hlistens.
Qed.

Lemma text_only_flushes_queue_witness :
  length (audioQueue (audio Sample.listening)) = 1%nat
  ∧ blobs (browser Sample.listening) = []
  ∧ fed_from (omap decode_chunk (blobs (browser Sample.listening)))
      (started (browser Sample.listening))
      (pipeline
         (run Sample.after_switch
            (step 6 (a_set_playback_mode text_only) Sample.listening))).
Proof.
  split; [vm_compute; reflexivity|]. split; [vm_compute; reflexivity|].
  apply (text_only_flushes_queue 6 Sample.listening Sample.after_switch).
  repeat constructor.
Defined.

(** C6 as stated fails.  The controller applies a [mode_changed] frame
    without comparing it with the user's choice: when the server's answer
    to an earlier switch to audio arrives after the user has switched to
    text-only, the preference is audio again, in the component and in
    [localStorage], and the audio frame that follows is decoded and
    played.  And a [Blob] accepted before the switch is decoded and played
    after it, the preference still being text-only. *)
Lemma stale_mode_echo_plays_audio :
  (mode_view (step 6 (a_set_playback_mode text_only) Sample.listening)
   = (text_only, Some text_only)
   ∧ mode_view (run Sample.stale_echo
                  (step 6 (a_set_playback_mode text_only) Sample.listening))
     = (text_and_audio, Some text_and_audio)
   ∧ started (browser (run Sample.stale_echo
                         (step 6 (a_set_playback_mode text_only)
                            Sample.listening)))
     = started (browser Sample.listening) ++ [[(513 # 32768)%Q]])
  ∧ (mode_view (run Sample.blob_before_switch Sample.in_room)
     = (text_only, Some text_only)
     ∧ started (browser (run Sample.blob_before_switch Sample.in_room))
       = [[(1027 # 32768)%Q]]
     ∧ started (browser (run (take 2 Sample.blob_before_switch)
                           Sample.in_room))
       = []).
Proof.
  split; [split; [|split]|split; [|split]]; vm_compute; reflexivity.
Qed.

(** ** Leaving a room *)

(** What [handleLeaveRoom] establishes by itself: the stores are back to
    their lobby values, the audio queue is empty, the audio context, the
    bridge and the held poll handle are dropped. *)
Lemma leave_resets c :
  stores (handleLeaveRoom c)
  = {| classroomState := lobby; classroomRoom := None;
       classroomSelf := None; classroomMessages := [];
       classroomWs := None; classroomError := ""; classroomTopics := [];
       isHandRaised := false; currentLessonTopic := "";
       msgCounter := msgCounter (stores c) |}
  ∧ audio (handleLeaveRoom c)
    = {| audioContext := None; audioQueue := []; isPlayingAudio := false |}
  ∧ speakerPipecat (speaker (handleLeaveRoom c)) = None
  ∧ pollInterval (polling (handleLeaveRoom c)) = None.
Proof.
  unfold handleLeaveRoom, refreshRooms, resetClassroom,
    disconnectSpeakerPipeline, stopAudioPlayback.
  repeat split; cbn; repeat case_match; cbn in *; try reflexivity;
    f_equal; congruence.
Qed.

(** A [kicked] frame runs the same cleanup as an explicit leave. *)
Lemma kicked_is_leave now message c :
  handleWsMessage now (kicked message) c
  = handleLeaveRoom
      (classroomError_set
         (Js.or_str message "You were removed from the room") c)
  ∧ stores (handleWsMessage now (kicked message) c)
    = stores (handleLeaveRoom c).
Proof.
  split; [reflexivity|].
  cbn [handleWsMessage].
  destruct (leave_resets c) as (-> & _).
  destruct (leave_resets
              (classroomError_set
                 (Js.or_str message "You were removed from the room") c))
    as (-> & _).
  reflexivity.
Qed.

(** [handleLeaveRoom] cancels the timer whose handle it holds. *)
Lemma leave_clears_held_timer c h :
  pollInterval (polling c) = Some h →
  h ∉ (intervals (browser (handleLeaveRoom c))).*1.
Proof.
  intros Hh.
  assert (intervals (browser (handleLeaveRoom c))
          = filter (λ t, t.1 ≠ h) (intervals (browser c))) as ->.
  { unfold handleLeaveRoom, refreshRooms, resetClassroom,
      disconnectSpeakerPipeline, stopAudioPlayback.
    rewrite Hh. cbn. repeat case_match; reflexivity. }
  intros Hin. apply list_elem_of_fmap in Hin as ([h' k] & -> & Hin).
  apply list_elem_of_filter in Hin as [Hne _]. done.
Qed.

(** Joining registers a new room-poll timer and keeps every timer that is
    already registered, the one [pollInterval] refers to included. *)
Lemma join_keeps_timers roomId c :
  intervals (browser (handleJoinRoom roomId c))
  = intervals (browser c) ++ [(next_timer (browser c), room_poll)]
  ∧ pollInterval (polling (handleJoinRoom roomId c))
    = Some (next_timer (browser c)).
Proof.
  unfold handleJoinRoom. cbn. by repeat case_match.
Qed.

(** C7, at the failing input.  [handleJoinRoom] overwrites [pollInterval]
    without cancelling the timer it held, so after a lost connection and a
    second join, leaving cancels only the second timer: the first one is
    still registered.  And a [getRoom] of the poll that was in flight when
    the user left writes the fetched room back into the store afterwards. *)
Theorem leave_leaks_poll_timer :
  (let c := run Sample.rejoin_then_leave Sample.mounted in
   classroomState (stores c) = lobby
   ∧ pollInterval (polling c) = None
   ∧ intervals (browser c) = [(1%nat, room_poll)])
  ∧ (let c := run Sample.leave_during_poll Sample.mounted in
     classroomState (stores c) = lobby
     ∧ classroomRoom (stores c) = Some Sample.room).
Proof. vm_compute. repeat split; reflexivity. Qed.

(** ** The polls *)

(** The room poll replaces the room record by the fetched one. *)
Lemma poll_replaces_room i rid updated c :
  requests (browser c) !! i = Some (req_getRoom rid) →
  classroomRoom (stores (request_settles i (Some updated) c)) = Some updated.
Proof. intros Hi. unfold request_settles. by rewrite Hi. Qed.

(** The lobby poll skips a tick while its refresh is in flight. *)
Lemma lobby_poll_skips c :
  roomListPollInFlight (polling c) = true → lobby_poll_tick c = c.
Proof.
  intros Hf. unfold lobby_poll_tick. rewrite Hf. by case_match.
Qed.

(** The callback of the room poll never consults an in-flight flag: every
    tick in an active room issues a request. *)
Lemma room_poll_always_requests c r :
  classroomState (stores c) = active → classroomRoom (stores c) = Some r →
  requests (browser (room_poll_tick c))
  = requests (browser c) ++ [req_getRoom (room_id r)].
Proof. intros Hs Hr. unfold room_poll_tick. by rewrite Hs, Hr. Qed.

(** C8, at the failing input.  Two ticks of the room poll with the first
    [getRoom] still in flight leave two room-snapshot requests in flight;
    the lobby poll, which has the in-flight flags, issues one. *)
Theorem room_poll_requests_overlap :
  requests (browser (run Sample.two_ticks Sample.in_room))
  = [req_getRoom "r1"; req_getRoom "r1"]
  ∧ requests (browser (run Sample.two_lobby_ticks Sample.mounted))
    = [req_lobby_refresh].
Proof. vm_compute. split; reflexivity. Qed.

(** ** REST error reporting *)

Lemma field_singleton k v : Rest.field k [(k, v)] = Some v.
Proof.
  unfold Rest.field. rewrite filter_cons_True by done.
  by rewrite filter_nil.
Qed.

Lemma throw_detail_cases fb res :
  (∀ fields d, Rest.body res = Some (Rest.JObj fields) →
     Rest.field "detail" fields = Some (Rest.JStr d) → d ≠ "" →
     Rest.throw_detail fb res
     = Rest.Rejected (Rest.Error_of (Rest.JStr d)))
  ∧ (∀ j, Rest.body res = Some j → j ≠ Rest.JNull →
       Rest.throw_detail fb res
       = Rest.Rejected
           (Rest.Error_of (Rest.or_else (detail_of j) (Rest.JStr fb))))
  ∧ (Rest.body res = Some Rest.JNull →
     Rest.throw_detail fb res = Rest.Rejected Rest.TypeError_of_null)
  ∧ (Rest.body res = None →
     Rest.throw_detail fb res
     = Rest.Rejected
         (Rest.Error_of
            (Rest.JStr (if String.eqb (Rest.statusText res) "" then fb
                        else Rest.statusText res)))).
Proof.
  unfold Rest.throw_detail. split; [|split; [|split]].
  - intros fields d -> Hd Hne. cbn. rewrite Hd. cbn.
    destruct (String.eqb_spec d ""); done.
  - intros j -> Hj. cbn. by destruct j.
  - by intros ->.
  - intros ->. cbn. rewrite field_singleton. cbn.
    by destruct (String.eqb (Rest.statusText res) "").
Qed.

(** C9, amended.  The wrappers that read [detail] are [createRoom],
    [listRooms], [getRoom], [updateRoom], [listRoomMembers], [deleteRoom],
    [manageToken], [getTeacherStatus], [requestTeacherRole],
    [listTeacherRoleRequests] and [reviewTeacherRoleRequest].  For these a
    non-ok response makes the call fail: with the body's [detail] when the
    JSON body is an object whose [detail] is a non-empty string; for every
    JSON body other than [null], with an error made of its [detail] if
    that is truthy and of the wrapper's generic message otherwise, so with
    the generic message when the body has no [detail], a falsy one, or is
    no object; with a [TypeError] when the JSON body is [null]; and, when
    the body is not JSON, with the response's status text (the generic
    message only if that is empty).  [getSession], [getSessionSummary] and
    [getDashboard] fail with a fixed message whatever the body says;
    [listSessions], [listCurriculumFiles], [getCurriculumTopics],
    [searchCurriculumConcepts] and [getCurriculumContext] do not fail on a
    non-ok response but resolve with an empty default.  On an ok response
    with a JSON body, every wrapper that returns [res.json()] resolves
    with the parsed body. *)
Theorem detail_or_fallback (w : Rest.Wrapper) (fb : string)
  (res : Rest.Response) :
  Rest.fallback w = Some fb → Rest.ok res = false →
  (∀ fields d, Rest.body res = Some (Rest.JObj fields) →
     Rest.field "detail" fields = Some (Rest.JStr d) → d ≠ "" →
     Rest.call w res = Rest.Rejected (Rest.Error_of (Rest.JStr d)))
  ∧ (∀ j, Rest.body res = Some j → j ≠ Rest.JNull →
       Rest.call w res
       = Rest.Rejected
           (Rest.Error_of (Rest.or_else (detail_of j) (Rest.JStr fb)))
       ∧ (from_option Rest.truthy false (detail_of j) = false →
          Rest.call w res = Rest.Rejected (Rest.Error_of (Rest.JStr fb))))
  ∧ (Rest.body res = Some Rest.JNull →
     Rest.call w res = Rest.Rejected Rest.TypeError_of_null)
  ∧ (Rest.body res = None →
     Rest.call w res
     = Rest.Rejected
         (Rest.Error_of
            (Rest.JStr (if String.eqb (Rest.statusText res) "" then fb
                        else Rest.statusText res))))
  ∧ Rest.call Rest.w_getSession res
    = Rest.Rejected (Rest.Error_of (Rest.JStr "Session not found"))
  ∧ Rest.call Rest.w_getSessionSummary res
    = Rest.Rejected (Rest.Error_of (Rest.JStr "Failed to get session summary"))
  ∧ Rest.call Rest.w_getDashboard res
    = Rest.Rejected (Rest.Error_of (Rest.JStr "Failed to fetch dashboard"))
  ∧ Rest.call Rest.w_listSessions res = Rest.Resolved (Some (Rest.JArr []))
  ∧ Rest.call Rest.w_listCurriculumFiles res
    = Rest.Resolved
        (Some (Rest.JObj [("files", Rest.JArr []);
                          ("available", Rest.JBool false)]))
  ∧ Rest.call Rest.w_getCurriculumTopics res
    = Rest.Resolved (Some (Rest.JArr []))
  ∧ Rest.call Rest.w_searchCurriculumConcepts res
    = Rest.Resolved (Some (Rest.JArr []))
  ∧ Rest.call Rest.w_getCurriculumContext res
    = Rest.Resolved (Some Rest.JNull)
  ∧ (∀ w' res' j, returns_body w' = true → Rest.ok res' = true →
       Rest.body res' = Some j →
       Rest.call w' res' = Rest.Resolved (Some j)).
Proof.
  intros Hfb Hok.
  assert (Rest.call w res = Rest.throw_detail fb res) as ->.
  { destruct w as [| | | | | | | | | |[|]| | | | | | | |];
      simplify_eq/=;
      unfold Rest.createRoom, Rest.listRooms, Rest.getRoom, Rest.updateRoom,
        Rest.listRoomMembers, Rest.deleteRoom, Rest.manageToken,
        Rest.getTeacherStatus, Rest.requestTeacherRole,
        Rest.listTeacherRoleRequests, Rest.reviewTeacherRoleRequest;
      by rewrite Hok. }
  destruct (throw_detail_cases fb res) as (H1 & H2 & H3 & H4).
  split; [exact H1|]. split.
  { intros j Hj Hnull. rewrite (H2 j Hj Hnull). split; [done|].
    unfold Rest.or_else. destruct (detail_of j) as [d|]; [|done]. cbn.
    by intros ->. }
  split; [exact H3|]. split; [exact H4|].
  cbn [Rest.call].
  unfold Rest.getSession, Rest.getSessionSummary, Rest.getDashboard,
    Rest.listSessions, Rest.listCurriculumFiles, Rest.getCurriculumTopics,
    Rest.searchCurriculumConcepts, Rest.getCurriculumContext.
  rewrite Hok. repeat (split; [reflexivity|]).
  intros w' res' j Hw Hok' Hj.
  destruct w' as [| | | | | | | | | |[|]| | | | | | | |];
    try discriminate Hw; cbn [Rest.call];
    unfold Rest.createRoom, Rest.getRoom, Rest.updateRoom,
      Rest.listRoomMembers, Rest.manageToken, Rest.getTeacherStatus,
      Rest.requestTeacherRole, Rest.reviewTeacherRoleRequest,
      Rest.getSession, Rest.getSessionSummary, Rest.getDashboard,
      Rest.listCurriculumFiles, Rest.getCurriculumContext, Rest.return_json;
    by rewrite Hok', Hj.
Qed.

Lemma detail_or_fallback_witness :
  Rest.call Rest.w_createRoom Sample.room_full
  = Rest.Rejected (Rest.Error_of (Rest.JStr "Room is full")).
Proof.
  destruct (detail_or_fallback Rest.w_createRoom "Failed to create room"
              Sample.room_full) as (H & _); [reflexivity..|].
  apply (H [("detail", Rest.JStr "Room is full")] "Room is full");
    [reflexivity|apply field_singleton|discriminate].
Defined.

(** C9 as stated fails: [getSession] ignores the body's [detail],
    [listSessions] does not fail at all, a body that is not JSON yields
    the status text, not the generic message, and a JSON body that is
    [null] yields a [TypeError]. *)
Lemma getSession_ignores_detail :
  ¬ reports_detail Rest.w_getSession
  ∧ ¬ reports_detail Rest.w_listSessions
  ∧ ¬ falls_back_without_json Rest.w_createRoom "Failed to create room"
  ∧ Rest.call Rest.w_createRoom
      {| Rest.ok := false; Rest.statusText := "Bad Request";
         Rest.body := Some Rest.JNull |}
    = Rest.Rejected Rest.TypeError_of_null.
Proof.
  split; [|split; [|split; [|reflexivity]]].
  - intros H.
    specialize (H Sample.room_full [("detail", Rest.JStr "Room is full")]
                  "Room is full").
    discriminate H; [reflexivity..|apply field_singleton|discriminate].
  - intros H.
    specialize (H Sample.room_full [("detail", Rest.JStr "Room is full")]
                  "Room is full").
    discriminate H; [reflexivity..|apply field_singleton|discriminate].
  - intros H. specialize (H Sample.bad_gateway).
    discriminate H; reflexivity.
Qed.

(** ** Decoding PCM chunks *)

Lemma int16_le_range lo hi : -32768 ≤ int16_le lo hi < 32768.
Proof.
  unfold int16_le.
  pose proof (Byte.to_N_bounded lo). pose proof (Byte.to_N_bounded hi).
  case_match; [apply Z.ltb_lt in H1|apply Z.ltb_ge in H1]; lia.
Qed.

Lemma Int16Array_length : ∀ int16 rawBytes,
  Int16Array rawBytes = Some int16 →
  length rawBytes = (2 * length int16)%nat.
Proof.
  induction int16 as [|k int16 IH]; intros rawBytes H.
  - destruct rawBytes as [|lo [|hi rest]]; [done|done|].
    simpl in H. destruct (Int16Array rest); done.
  - destruct rawBytes as [|lo [|hi rest]]; [done|done|].
    simpl in H. destruct (Int16Array rest) as [l|] eqn:E; [|done].
    simpl in H. injection H as _ ->. simpl. rewrite (IH rest E). lia.
Qed.

Lemma Int16Array_lookup : ∀ int16 rawBytes i lo hi,
  Int16Array rawBytes = Some int16 →
  rawBytes !! (2 * i)%nat = Some lo →
  rawBytes !! (2 * i + 1)%nat = Some hi →
  int16 !! i = Some (int16_le lo hi).
Proof.
  induction int16 as [|k int16 IH]; intros rawBytes i lo hi H Hlo Hhi.
  - apply Int16Array_length in H. apply lookup_lt_Some in Hlo.
    simpl in H. lia.
  - destruct rawBytes as [|b0 [|b1 rest]]; [done|done|].
    simpl in H. destruct (Int16Array rest) as [l|] eqn:E; [|done].
    simpl in H. injection H as <- ->.
    destruct i as [|i].
    + simpl in Hlo, Hhi. by simplify_eq.
    + replace (2 * S i)%nat with (S (S (2 * i))) in Hlo by lia.
      replace (2 * S i + 1)%nat with (S (S (2 * i + 1))) in Hhi by lia.
      simpl in Hlo, Hhi. simpl. by apply (IH rest).
Qed.

Lemma Int16Array_range : ∀ int16 rawBytes,
  Int16Array rawBytes = Some int16 →
  Forall (λ k, -32768 ≤ k < 32768) int16.
Proof.
  induction int16 as [|k int16 IH]; intros rawBytes H; [constructor|].
  destruct rawBytes as [|b0 [|b1 rest]]; [done|done|].
  simpl in H. destruct (Int16Array rest) as [l|] eqn:E; [|done].
  simpl in H. injection H as <- ->.
  constructor; [apply int16_le_range|by apply (IH rest)].
Qed.

Lemma to_float32_range k :
  -32768 ≤ k < 32768 → (-1 <= to_float32 k)%Q ∧ (to_float32 k < 1)%Q.
Proof.
  intros Hk. unfold to_float32, Qle, Qlt. simpl. lia.
Qed.

(** The division by 32768 is exact in 32-bit floats, so the rational is
    the value the typed array stores. *)
Lemma to_float32_exact k : -32768 ≤ k < 32768 → binary32 (to_float32 k).
Proof.
  intros Hk. exists k, (-15). split; [lia|]. split; [lia|].
  unfold to_float32. change (Qpower 2 (-15)) with (1 # 32768)%Q.
  unfold Qeq. simpl. lia.
Qed.

(** A chunk whose byte length is odd is not queued at all. *)
Lemma odd_chunk_rejected rawBytes c :
  Nat.odd (length rawBytes) = true → queueAudioChunk rawBytes c = None.
Proof.
  intros Hodd. unfold queueAudioChunk.
  destruct (Int16Array rawBytes) as [int16|] eqn:E; [|done].
  apply Int16Array_length in E. rewrite E in Hodd.
  rewrite Nat.odd_mul in Hodd. done.
Qed.

(** C10.  When the playback queue accepts a chunk of [n] bytes, the buffer
    it appends has [n / 2] samples, sample [i] is the [i]-th little-endian
    signed 16-bit integer of the chunk divided by 32768, and every sample
    lies in the interval from -1 (included) to 1 (excluded). *)
Theorem decoded_samples (rawBytes : list Byte.byte) (c c' : Client) :
  queueAudioChunk rawBytes c = Some c' →
  ∃ float32 : Float32Array,
    c' = (if isPlayingAudio (audio c) then id else playNextChunk)
           (audioQueue_set (audioQueue (audio c) ++ [float32]) c)
    ∧ length float32 = (length rawBytes / 2)%nat
    ∧ (∀ i lo hi,
         rawBytes !! (2 * i)%nat = Some lo →
         rawBytes !! (2 * i + 1)%nat = Some hi →
         float32 !! i = Some (Qmake (int16_le lo hi) 32768))
    ∧ Forall (λ q, (-1 <= q)%Q ∧ (q < 1)%Q) float32.
Proof.
  unfold queueAudioChunk.
  destruct (Int16Array rawBytes) as [int16|] eqn:E; [|done].
  cbn [mbind option_bind]. intros [= <-].
  exists (to_float32 <$> int16). split; [|split; [|split]].
  - cbn. by destruct (isPlayingAudio (audio c)).
  - rewrite length_fmap, (Int16Array_length _ _ E).
    symmetry. rewrite Nat.mul_comm. apply Nat.div_mul. done.
  - intros i lo hi Hlo Hhi. rewrite list_lookup_fmap.
    by rewrite (Int16Array_lookup _ _ _ _ _ E Hlo Hhi).
  - apply Forall_fmap. eapply Forall_impl; [by apply Int16Array_range in E|].
    intros k Hk. by apply to_float32_range.
Qed.

Lemma decoded_samples_witness :
  ∃ float32 : Float32Array,
    float32 !! 0%nat = Some (Qmake (-32768) 32768)
    ∧ float32 !! 1%nat = Some (Qmake 32767 32768)
    ∧ length float32 = 2%nat.
Proof.
  destruct (decoded_samples Sample.pcm Sample.in_room
              (default Sample.in_room
                 (queueAudioChunk Sample.pcm Sample.in_room)))
    as (float32 & _ & Hlen & Hs & _); [vm_compute; reflexivity|].
  exists float32. split; [|split].
  - apply (Hs 0%nat Byte.x00 Byte.x80); reflexivity.
  - apply (Hs 1%nat Byte.xff Byte.x7f); reflexivity.
  - exact Hlen.
Defined.

(** * Further properties *)

(** ** Reactions *)

Lemma counts_of_react_to mid emoji delta m :
  counts_of (react_to mid emoji delta m)
  = if reaction_target mid m
    then count_reaction emoji delta (counts_of m) else counts_of m.
Proof.
  unfold react_to, reaction_target.
  by destruct (bool_decide (msg_id m = mid)
               || bool_decide (msg_db_message_id m = Some mid)).
Qed.

Lemma read_own k o v : o !! k = Some v → Js.read k o = Js.own v.
Proof. unfold Js.read. by intros ->. Qed.

Lemma read_absent k o :
  o !! k = None →
  Js.read k o
  = if bool_decide (k ∈ Js.inherited_methods) then Js.method
    else if bool_decide (k = "__proto__") then Js.prototype
    else Js.undefined.
Proof. unfold Js.read. by intros ->. Qed.

(** What a reaction writes for a number found or for nothing found. *)
Lemma added_count emoji delta was (P : Js.Num → Prop)
  (counts : gmap string Js.Num) :
  (∀ n, 0 < n → P (Js.num n)) →
  map_Forall (λ _, P) counts →
  map_Forall (λ _, P)
    (let n := Z.max 0 (was + delta) in
     let counts' := <[emoji := Js.num n]> counts in
     if bool_decide (n = 0) then delete emoji counts' else counts').
Proof.
  intros HP Hall. cbv zeta. case_bool_decide as Hn.
  - rewrite delete_insert_eq. by apply map_Forall_delete.
  - apply map_Forall_insert_2; [apply HP; lia|done].
Qed.

Lemma count_reaction_not_below emoji delta m :
  no_count_below_one m →
  map_Forall (λ _ v, match v with Js.num n => 0 < n | Js.NaN => True end)
    (count_reaction emoji delta (counts_of m)).
Proof.
  unfold no_count_below_one, count_reaction. intros Hall.
  destruct (Js.read emoji (counts_of m)) as [[n|]| | |];
    try (by apply added_count); [|done].
  by apply map_Forall_insert_2.
Qed.

Lemma count_reaction_positive emoji delta m :
  emoji ∉ Js.inherited_methods →
  counts_positive m →
  map_Forall (λ _ v, ∃ n, v = Js.num n ∧ 0 < n)
    (count_reaction emoji delta (counts_of m)).
Proof.
  unfold counts_positive, count_reaction. intros Hplain Hall.
  assert (∀ n, 0 < n → ∃ n', Js.num n = Js.num n' ∧ 0 < n') as HP by eauto.
  destruct (counts_of m !! emoji) as [v|] eqn:E.
  - rewrite (read_own _ _ _ E). destruct v; by apply added_count.
  - rewrite (read_absent _ _ E), bool_decide_eq_false_2 by done.
    case_bool_decide; [done|]. by apply added_count.
Qed.

(** X1.  [updateMessageReaction] never leaves an emoji with a count of
    zero or less, whatever the message id, the emoji and the delta: if
    every count listed in the log is a number above zero or [NaN], so is
    every count afterwards.  For an emoji that is not the name of a method
    inherited from [Object.prototype], counts that are numbers above zero
    stay numbers above zero.  For an emoji that is such a name
    ([constructor], [toString], ...) a message the id names that lists no
    count for it gets the count [NaN]. *)
Theorem reaction_counts_stay_positive (messageId emoji : string) (delta : Z)
  (c : Client) :
  (Forall no_count_below_one (log c) →
   Forall no_count_below_one
     (log (updateMessageReaction messageId emoji delta c)))
  ∧ (emoji ∉ Js.inherited_methods →
     Forall counts_positive (log c) →
     Forall counts_positive
       (log (updateMessageReaction messageId emoji delta c)))
  ∧ (emoji ∈ Js.inherited_methods →
     ∀ i m, log c !! i = Some m →
       reaction_target messageId m = true →
       counts_of m !! emoji = None →
       counts_of <$> log (updateMessageReaction messageId emoji delta c) !! i
       = Some (<[emoji := Js.NaN]> (counts_of m))).
Proof.
  unfold log, updateMessageReaction. cbn. split; [|split].
  - intros H. apply Forall_fmap. eapply Forall_impl; [exact H|].
    intros m Hm. unfold no_count_below_one at 1. cbn.
    rewrite counts_of_react_to. destruct (reaction_target messageId m).
    + by apply count_reaction_not_below.
    + exact Hm.
  - intros Hplain H. apply Forall_fmap. eapply Forall_impl; [exact H|].
    intros m Hm. unfold counts_positive at 1. cbn.
    rewrite counts_of_react_to. destruct (reaction_target messageId m).
    + by apply count_reaction_positive.
    + exact Hm.
  - intros Hin i m Hi Ht Hnone. rewrite list_lookup_fmap, Hi. cbn.
    rewrite counts_of_react_to, Ht. unfold count_reaction.
    by rewrite (read_absent _ _ Hnone), bool_decide_eq_true_2.
Qed.

Lemma react_to_target mid emoji delta m :
  reaction_target mid m = true →
  react_to mid emoji delta m
  = msg_with_reactions (counts_of (react_to mid emoji delta m)) m.
Proof.
  intros Ht. unfold react_to at 2. unfold react_to.
  fold (reaction_target mid m). rewrite Ht. reflexivity.
Qed.

Lemma react_to_other mid emoji delta m :
  reaction_target mid m = false → react_to mid emoji delta m = m.
Proof.
  intros Ht. unfold react_to. fold (reaction_target mid m). by rewrite Ht.
Qed.

(** Adding one and removing one gives the counts back, for every emoji:
    a positive count goes up and down again, a new count comes and goes,
    the [NaN] stored for an inherited method is read as zero by the
    removal and deleted, and nothing is stored for [__proto__]. *)
Lemma count_reaction_add_remove emoji (counts : gmap string Js.Num) :
  map_Forall (λ _ v, ∃ n, v = Js.num n ∧ 0 < n) counts →
  count_reaction emoji (-1) (count_reaction emoji 1 counts) = counts.
Proof.
  intros Hpos. unfold count_reaction at 2.
  destruct (counts !! emoji) as [v|] eqn:E.
  - rewrite (read_own _ _ _ E).
    destruct (Hpos emoji v E) as (n & -> & Hn). cbv zeta.
    rewrite (bool_decide_eq_false_2 (0 `max` (n + 1) = 0)) by lia.
    unfold count_reaction.
    rewrite (read_own _ _ (Js.num (0 `max` (n + 1))))
      by apply lookup_insert_eq.
    cbv zeta. rewrite bool_decide_eq_false_2 by lia.
    rewrite insert_insert_eq.
    replace (0 `max` (0 `max` (n + 1) + -1)) with n by lia.
    by apply insert_id.
  - rewrite (read_absent _ _ E).
    case_bool_decide as Hm; [|case_bool_decide as Hp].
    + unfold count_reaction.
      rewrite (read_own _ _ Js.NaN) by apply lookup_insert_eq.
      cbv zeta. rewrite bool_decide_eq_true_2 by lia.
      rewrite delete_insert_eq, delete_insert_eq. by apply delete_id.
    + unfold count_reaction.
      by rewrite (read_absent _ _ E), bool_decide_eq_false_2,
        bool_decide_eq_true_2.
    + cbv zeta.
      rewrite (bool_decide_eq_false_2 (0 `max` (0 + 1) = 0)) by lia.
      unfold count_reaction.
      rewrite (read_own _ _ (Js.num (0 `max` (0 + 1))))
        by apply lookup_insert_eq.
      cbv zeta. rewrite bool_decide_eq_true_2 by lia.
      rewrite delete_insert_eq, delete_insert_eq. by apply delete_id.
Qed.

Lemma react_to_add_remove mid emoji m :
  counts_positive m →
  react_to mid emoji (-1) (react_to mid emoji 1 m)
  = if reaction_target mid m then with_counts_written m else m.
Proof.
  intros Hpos.
  assert (reaction_target mid (react_to mid emoji 1 m) = reaction_target mid m)
    as Ht.
  { unfold react_to, reaction_target. by case_match. }
  destruct (reaction_target mid m) eqn:E.
  - rewrite (react_to_target mid emoji (-1)) by done.
    rewrite (react_to_target mid emoji 1 m) at 2 by done.
    unfold with_counts_written.
    change (msg_with_reactions ?a (msg_with_reactions ?b m))
      with (msg_with_reactions a m).
    f_equal.
    rewrite counts_of_react_to, Ht, counts_of_react_to, E.
    by apply count_reaction_add_remove.
  - by rewrite !react_to_other.
Qed.

(** X2.  Adding a reaction and removing it again gives the log back,
    whatever the emoji: the messages the id names get their reaction map
    written out (a missing map becomes the empty one) and are otherwise as
    before, the other messages are untouched.  The counts listed in the
    log are taken to be numbers above zero. *)
Theorem reaction_add_then_remove (messageId emoji : string) (c : Client) :
  Forall counts_positive (log c) →
  log (updateMessageReaction messageId emoji (-1)
         (updateMessageReaction messageId emoji 1 c))
  = (λ m, if reaction_target messageId m then with_counts_written m else m)
      <$> log c.
Proof.
  intros H. unfold log, updateMessageReaction. cbn.
  rewrite <- list_fmap_compose. apply Forall_fmap_ext_1.
  eapply Forall_impl; [exact H|]. intros m Hm. by apply react_to_add_remove.
Qed.

Lemma reaction_counts_stay_positive_witness :
  Forall counts_positive
    (log (updateMessageReaction "m1" "+1" (-5)
            (classroomMessages_set [Sample.liked] Sample.in_room)))
  ∧ counts_of <$>
      log (updateMessageReaction "m1" "toString" 1
             (classroomMessages_set [Sample.liked] Sample.in_room)) !! 0%nat
    = Some (<["toString" := Js.NaN]> (counts_of Sample.liked)).
Proof.
  split.
  - apply (reaction_counts_stay_positive "m1" "+1" (-5)
             (classroomMessages_set [Sample.liked] Sample.in_room)).
    + apply (bool_decide_unpack _). by vm_compute.
    + apply Forall_singleton. unfold counts_positive, counts_of. cbn.
      apply map_Forall_singleton. exists 2. split; [reflexivity|lia].
  - apply (reaction_counts_stay_positive "m1" "toString" 1
             (classroomMessages_set [Sample.liked] Sample.in_room));
      [|reflexivity..].
    apply (bool_decide_unpack _). by vm_compute.
Defined.

Lemma reaction_add_then_remove_witness :
  log (updateMessageReaction "m1" "toString" (-1)
         (updateMessageReaction "m1" "toString" 1
            (classroomMessages_set [Sample.liked] Sample.in_room)))
  = [Sample.liked].
Proof.
  rewrite (reaction_add_then_remove "m1" "toString"
             (classroomMessages_set [Sample.liked] Sample.in_room)).
  - reflexivity.
  - apply Forall_singleton. unfold counts_positive, counts_of. cbn.
    apply map_Forall_singleton. exists 2. split; [reflexivity|lia].
Defined.

(** ** Room membership *)

Lemma classroomRoom_update_update f g c :
  classroomRoom_update f (classroomRoom_update g c)
  = classroomRoom_set (f (g (classroomRoom (stores c)))) c.
Proof. reflexivity. Qed.

Lemma room_user_ids_joined now u c :
  room_user_ids (handleWsMessage now (user_joined u) c)
  = if bool_decide (u_user_id u ∈ room_user_ids c) then room_user_ids c
    else match classroomRoom (stores c) with
         | Some _ => room_user_ids c ++ [u_user_id u]
         | None => []
         end.
Proof.
  unfold room_user_ids. cbn.
  destruct (classroomRoom (stores c)) as [r|]; cbn.
  - assert (Exists (λ x, u_user_id x = u_user_id u) (users r)
            ↔ u_user_id u ∈ u_user_id <$> users r) as Hiff.
    { rewrite Exists_exists, list_elem_of_fmap.
      split; intros (x & H1 & H2); exists x; by split. }
    destruct (decide (u_user_id u ∈ u_user_id <$> users r)) as [Hin|Hin].
    + rewrite !bool_decide_eq_true_2 by tauto. done.
    + rewrite !bool_decide_eq_false_2 by tauto. cbn. by rewrite fmap_app.
  - by case_bool_decide.
Qed.

Lemma filter_user_ids uid (l : list ClassroomUser) :
  u_user_id <$> filter (λ x, u_user_id x ≠ uid) l
  = filter (λ i, i ≠ uid) (u_user_id <$> l).
Proof.
  induction l as [|x l IH]; [done|].
  rewrite fmap_cons, !filter_cons.
  destruct (decide (u_user_id x ≠ uid)); [|done].
  by rewrite fmap_cons, IH.
Qed.

Lemma room_user_ids_left now uid c :
  room_user_ids (handleWsMessage now (user_left uid) c)
  = filter (λ i, i ≠ uid) (room_user_ids c).
Proof.
  unfold room_user_ids. cbn.
  destruct (classroomRoom (stores c)) as [r|]; cbn; [|done].
  apply filter_user_ids.
Qed.

Lemma member_event_NoDup now e c :
  NoDup (room_user_ids c) →
  NoDup (room_user_ids (handleWsMessage now (member_frame e) c)).
Proof.
  intros Hnd. destruct e as [u|uid]; cbn [member_frame].
  - rewrite room_user_ids_joined. case_bool_decide as Hin; [done|].
    destruct (classroomRoom (stores c)); [|constructor].
    apply NoDup_app. split; [done|]. split; [|apply NoDup_singleton].
    intros x Hx ->%list_elem_of_singleton. done.
  - rewrite room_user_ids_left. by apply NoDup_filter.
Qed.

(** X3.  A [user_joined] frame that is delivered twice has the effect of
    one delivery: the user is listed once and counted once. *)
Theorem user_joined_idempotent (now : Z) (u : ClassroomUser) (c : Client) :
  handleWsMessage now (user_joined u) (handleWsMessage now (user_joined u) c)
  = handleWsMessage now (user_joined u) c.
Proof.
  cbn [handleWsMessage]. rewrite classroomRoom_update_update.
  unfold classroomRoom_update. f_equal.
  destruct (classroomRoom (stores c)) as [r|]; [|done]. cbn. f_equal.
  destruct (decide (Exists (λ x, u_user_id x = u_user_id u) (users r)))
    as [Hin|Hin].
  - rewrite (bool_decide_eq_true_2 _ Hin). by rewrite (bool_decide_eq_true_2 _ Hin).
  - rewrite (bool_decide_eq_false_2 _ Hin).
    rewrite bool_decide_eq_true_2; [done|].
    cbn. apply Exists_app. right. by constructor.
Qed.

Lemma room_count_joined now u c r :
  classroomRoom (stores c) = Some r →
  ∃ r2, classroomRoom (stores (handleWsMessage now (user_joined u) c))
        = Some r2
        ∧ user_count r2 - Z.of_nat (length (users r2))
          = user_count r - Z.of_nat (length (users r)).
Proof.
  intros Hr. cbn. rewrite Hr. cbn. eexists. split; [done|].
  case_bool_decide; [done|]. cbn. rewrite length_app. cbn. lia.
Qed.

Lemma length_filter_NoDup uid (ids : list string) :
  NoDup ids → uid ∈ ids →
  S (length (filter (λ i, i ≠ uid) ids)) = length ids.
Proof.
  induction 1 as [|i ids Hi Hnd IH]; intros Hin.
  - by apply elem_of_nil in Hin.
  - rewrite filter_cons. destruct (decide (i ≠ uid)) as [Hne|Heq].
    + cbn. f_equal. apply IH. apply elem_of_cons in Hin as [->|?]; done.
    + apply dec_stable in Heq as ->. cbn. f_equal.
      clear IH Hin Hnd. induction ids as [|j ids IH]; [done|].
      rewrite filter_cons. apply not_elem_of_cons in Hi as [Hne Hi].
      rewrite decide_True by done. cbn. f_equal. by apply IH.
Qed.

Lemma member_event_count now e c :
  NoDup (room_user_ids c) → count_matches c →
  match e with me_left uid => uid ∈ room_user_ids c | me_joined _ => True end →
  count_matches (handleWsMessage now (member_frame e) c).
Proof.
  intros Hnd Hcount Hturn r2 Hr2.
  destruct e as [u|uid]; cbn [member_frame] in *.
  - destruct (classroomRoom (stores c)) as [r|] eqn:Er.
    + destruct (room_count_joined now u c r Er) as (r3 & Hr3 & Hd).
      rewrite Hr2 in Hr3. injection Hr3 as <-.
      specialize (Hcount r Er). lia.
    + cbn in Hr2. rewrite Er in Hr2. done.
  - pose proof (room_user_ids_left now uid c) as Hids.
    unfold room_user_ids in Hids, Hnd, Hturn. rewrite Hr2 in Hids.
    cbn in Hids. cbn in Hr2.
    destruct (classroomRoom (stores c)) as [r|] eqn:Er; [|done].
    specialize (Hcount r Er).
    cbn in Hr2. injection Hr2 as <-. cbn in *.
    pose proof (length_filter_NoDup uid _ Hnd Hturn) as Hlen.
    rewrite <- Hids in Hlen. rewrite !length_fmap in Hlen.
    rewrite Hcount. lia.
Qed.

(** X4.  While [user_joined] and [user_left] frames arrive in turn (a
    [user_left] names a listed user), no user is listed twice and
    [user_count] is the length of [users], after every frame, provided
    both hold at the start. *)
Theorem members_in_turn (now : Z) (evs : list MemberEvent) (c : Client) :
  NoDup (room_user_ids c) → count_matches c → leaves_in_turn now evs c →
  ∀ k, NoDup (room_user_ids (members now (take k evs) c))
       ∧ count_matches (members now (take k evs) c).
Proof.
  revert c. induction evs as [|e evs IH]; intros c Hnd Hcount Hturn k.
  - by rewrite take_nil.
  - destruct k as [|k]; [done|]. destruct Hturn as [He Hturn]. cbn.
    apply IH; [by apply member_event_NoDup| |done].
    by apply member_event_count.
Qed.

Lemma members_in_turn_witness :
  count_matches
    (members 4 (take 2 [me_joined Sample.bob; me_left "u2"]) Sample.alone).
Proof.
  apply (members_in_turn 4 [me_joined Sample.bob; me_left "u2"]
           Sample.alone).
  - vm_compute. constructor.
  - intros r Hr. vm_compute in Hr. injection Hr as <-. reflexivity.
  - cbn [leaves_in_turn]. split; [done|]. split; [|done].
    vm_compute. apply list_elem_of_here.
Defined.

(** X5.  A user who joins and leaves again leaves the client state as it
    was: [user_left] undoes [user_joined] for a user that was not listed,
    in a room whose count is not negative. *)
Theorem user_joined_then_left (now : Z) (u : ClassroomUser) (c : Client)
  (r : ClassroomRoom) :
  classroomRoom (stores c) = Some r →
  u_user_id u ∉ room_user_ids c → 0 ≤ user_count r →
  handleWsMessage now (user_left (u_user_id u))
    (handleWsMessage now (user_joined u) c) = c.
Proof.
  intros Hr Hin Hc. cbn [handleWsMessage]. rewrite classroomRoom_update_update.
  rewrite Hr. cbn [fmap option_fmap option_map].
  unfold room_user_ids in Hin. rewrite Hr in Hin. cbn in Hin.
  rewrite bool_decide_eq_false_2.
  2:{ rewrite Exists_exists. intros (x & Hx & He). apply Hin.
      apply list_elem_of_fmap. by exists x. }
  cbn [room_with_users users user_count].
  rewrite filter_app, filter_cons, filter_nil, decide_False by (by intros ?).
  rewrite app_nil_r.
  assert (filter (λ x, u_user_id x ≠ u_user_id u) (users r) = users r) as ->.
  { clear Hr. induction (users r) as [|x l IH]; [done|].
    cbn in Hin. apply not_elem_of_cons in Hin as [Hne Hin].
    rewrite filter_cons, decide_True by done. f_equal. by apply IH. }
  replace (0 `max` (user_count r + 1 - 1)) with (user_count r) by lia.
  destruct c as [s a sp po pr b]. destruct s. cbn in *. subst.
  destruct r. reflexivity.
Qed.

Lemma user_joined_then_left_witness :
  handleWsMessage 4 (user_left "u2")
    (handleWsMessage 4 (user_joined Sample.bob) Sample.in_room)
  = Sample.in_room.
Proof.
  apply (user_joined_then_left 4 Sample.bob Sample.in_room Sample.room).
  - reflexivity.
  - vm_compute. apply not_elem_of_nil.
  - vm_compute. discriminate.
Defined.

(** ** Removal from a room, and commands on a closed socket *)

Lemma error_set_clear_poll e c :
  match pollInterval (polling (classroomError_set e c)) with
  | Some h => pollInterval_set None (clearInterval h (classroomError_set e c))
  | None => classroomError_set e c
  end
  = classroomError_set e
      match pollInterval (polling c) with
      | Some h => pollInterval_set None (clearInterval h c)
      | None => c
      end.
Proof. cbn. by destruct (pollInterval (polling c)). Qed.

Lemma error_set_stop e c :
  stopAudioPlayback (classroomError_set e c)
  = classroomError_set e (stopAudioPlayback c).
Proof. reflexivity. Qed.

Lemma error_set_close_context e c :
  match audioContext (audio (classroomError_set e c)) with
  | Some h => audioContext_set None (ctx_close h (classroomError_set e c))
  | None => classroomError_set e c
  end
  = classroomError_set e
      match audioContext (audio c) with
      | Some h => audioContext_set None (ctx_close h c)
      | None => c
      end.
Proof. cbn. by destruct (audioContext (audio c)). Qed.

Lemma error_set_disconnect e c :
  disconnectSpeakerPipeline (classroomError_set e c)
  = classroomError_set e (disconnectSpeakerPipeline c).
Proof.
  unfold disconnectSpeakerPipeline. cbn.
  by destruct (speakerPipecat (speaker c)).
Qed.

Lemma resetClassroom_error_set e c :
  resetClassroom (classroomError_set e c) = resetClassroom c.
Proof.
  unfold resetClassroom. cbn.
  destruct (classroomWs (stores c)) as [h|]; [|reflexivity].
  destruct (sockets (browser c) !! h) as [w|]; [|reflexivity].
  by case_bool_decide.
Qed.

(** X6.  A [kicked] frame does what leaving the room does, and nothing
    else: the notice it stores in [classroomError] is cleared by the reset
    of the same handler run, so the error store is empty afterwards. *)
Theorem kicked_message_is_dropped (now : Z) (message : option string)
  (c : Client) :
  handleWsMessage now (kicked message) c = handleLeaveRoom c
  ∧ classroomError (stores (handleWsMessage now (kicked message) c)) = "".
Proof.
  assert (handleWsMessage now (kicked message) c = handleLeaveRoom c) as H.
  { cbn [handleWsMessage]. unfold handleLeaveRoom. cbv zeta.
    rewrite error_set_clear_poll, error_set_stop, error_set_close_context,
      error_set_disconnect, resetClassroom_error_set. reflexivity. }
  split; [exact H|]. rewrite H. by destruct (leave_resets c) as [-> _].
Qed.

(** X7.  While the room socket is not open, the commands of the UI that
    only send a frame change nothing (token requests, hand raises and their
    resolution, reactions, topic requests, teacher actions), and the two
    that also write local state ([handleSetPlaybackMode],
    [handleSendMessage]) send nothing. *)
Theorem commands_need_open_socket (now : Z) (c : Client) :
  ws_is_open c = false →
  requestToken c = c ∧ releaseToken c = c
  ∧ (∀ to, passToken to c = c)
  ∧ (∀ question, handleRaiseHand question c = c)
  ∧ handleLowerHand c = c
  ∧ hand_button_click c = c
  ∧ (∀ raiseId, handleAcknowledgeHand raiseId c = c
                ∧ handleDismissHand raiseId c = c)
  ∧ (∀ messageId emoji, handleReaction messageId emoji c = c)
  ∧ handleRequestTopics c = c
  ∧ (∀ action payload, handleTeacherAction now action payload c = c)
  ∧ (∀ m, sockets (browser (handleSetPlaybackMode m c)) = sockets (browser c))
  ∧ (∀ txt, sockets (browser (handleSendMessage now txt c))
            = sockets (browser c)).
Proof.
  intros Hclosed.
  assert (∀ o c', ws_is_open c' = false → ws_send_if_open o c' = c') as Hsend.
  { intros o c'. unfold ws_is_open, ws_send_if_open.
    repeat case_match; congruence. }
  assert (∀ o, ws_send_if_open o c = c) as Hc by (intros; by apply Hsend).
  unfold requestToken, releaseToken, passToken, handleAcknowledgeHand,
    handleDismissHand, handleReaction, handleRequestTopics.
  unfold hand_button_click, handleRaiseHand, handleLowerHand,
    handleTeacherAction.
  rewrite Hclosed.
  split; [apply Hc|]. split; [apply Hc|]. split; [intros; apply Hc|].
  split; [done|]. split; [done|]. split; [by case_match|].
  split; [intros; split; apply Hc|]. split; [intros; apply Hc|].
  split; [apply Hc|]. split; [intros; by case_match|]. split.
  - intros m. unfold handleSetPlaybackMode. cbv zeta.
    rewrite Hsend; [by case_match|].
    destruct (bool_decide (m = text_only)); exact Hclosed.
  - intros txt. unfold handleSendMessage. case_match; [done|].
    rewrite Hsend; [done|exact Hclosed].
Qed.

Lemma commands_need_open_socket_witness :
  handleRaiseHand (Some "why?") Sample.mounted = Sample.mounted
  ∧ isHandRaised (stores (handleRaiseHand (Some "why?") Sample.mounted))
    = false.
Proof.
  destruct (commands_need_open_socket 1 Sample.mounted)
    as (_ & _ & _ & H & _); [reflexivity|].
  split; [apply H|]. by rewrite H.
Defined.

(** ** Resolved hand raises and the complete bot response *)

Lemma room_raises_resolved now dismiss raise c :
  room_raises (handleWsMessage now (resolved_frame dismiss raise) c)
  = (λ hr, if bool_decide (hr_id hr = hr_id raise)
           then merge_raise hr raise else hr) <$> room_raises c.
Proof.
  unfold room_raises.
  destruct dismiss; cbn; destruct (self_is _ _); cbn;
    by destruct (classroomRoom (stores c)).
Qed.

Lemma length_filter_fmap_le {A} (P : A → Prop) `{!∀ x, Decision (P x)}
  (f : A → A) (l : list A) :
  (∀ x, P (f x) → P x) →
  (length (filter P (f <$> l)) ≤ length (filter P l))%nat.
Proof.
  intros Hf. induction l as [|x l IH]; [done|].
  rewrite fmap_cons, !filter_cons.
  destruct (decide (P (f x))) as [Hp|Hp].
  - rewrite decide_True by auto. cbn. lia.
  - destruct (decide (P x)); cbn; lia.
Qed.

Lemma resolved_adds_no_pending (now : Z) (dismiss : bool)
  (raise : HandRaise) (c : Client) :
  hr_status raise ≠ pending →
  ∀ uid, (length (pending_of uid
                    (handleWsMessage now (resolved_frame dismiss raise) c))
          ≤ length (pending_of uid c))%nat.
Proof.
  intros Hst uid. unfold pending_of. rewrite room_raises_resolved.
  apply length_filter_fmap_le. intros hr.
  case_bool_decide; [|done]. cbn. tauto.
Qed.

(** X8.  A [hand_acknowledged] or [hand_dismissed] frame rewrites the
    raises with the id of the frame's raise and no other: the ids stay as
    they are and in place, a raise with another id is untouched, a raise
    with that id takes the status and the user of the frame's raise.  The
    frame adds no pending raise for any user unless it carries one, and it
    lowers the local hand when the raise is the local user's. *)
Theorem hand_resolved_keeps_ids (now : Z) (dismiss : bool)
  (raise : HandRaise) (c : Client) :
  let c' := handleWsMessage now (resolved_frame dismiss raise) c in
  hr_id <$> room_raises c' = hr_id <$> room_raises c
  ∧ (∀ i hr, room_raises c !! i = Some hr → hr_id hr ≠ hr_id raise →
             room_raises c' !! i = Some hr)
  ∧ (∀ i hr, room_raises c !! i = Some hr → hr_id hr = hr_id raise →
             ∃ hr', room_raises c' !! i = Some hr'
                    ∧ hr_status hr' = hr_status raise
                    ∧ hr_user_id hr' = hr_user_id raise)
  ∧ (hr_status raise ≠ pending →
     ∀ uid, (length (pending_of uid c') ≤ length (pending_of uid c))%nat)
  ∧ (self_is (hr_user_id raise) c = true → isHandRaised (stores c') = false).
Proof.
  intros c'. subst c'.
  split; [|split; [|split; [|split;
    [intros Hst uid; by apply resolved_adds_no_pending|]]]];
    rewrite ?room_raises_resolved.
  - rewrite <- list_fmap_compose. apply list_fmap_ext. intros i hr _. cbn.
    by case_bool_decide.
  - intros i hr Hi Hne. rewrite list_lookup_fmap, Hi. cbn.
    by rewrite bool_decide_eq_false_2.
  - intros i hr Hi He. rewrite list_lookup_fmap, Hi. cbn.
    rewrite bool_decide_eq_true_2 by done. by eexists.
  - intros Hself.
    assert (∀ f c0, self_is (hr_user_id raise) (classroomRoom_update f c0)
                    = self_is (hr_user_id raise) c0) as Hs by done.
    destruct dismiss; cbn [resolved_frame handleWsMessage];
      by rewrite Hs, Hself.
Qed.

(** X9.  A complete [bot_response] closes the stream: the log is the
    settled messages with one assistant message at the end (a streaming
    tail is replaced by it), which carries the translated text if there is
    one and is not streaming; no streaming tail is left and the typing
    indicator of the room view is off. *)
Theorem bot_response_closes_stream (now : Z) (txt : string)
  (translated_text : option string) (c : Client) :
  let c' := handleWsMessage now (bot_response txt translated_text) c in
  (∃ m, log c' = settled (log c) ++ [m]
        ∧ msg_content m = Js.or_str translated_text txt
        ∧ msg_role m = assistant
        ∧ Js.flag (msg_streaming m) = false
        ∧ msg_translated m
          = Some (Js.truthy translated_text
                  && negb (bool_decide (translated_text = Some txt))))
  ∧ streaming_tail (log c') = None
  ∧ isTyping (log c') = false.
Proof.
  intros c'. subst c'.
  change (log (handleWsMessage now (bot_response txt translated_text) c))
    with (on_bot_response now txt translated_text (log c)).
  assert (∃ m, on_bot_response now txt translated_text (log c)
               = settled (log c) ++ [m]
        ∧ msg_content m = Js.or_str translated_text txt
        ∧ msg_role m = assistant
        ∧ msg_streaming m ≠ Some true
        ∧ msg_translated m
          = Some (Js.truthy translated_text
                  && negb (bool_decide (translated_text = Some txt))))
    as (m & Hl & Hc & Hr & Hs & Ht).
  { unfold on_bot_response, settled.
    destruct (streaming_tail (log c)) as [m|] eqn:E.
    - apply streaming_tail_Some in E as [_ Hm].
      unfold is_streaming_assistant in Hm.
      apply andb_true_iff in Hm as [Hr%bool_decide_eq_true _].
      eexists. split; [done|]. by repeat split.
    - eexists. split; [done|]. by repeat split. }
  assert (Js.flag (msg_streaming m) = false) as Hf.
  { unfold Js.flag. destruct (msg_streaming m) as [[|]|]; done. }
  split; [|split].
  - exists m. by repeat split.
  - rewrite Hl, streaming_tail_snoc. unfold is_streaming_assistant.
    by rewrite Hf, andb_false_r.
  - unfold isTyping. rewrite Hl, last_snoc. by apply bool_decide_eq_false_2.
Qed.

(** ** A turn on the voice bridge *)

Lemma append_ne_nil_r (a t : string) : t ≠ "" → a +:+ t ≠ "".
Proof.
  intros Ht. destruct a as [|x a]; [done|].
  change (String x a +:+ t) with (String x (a +:+ t)). done.
Qed.

Lemma append_ne_nil_l (t s : string) : t ≠ "" → t +:+ s ≠ "".
Proof. by destruct t. Qed.

Lemma or_str_Some_ne s d : s ≠ "" → Js.or_str (Some s) d = s.
Proof. intros Hs. rewrite or_str_truthy; [done|]. by apply truthy_Some. Qed.

Lemma or_str_Some_nil d : Js.or_str (Some "") d = d.
Proof. reflexivity. Qed.

Lemma truthy_or_str_nil t :
  Js.truthy t = (if decide (Js.or_str t "" = "") then false else true).
Proof.
  destruct t as [s|]; [|done]. unfold Js.or_str.
  destruct (Js.truthy (Some s)) eqn:E; cbn.
  - apply truthy_Some in E. by rewrite decide_False.
  - done.
Qed.

Lemma bridge_bot_text now t b h p :
  routed_to h p b →
  bridge_message now (b_bot_text t) b
  = if Js.truthy t
    then speakerBotText_set (currentBotText p +:+ Js.or_str t "")
           (bridge_update h
              (pc_with_text (currentBotText p +:+ Js.or_str t "")
                 (currentBotText p +:+ Js.or_str t "")) b)
    else b.
Proof.
  intros (Hact & Hp & Hsub). unfold bridge_message. rewrite Hact.
  unfold handleJsonMsg. rewrite Hp, Hsub.
  destruct (Js.truthy t) eqn:Et; [|done].
  rewrite (or_str_truthy t "") by done.
  unfold on_botTranscript. rewrite (proj2 (truthy_Some _)); [done|].
  apply append_ne_nil_r. destruct t as [s|]; [|done].
  by apply truthy_Some in Et.
Qed.

Lemma spelled_cons f frags :
  spelled (f :: frags) = Js.or_str f.2 "" +:+ spelled frags.
Proof. reflexivity. Qed.

Lemma voice_fragments_state h frags : ∀ b p,
  routed_to h p b →
  ∃ p', routed_to h p' (voice_fragments frags b)
        ∧ currentBotText p' = currentBotText p +:+ spelled frags
        ∧ botResponseComplete p' = botResponseComplete p
        ∧ botResponseInterrupted p' = botResponseInterrupted p
        ∧ log (voice_fragments frags b) = log b
        ∧ speakerBotText (speaker (voice_fragments frags b))
          = if decide (spelled frags = "") then speakerBotText (speaker b)
            else currentBotText p +:+ spelled frags.
Proof.
  induction frags as [|f frags IH]; intros b p Hr.
  - exists p. cbn. by rewrite append_nil_r.
  - change (voice_fragments (f :: frags) b)
      with (voice_fragments frags (bridge_message f.1 (b_bot_text f.2) b)).
    rewrite (bridge_bot_text _ _ _ h p Hr), spelled_cons.
    rewrite truthy_or_str_nil.
    destruct (decide (Js.or_str f.2 "" = "")) as [He|Hne].
    + rewrite He. by apply IH.
    + set (cur := currentBotText p +:+ Js.or_str f.2 "").
      destruct Hr as (Hact & Hp & Hsub).
      destruct (IH (speakerBotText_set cur
                      (bridge_update h (pc_with_text cur cur) b))
                  (pc_with_text cur cur p))
        as (p' & Hr' & Hc' & Hbc & Hbi & Hl & Hs).
      { split; [done|]. split; [|done]. cbn.
        by rewrite list_lookup_alter_eq, Hp. }
      exists p'. split; [done|]. cbn in Hc'. subst cur.
      rewrite Hc', append_assoc. split; [done|]. split; [done|].
      split; [done|]. split; [done|]. rewrite Hs.
      destruct (decide (Js.or_str f.2 "" +:+ spelled frags = "")) as [He|_];
        [by apply append_ne_nil_l in He|].
      destruct (decide (spelled frags = "")) as [->|_].
      * by rewrite append_nil_r.
      * cbn [currentBotText pc_with_text]. by rewrite append_assoc.
Qed.

(** The end of a turn as the controller sees it, when the clock has moved
    since the last signal of the same kind. *)
Lemma bridge_complete now txt (i : bool) b h p :
  routed_to h p b →
  now ≠ 0 →
  now ≠ (if i then botResponseInterrupted p else botResponseComplete p) →
  let b' := bridge_message now (b_bot_text_complete txt i) b in
  let part := Js.or_str txt (speakerBotText (speaker b)) in
  (∃ tail, log b' = log b ++ tail
           ∧ (tail = [] ↔ part = "")
           ∧ Forall (λ x, msg_content x = part ∧ msg_streaming x = None
                          ∧ msg_role x = assistant
                          ∧ msg_speaker_name x = Some "Mira") tail)
  ∧ speakerBotText (speaker b') = ""
  ∧ currentBotText <$> bridges (browser b') !! h = Some "".
Proof.
  intros (Hact & Hp & Hsub) Hnow0 Hnow b' part. subst b' part.
  unfold bridge_message. rewrite Hact. unfold handleJsonMsg. rewrite Hp, Hsub.
  rewrite (bool_decide_eq_false_2
             ((if i then botResponseInterrupted p else botResponseComplete p)
              = now)) by congruence.
  unfold on_botTranscript, on_botResponse.
  rewrite (bool_decide_eq_false_2 (now = 0)) by done.
  cbn [negb andb].
  assert (∀ (l : list PipecatClient) (f g k : PipecatClient → PipecatClient),
            currentBotText <$> alter f h (alter g h (alter k h l)) !! h
            = currentBotText <$> (f ∘ g ∘ k <$> l !! h)) as Halter.
  { intros l f g k. by rewrite !list_lookup_alter_eq, <- !option_fmap_compose. }
  assert (∀ f g : PipecatClient → PipecatClient,
            currentBotText <$>
              alter (pc_with_currentBotText "") h
                (alter f h (alter g h (bridges (browser b)))) !! h
            = Some "") as Hcur.
  { intros f g. rewrite Halter, Hp. reflexivity. }
  destruct (Js.truthy (Some (Js.or_str txt ""))) eqn:Et.
  - assert (Js.truthy txt = true) as Htxt.
    { unfold Js.or_str in Et. destruct (Js.truthy txt); [done|].
      by vm_compute in Et. }
    rewrite !(or_str_truthy txt) in * by done.
    destruct txt as [s|]; [|done]. cbn [default from_option id] in *.
    cbn [speaker speakerBotText speakerBotText_set upd_speaker bridge_update
         bridges_set upd_browser].
    rewrite Et. cbn. repeat split.
    + eexists [_]. split; [reflexivity|]. split.
      * split; [done|]. intros Hp0. apply truthy_Some in Et. done.
      * by constructor.
    + destruct i; apply Hcur.
  - assert (Js.truthy txt = false) as Htxt.
    { unfold Js.or_str in Et. destruct (Js.truthy txt) eqn:E; [|done].
      destruct txt as [s|]; [|done]. simpl in *. congruence. }
    rewrite (or_str_falsy txt (speakerBotText (speaker b))) by done.
    cbn [speaker speakerBotText speakerBotText_set upd_speaker bridge_update
         bridges_set upd_browser].
    destruct (Js.truthy (Some (speakerBotText (speaker b)))) eqn:Es.
    + cbn. repeat split.
      * eexists [_]. split; [reflexivity|]. split.
        -- split; [done|]. intros Hp0. apply truthy_Some in Es. done.
        -- by constructor.
      * destruct i; apply Hcur.
    + assert (speakerBotText (speaker b) = "") as Hempty.
      { destruct (decide (speakerBotText (speaker b) = "")) as [?|Hne];
          [done|]. apply truthy_Some in Hne. congruence. }
      cbn. repeat split.
      * exists []. rewrite app_nil_r. split; [reflexivity|]. split; [|done].
        by rewrite Hempty.
      * done.
      * destruct i; apply Hcur.
Qed.

(** X10.  One turn of the bot on the voice bridge: the [bot_text]
    fragments leave the message log alone, and the [bot_text_complete]
    that ends the turn appends at most one message, from Mira, not
    streaming, with the text of the turn (the final text, else the
    fragments, else what [speakerBotText] held); nothing is appended
    exactly when that text is empty.  Both text buffers are empty
    afterwards.  The bridge client is the one the interception routes to,
    its buffer is empty at the start, and the clock differs from zero and
    from the time of the last completion. *)
Theorem voice_turn_appends_one_message (h : nat) (p : PipecatClient)
  (b : Client) (frags : list (Z * option string)) (now : Z)
  (final : option string) :
  routed_to h p b → currentBotText p = "" →
  now ≠ 0 → now ≠ botResponseComplete p →
  let b' := bridge_message now (b_bot_text_complete final false)
              (voice_fragments frags b) in
  let said := turn_text final frags (speakerBotText (speaker b)) in
  (∀ k, log (voice_fragments (take k frags) b) = log b)
  ∧ (∃ tail, log b' = log b ++ tail
             ∧ (tail = [] ↔ said = "")
             ∧ Forall (λ x, msg_content x = said ∧ msg_streaming x = None
                            ∧ msg_role x = assistant
                            ∧ msg_speaker_name x = Some "Mira") tail)
  ∧ speakerBotText (speaker b') = ""
  ∧ currentBotText <$> bridges (browser b') !! h = Some "".
Proof.
  intros Hr Hcur Hnow0 Hnow b' said. subst b' said. split.
  - intros k.
    by destruct (voice_fragments_state h (take k frags) b p Hr)
      as (_ & _ & _ & _ & _ & -> & _).
  - destruct (voice_fragments_state h frags b p Hr)
      as (p' & Hr' & Hc' & Hbc & _ & Hl & Hs).
    destruct (bridge_complete now final false (voice_fragments frags b) h p'
                Hr' Hnow0) as ((tail & Ht & Hnil & Hall) & Hsp & Hcb).
    { by rewrite Hbc. }
    assert (Js.or_str final
              (speakerBotText (speaker (voice_fragments frags b)))
            = turn_text final frags (speakerBotText (speaker b))) as Hsaid.
    { unfold turn_text. f_equal. rewrite Hs, Hcur.
      destruct (decide (spelled frags = "")) as [->|Hne]; [done|].
      by rewrite or_str_Some_ne. }
    rewrite Hsaid in Hnil, Hall. rewrite Hl in Ht.
    split; [|by split]. by exists tail.
Qed.

Lemma voice_turn_appends_one_message_witness :
  msg_content <$>
    log (bridge_message 9 (b_bot_text_complete None false)
           (voice_fragments [(7, Some "lo"); (8, None)] Sample.talking))
  = ["Hello"].
Proof.
  destruct (voice_turn_appends_one_message 0%nat
              {| classroomConfig := Some ("r1", "u1");
                 currentBotText := ""; botTranscript := "";
                 botResponseComplete := 0; botResponseInterrupted := 0;
                 pc_sessionId := None; pc_live := true;
                 pc_subscribed := true |}
              (bridge_update 0%nat (pc_with_text "" "") Sample.talking)
              [(6, Some "Hel"); (7, Some "lo"); (8, None)] 9 None)
    as (_ & (tail & Hl & _ & Hall) & _).
  - repeat split; vm_compute; reflexivity.
  - reflexivity.
  - lia.
  - cbn. lia.
  - vm_compute. reflexivity.
Defined.

(** X11.  A turn that ends in the millisecond of the previous signal of
    its kind is not added to the log: the store of the timestamp does not
    change, so the controller's subscription does not run; the text stays
    in [speakerBotText]. *)
Theorem same_timestamp_turn_is_dropped (h : nat) (p : PipecatClient)
  (b : Client) (now : Z) (final : option string) (interrupted : bool) :
  routed_to h p b →
  now = (if interrupted then botResponseInterrupted p
         else botResponseComplete p) →
  let b' := bridge_message now (b_bot_text_complete final interrupted) b in
  log b' = log b
  ∧ speakerBotText (speaker b')
    = Js.or_str final (speakerBotText (speaker b))
  ∧ currentBotText <$> bridges (browser b') !! h = Some "".
Proof.
  intros (Hact & Hp & Hsub) Hnow b'. subst b'.
  unfold bridge_message. rewrite Hact. unfold handleJsonMsg. rewrite Hp, Hsub.
  rewrite (bool_decide_eq_true_2
             ((if interrupted then botResponseInterrupted p
               else botResponseComplete p) = now)) by done.
  unfold on_botTranscript.
  destruct (Js.truthy (Some (Js.or_str final ""))) eqn:Et.
  - assert (Js.truthy final = true) as Htxt.
    { unfold Js.or_str in Et. destruct (Js.truthy final); [done|].
      by vm_compute in Et. }
    split; [done|]. split.
    + rewrite !(or_str_truthy final) by done.
      by destruct final.
    + cbn. by rewrite !list_lookup_alter_eq, Hp.
  - assert (Js.truthy final = false) as Htxt.
    { unfold Js.or_str in Et. destruct (Js.truthy final) eqn:E; [|done].
      destruct final as [s|]; [|done]. simpl in *. congruence. }
    split; [done|]. split.
    + by rewrite (or_str_falsy final (speakerBotText (speaker b))).
    + cbn. by rewrite !list_lookup_alter_eq, Hp.
Qed.

Lemma same_timestamp_turn_is_dropped_witness :
  let b := bridge_message 9 (b_bot_text (Some "Bye"))
             (bridge_message 9 (b_bot_text_complete None false)
                Sample.talking) in
  msg_content <$> log (bridge_message 9 (b_bot_text_complete None false) b)
  = ["Hel"]
  ∧ speakerBotText
      (speaker (bridge_message 9 (b_bot_text_complete None false) b))
    = "Bye".
Proof.
  cbv zeta.
  destruct (same_timestamp_turn_is_dropped 0%nat
              {| classroomConfig := Some ("r1", "u1");
                 currentBotText := "Bye"; botTranscript := "Bye";
                 botResponseComplete := 9; botResponseInterrupted := 0;
                 pc_sessionId := None; pc_live := true;
                 pc_subscribed := true |}
              (bridge_message 9 (b_bot_text (Some "Bye"))
                 (bridge_message 9 (b_bot_text_complete None false)
                    Sample.talking))
              9 None false) as (Hl & Hs & _).
  - repeat split; vm_compute; reflexivity.
  - reflexivity.
  - rewrite Hl, Hs. split; vm_compute; reflexivity.
Defined.

(** ** The typing indicator and the playback toggle *)

Lemma log_step_flags l k l' :
  log_step l k l' → flags_on_assistant l → flags_on_assistant l'.
Proof.
  intros Hstep Ha. unfold flags_on_assistant in *.
  assert (∀ x : ClassroomMessage,
            (Js.flag (msg_streaming x) = true → msg_role x = assistant) →
            Forall (λ m, Js.flag (msg_streaming m) = true
                         → msg_role m = assistant) (l ++ [x])) as Happ.
  { intros x Hx. apply Forall_app. split; [done|]. by apply Forall_singleton. }
  assert (∀ mt (x : ClassroomMessage), streaming_tail l = Some mt →
            (Js.flag (msg_streaming x) = true → msg_role x = assistant) →
            Forall (λ m, Js.flag (msg_streaming m) = true
                         → msg_role m = assistant) (but_last l ++ [x]))
    as Htail.
  { intros mt x Ht Hx. apply streaming_tail_Some in Ht as [Hl _].
    rewrite Hl in Ha. apply Forall_app in Ha as [Ha _].
    apply Forall_app. split; [done|]. by apply Forall_singleton. }
  destruct Hstep as [|x Hx|now t|now t ii|now t tr|mid emoji delta|l' Hl'].
  - done.
  - apply Happ. unfold Js.flag. by rewrite Hx.
  - unfold on_bot_text. destruct (streaming_tail l) as [mt|] eqn:E.
    + apply (Htail mt); [done|]. cbn.
      apply streaming_tail_Some in E as [_ Hm].
      unfold is_streaming_assistant in Hm.
      apply andb_true_iff in Hm as [Hr%bool_decide_eq_true _]. done.
    + by apply Happ.
  - unfold on_bot_text_complete. destruct (streaming_tail l) as [mt|] eqn:E.
    + by apply (Htail mt).
    + case_match; [|done]. by apply Happ.
  - unfold on_bot_response. destruct (streaming_tail l) as [mt|] eqn:E.
    + by apply (Htail mt).
    + by apply Happ.
  - apply Forall_fmap. eapply Forall_impl; [exact Ha|].
    intros m. cbn.
    destruct (react_to_fields mid emoji delta m) as (_ & -> & ->). done.
  - eapply Forall_impl; [exact Hl'|]. intros m Hm.
    unfold Js.flag. by rewrite Hm.
Qed.

Lemma run_flags evs : ∀ c,
  flags_on_assistant (log c) → flags_on_assistant (log (run evs c)).
Proof.
  induction evs as [|e evs IH]; intros c Ha; [done|].
  rewrite run_cons. apply IH.
  destruct (step_log_step e.1 e.2 c) as (k & Hstep & _).
  by apply (log_step_flags _ _ _ Hstep).
Qed.

Lemma isTyping_streaming_tail l :
  flags_on_assistant l →
  isTyping l = bool_decide (is_Some (streaming_tail l)).
Proof.
  unfold isTyping, streaming_tail, flags_on_assistant. intros Ha.
  destruct (last l) as [m|] eqn:El.
  - apply last_Some_elem_of in El. rewrite Forall_forall in Ha.
    specialize (Ha m El). unfold is_streaming_assistant, Js.flag in *.
    destruct (decide (msg_streaming m = Some true)) as [Hs|Hs].
    + rewrite (bool_decide_eq_true_2 _ Hs). rewrite Hs in *. cbn in Ha.
      rewrite (bool_decide_eq_true_2 (msg_role m = assistant)) by auto.
      reflexivity.
    + rewrite (bool_decide_eq_false_2 _ Hs).
      assert (default false (msg_streaming m) = false) as ->.
      { by destruct (msg_streaming m) as [[|]|]. }
      rewrite andb_false_r. symmetry. apply bool_decide_eq_false_2.
      by intros [? ?].
  - rewrite bool_decide_eq_false_2; [done|]. by intros [? ?].
Qed.

(** X12.  In every run of the controller from the mounted component,
    only assistant messages carry the streaming flag, and the typing
    indicator of the room view is on exactly when the log ends in a
    streaming assistant message. *)
Theorem typing_indicator_tracks_stream (name uid : string)
  (policy : CtxState) (token : option string) (mode : option PlaybackMode)
  (evs : list (Z * Action)) :
  let l := log (run evs (initial name uid policy token mode)) in
  flags_on_assistant l
  ∧ isTyping l = bool_decide (is_Some (streaming_tail l)).
Proof.
  intros l. subst l.
  assert (flags_on_assistant
            (log (run evs (initial name uid policy token mode)))) as Ha.
  { apply run_flags. constructor. }
  split; [exact Ha|]. by apply isTyping_streaming_tail.
Qed.







(** ** The reactive statements *)

Lemma react_in_source_order c :
  react c = flush [react_connect; react_disconnect; react_reset_mode] c.
Proof. reflexivity. Qed.

Lemma stores_react_connect c : stores (react_connect c) = stores c.
Proof.
  unfold react_connect. case_match; [|done]. apply stores_connectSpeakerPipeline.
Qed.

Lemma stores_react_disconnect c : stores (react_disconnect c) = stores c.
Proof.
  unfold react_disconnect. case_match; [|done].
  apply stores_disconnectSpeakerPipeline.
Qed.

Lemma stores_react_reset_mode c : stores (react_reset_mode c) = stores c.
Proof. unfold react_reset_mode. by case_match. Qed.

Lemma mode_connect c :
  speakerMode (speaker (connectSpeakerPipeline c)) = speakerMode (speaker c).
Proof. unfold connectSpeakerPipeline. by repeat case_match. Qed.

Lemma mode_disconnect c :
  speakerMode (speaker (disconnectSpeakerPipeline c)) = speakerMode (speaker c).
Proof. unfold disconnectSpeakerPipeline. by repeat case_match. Qed.

Lemma pipecat_disconnect c :
  speakerPipecat (speaker (disconnectSpeakerPipeline c)) = None.
Proof. unfold disconnectSpeakerPipeline. by repeat case_match. Qed.

Lemma pipecat_connect c :
  speakerPipecat (speaker c) = None →
  speakerPipecat (speaker (connectSpeakerPipeline c)) = None
  ∧ connectSpeakerPipeline c = c
  ∨ is_Some (speakerPipecat (speaker (connectSpeakerPipeline c))).
Proof.
  intros Hn. unfold connectSpeakerPipeline. rewrite Hn.
  case_match; [by left|]. right. by eexists.
Qed.

Lemma react_connect_cases c :
  react_connect c = c
  ∨ react_connect c = connectSpeakerPipeline c
    ∧ isSpeaker (stores c) = true
    ∧ classroomState (stores c) = active
    ∧ speakerMode (speaker c) = voice
    ∧ speakerPipecat (speaker c) = None.
Proof.
  unfold react_connect.
  destruct (isSpeaker (stores c)); [|by left].
  destruct (decide (classroomState (stores c) = active)) as [Ha|Ha];
    [|rewrite (bool_decide_eq_false_2 _ Ha); by left].
  destruct (decide (speakerMode (speaker c) = voice)) as [Hv|Hv];
    [|rewrite (bool_decide_eq_false_2 _ Hv), andb_false_r; by left].
  destruct (speakerPipecat (speaker c)) as [h|] eqn:Ep.
  - left. rewrite (bool_decide_eq_true_2 (is_Some (Some h))) by (by eexists).
    by rewrite andb_false_r.
  - right. rewrite (bool_decide_eq_true_2 _ Ha), (bool_decide_eq_true_2 _ Hv).
    rewrite (bool_decide_eq_false_2 (is_Some None)) by (by intros [? ?]).
    done.
Qed.

Lemma react_disconnect_cases c :
  react_disconnect c = c
  ∧ (speakerPipecat (speaker c) = None
     ∨ isSpeaker (stores c) = true ∧ speakerMode (speaker c) = voice)
  ∨ react_disconnect c = disconnectSpeakerPipeline c
    ∧ (isSpeaker (stores c) = false ∨ speakerMode (speaker c) = text)
    ∧ is_Some (speakerPipecat (speaker c)).
Proof.
  unfold react_disconnect.
  destruct (speakerPipecat (speaker c)) as [h|] eqn:Ep.
  - rewrite (bool_decide_eq_true_2 (is_Some (Some h))) by (by eexists).
    rewrite andb_true_r.
    destruct (isSpeaker (stores c)); cbn.
    + destruct (speakerMode (speaker c)) eqn:Em.
      * left. split; [done|]. by right.
      * right. split; [done|]. split; [by right|by eexists].
    + right. split; [done|]. split; [by left|by eexists].
  - rewrite (bool_decide_eq_false_2 (is_Some None)) by (by intros [? ?]).
    rewrite andb_false_r. left. split; [done|]. by left.
Qed.

Lemma speakerMode_set_disconnect m c :
  speakerMode_set m (disconnectSpeakerPipeline c)
  = disconnectSpeakerPipeline (speakerMode_set m c).
Proof.
  unfold disconnectSpeakerPipeline. cbn.
  by destruct (speakerPipecat (speaker c)).
Qed.

Lemma connect_none_or_some c :
  speakerPipecat (speaker c) = None →
  connectSpeakerPipeline c = c
  ∨ is_Some (speakerPipecat (speaker (connectSpeakerPipeline c))).
Proof.
  intros Hn. unfold connectSpeakerPipeline. rewrite Hn.
  case_match; [by left|]. right. by eexists.
Qed.

Lemma reset_mode_connect c :
  react_reset_mode (react_connect c) = react_connect (react_reset_mode c).
Proof.
  unfold react_reset_mode at 1. rewrite stores_react_connect.
  unfold react_reset_mode.
  destruct (isSpeaker (stores c)) eqn:Hs; [done|]. cbn.
  unfold react_connect. cbn. by rewrite Hs.
Qed.

Lemma reset_mode_disconnect c :
  react_reset_mode (react_disconnect c)
  = react_disconnect (react_reset_mode c).
Proof.
  unfold react_reset_mode at 1. rewrite stores_react_disconnect.
  unfold react_reset_mode.
  destruct (isSpeaker (stores c)) eqn:Hs; [done|]. cbn.
  unfold react_disconnect. cbn. rewrite Hs. cbn.
  destruct (bool_decide (is_Some (speakerPipecat (speaker c)))); [|done].
  apply speakerMode_set_disconnect.
Qed.

Lemma connect_disconnect c :
  react_connect (react_disconnect c) = react_disconnect (react_connect c).
Proof.
  destruct (react_connect_cases c) as [Hc|(Hc & Hs & Ha & Hv & Hp)].
  - rewrite Hc.
    destruct (react_disconnect_cases c) as [[Hd _]|(Hd & Hwhy & Hsome)].
    + by rewrite Hd.
    + rewrite Hd.
      destruct (react_connect_cases (disconnectSpeakerPipeline c))
        as [->|(_ & Hs' & _ & Hv' & _)]; [done|].
      rewrite stores_disconnectSpeakerPipeline in Hs'.
      rewrite mode_disconnect in Hv'.
      destruct Hwhy; congruence.
  - rewrite Hc.
    destruct (react_disconnect_cases c) as [[Hd _]|(_ & _ & [h Hh])];
      [|congruence].
    rewrite Hd, Hc.
    destruct (react_disconnect_cases (connectSpeakerPipeline c))
      as [[-> _]|(_ & Hwhy & _)]; [done|].
    rewrite stores_connectSpeakerPipeline, mode_connect in Hwhy.
    destruct Hwhy; congruence.
Qed.

(** The flush by cases on who holds the token and on the input mode. *)
Lemma react_cases c :
  react c
  = match isSpeaker (stores c), speakerMode (speaker c) with
    | false, _ =>
        speakerMode_set text
          (if bool_decide (is_Some (speakerPipecat (speaker c)))
           then disconnectSpeakerPipeline c else c)
    | true, voice =>
        if bool_decide (classroomState (stores c) = active)
           && negb (bool_decide (is_Some (speakerPipecat (speaker c))))
        then connectSpeakerPipeline c else c
    | true, text =>
        if bool_decide (is_Some (speakerPipecat (speaker c)))
        then disconnectSpeakerPipeline c else c
    end.
Proof.
  unfold react.
  destruct (isSpeaker (stores c)) eqn:Hs; cbn [andb negb orb].
  - destruct (speakerMode (speaker c)) eqn:Hm.
    + rewrite (bool_decide_eq_true_2 (voice = voice)) by done.
      rewrite andb_true_r.
      destruct (bool_decide (classroomState (stores c) = active)
                && negb (bool_decide (is_Some (speakerPipecat (speaker c)))))
        eqn:Hg.
      * rewrite stores_connectSpeakerPipeline, Hs, mode_connect, Hm.
        cbn [negb orb].
        rewrite (bool_decide_eq_false_2 (voice = text)) by done. cbn [andb].
        by rewrite stores_connectSpeakerPipeline, Hs.
      * rewrite Hs, Hm. cbn [negb orb].
        rewrite (bool_decide_eq_false_2 (voice = text)) by done. cbn [andb].
        by rewrite Hs.
    + rewrite (bool_decide_eq_false_2 (text = voice)) by done.
      rewrite andb_false_r. cbn [andb]. cbv beta iota zeta.
      rewrite Hs, Hm. cbn [negb orb].
      rewrite (bool_decide_eq_true_2 (text = text)) by done. cbn [andb].
      destruct (bool_decide (is_Some (speakerPipecat (speaker c)))).
      * by rewrite stores_disconnectSpeakerPipeline, Hs.
      * by rewrite Hs.
  - rewrite Hs. cbn [negb orb andb].
    destruct (bool_decide (is_Some (speakerPipecat (speaker c)))).
    + by rewrite stores_disconnectSpeakerPipeline, Hs.
    + by rewrite Hs.
Qed.

(** What one flush establishes. *)
Lemma react_post c :
  stores (react c) = stores c
  ∧ (is_Some (speakerPipecat (speaker (react c))) →
     isSpeaker (stores c) = true ∧ speakerMode (speaker (react c)) = voice)
  ∧ (isSpeaker (stores c) = false → speakerMode (speaker (react c)) = text).
Proof.
  split; [apply stores_react|]. rewrite (react_cases c).
  destruct (isSpeaker (stores c)) eqn:Hs.
  - split; [|done]. intros Hsome. split; [done|].
    destruct (speakerMode (speaker c)) eqn:Hm.
    + destruct (bool_decide (classroomState (stores c) = active)
                && negb (bool_decide (is_Some (speakerPipecat (speaker c)))));
        by rewrite ?mode_connect.
    + destruct (bool_decide (is_Some (speakerPipecat (speaker c)))) eqn:Hp.
      * rewrite pipecat_disconnect in Hsome. by destruct Hsome.
      * apply bool_decide_eq_false in Hp. done.
  - split; [|done]. intros Hsome. exfalso. cbn in Hsome.
    destruct (bool_decide (is_Some (speakerPipecat (speaker c)))) eqn:Hp.
    + rewrite pipecat_disconnect in Hsome. by destruct Hsome.
    + apply bool_decide_eq_false in Hp. done.
Qed.

Lemma react_result c :
  (isSpeaker (stores c) = false →
   speakerMode (speaker (react c)) = text
   ∧ speakerPipecat (speaker (react c)) = None
   ∧ speakerMode_set text (react c) = react c)
  ∧ (isSpeaker (stores c) = true →
     speakerMode (speaker (react c)) = speakerMode (speaker c)
     ∧ (speakerMode (speaker c) = text →
        speakerPipecat (speaker (react c)) = None)
     ∧ (speakerMode (speaker c) = voice →
        classroomState (stores c) = active →
        speakerPipecat (speaker (react c)) = None →
        connectSpeakerPipeline (react c) = react c)).
Proof.
  assert (∀ c', bool_decide (is_Some (speakerPipecat (speaker c'))) = false →
                speakerPipecat (speaker c') = None) as Hnone.
  { intros c' Hp. apply bool_decide_eq_false in Hp.
    destruct (speakerPipecat (speaker c')); [|done]. destruct Hp. by eexists. }
  rewrite (react_cases c). split; intros Hs; rewrite Hs.
  - destruct (bool_decide (is_Some (speakerPipecat (speaker c)))) eqn:Hp.
    + split; [done|]. split; [|done]. apply pipecat_disconnect.
    + split; [done|]. split; [|done]. by apply Hnone.
  - destruct (speakerMode (speaker c)) eqn:Hm.
    + destruct (bool_decide (classroomState (stores c) = active)
                && negb (bool_decide (is_Some (speakerPipecat (speaker c)))))
        eqn:Hg.
      * split; [by rewrite mode_connect|]. split; [done|].
        intros _ _ Hn.
        apply andb_true_iff in Hg as [_ Hp%negb_true_iff%Hnone].
        destruct (connect_none_or_some c Hp) as [Hfix|Hsome].
        -- by rewrite !Hfix.
        -- rewrite Hn in Hsome. by destruct Hsome.
      * split; [done|]. split; [done|]. intros _ Ha Hn.
        rewrite (bool_decide_eq_true_2 _ Ha) in Hg. cbn in Hg.
        apply negb_false_iff, bool_decide_eq_true in Hg.
        rewrite Hn in Hg. by destruct Hg.
    + destruct (bool_decide (is_Some (speakerPipecat (speaker c)))) eqn:Hp.
      * split; [by rewrite mode_disconnect|]. split; [|done].
        intros _. apply pipecat_disconnect.
      * split; [done|]. split; [|done]. intros _. by apply Hnone.
Qed.

Lemma react_idempotent c : react (react c) = react c.
Proof.
  destruct (react_result c) as [Hf Ht].
  rewrite (react_cases (react c)), stores_react.
  destruct (isSpeaker (stores c)) eqn:Hs.
  - destruct (Ht eq_refl) as (Hm & Htext & Hvoice). rewrite Hm.
    destruct (speakerMode (speaker c)) eqn:Hmc.
    + destruct (decide (classroomState (stores c) = active)) as [Ha|Ha].
      * rewrite (bool_decide_eq_true_2 _ Ha). cbn [andb].
        destruct (speakerPipecat (speaker (react c))) as [h|] eqn:Hp.
        -- by rewrite (bool_decide_eq_true_2 (is_Some (Some h)))
             by (by eexists).
        -- rewrite (bool_decide_eq_false_2 (is_Some None))
             by (by intros [? ?]).
           cbn. by apply Hvoice.
      * by rewrite (bool_decide_eq_false_2 _ Ha).
    + rewrite (Htext eq_refl).
      by rewrite (bool_decide_eq_false_2 (is_Some None)) by (by intros [? ?]).
  - destruct (Hf eq_refl) as (Hm & Hp & Hfix). rewrite Hp.
    by rewrite (bool_decide_eq_false_2 (is_Some None)) by (by intros [? ?]).
Qed.

(** X14.  The three reactive statements of the controller give the same
    state in each of the six orders the compiler may schedule them in, the
    one [react] uses among them, and a second flush changes nothing. *)
Theorem flush_order_is_irrelevant (c : Client) :
  Forall (λ order, flush order c = react c)
    (permutations [react_connect; react_disconnect; react_reset_mode])
  ∧ react (react c) = react c.
Proof.
  split; [|apply react_idempotent].
  rewrite react_in_source_order. cbn [permutations interleave fmap list_fmap
    mbind list_bind app flush foldl].
  repeat constructor; cbn [flush foldl fmap list_fmap app].
  - by rewrite connect_disconnect.
  - by rewrite <- reset_mode_connect, connect_disconnect.
  - by rewrite <- reset_mode_disconnect.
  - by rewrite <- reset_mode_connect, <- reset_mode_disconnect.
  - by rewrite <- reset_mode_disconnect, <- reset_mode_connect,
      connect_disconnect.
Qed.

(** ** Frames

    Most handler runs leave most of the state alone.  [to_writes] unfolds
    a handler down to the store writes and assignments, short of the three
    functions of the playback queue, which [playback_writes] replaces by
    what they write; [writes_done] then settles a goal that compares a
    part of the state no write touches. *)

Lemma playback_with_same c :
  playback_with (audio c) (contexts (browser c)) (resumes (browser c))
    (started (browser c)) c = c.
Proof. by destruct c as [? [] ? ? ? []]. Qed.

(** [c'] is [c] with the state of the playback queue overwritten. *)
Lemma playback_with_intro c c' :
  c' = playback_with (audio c') (contexts (browser c'))
         (resumes (browser c')) (started (browser c')) c →
  ∃ a ctxs rs st, c' = playback_with a ctxs rs st c.
Proof. intros Hc. by do 4 eexists. Qed.

Lemma ensureAudioContext_writes c :
  ∃ a ctxs rs st, (ensureAudioContext c).2 = playback_with a ctxs rs st c.
Proof.
  apply playback_with_intro.
  destruct c as [s [ac q p] sp po pr [? ? ? ? ? ? ctxs ? rs ? st ? ?]].
  unfold ensureAudioContext. cbn.
  repeat case_match; cbn; repeat case_match; reflexivity.
Qed.

Lemma playNextChunk_writes c :
  ∃ a ctxs rs st, playNextChunk c = playback_with a ctxs rs st c.
Proof.
  unfold playNextChunk. destruct (audioQueue (audio c)) as [|chunk rest].
  { apply playback_with_intro. by destruct c as [? [] ? ? ? []]. }
  cbv zeta.
  destruct (ensureAudioContext_writes (isPlayingAudio_set true c))
    as (a & ctxs & rs & st & Hc1).
  destruct (ensureAudioContext _) as [ctx c1]. cbn [snd] in Hc1. subst c1.
  apply playback_with_intro. case_match; reflexivity.
Qed.

Lemma queueAudioChunk_writes bytes c :
  ∃ a ctxs rs st,
    default c (queueAudioChunk bytes c) = playback_with a ctxs rs st c.
Proof.
  unfold queueAudioChunk. destruct (Int16Array bytes) as [int16|]; cbn.
  2: { apply playback_with_intro. symmetry. apply playback_with_same. }
  case_match.
  { apply playback_with_intro. by destruct c as [? [] ? ? ? []]. }
  destruct (playNextChunk_writes
              (audioQueue_set (audioQueue (audio c) ++ [to_float32 <$> int16])
                 c)) as (a & ctxs & rs & st & ->).
  apply playback_with_intro. reflexivity.
Qed.

Ltac playback_writes :=
  repeat match goal with
  | |- context [ensureAudioContext ?x] =>
      destruct (ensureAudioContext_writes x) as (? & ? & ? & ? & ->)
  | |- context [playNextChunk ?x] =>
      destruct (playNextChunk_writes x) as (? & ? & ? & ? & ->)
  | |- context [default ?x (queueAudioChunk ?bytes ?x)] =>
      destruct (queueAudioChunk_writes bytes x) as (? & ? & ? & ? & ->)
  end.

Ltac to_writes1 :=
  unfold handle, loadStoredUserMode, startLobbyPolling, onDestroy,
    handleJoinRoom, handleLeaveRoom, handleToggleMode, handleSetPlaybackMode,
    handleSendMessage, requestToken, releaseToken, passToken,
    handleRaiseHand, handleLowerHand, hand_button_click,
    handleAcknowledgeHand, handleDismissHand, handleReaction,
    handleTeacherAction, handleRequestTopics, handleSelectTopic,
    handleSendMessage, ws_onopen, ws_onmessage, ws_onerror, ws_onclose,
    timer_fires, room_poll_tick, lobby_poll_tick, request_settles,
    blob_ready, resume_settles, bridge_message, handleJsonMsg,
    on_botTranscript, on_botResponse, on_userTranscript, bridge_update,
    handleWsMessage, token_changed_self, token_changed_room,
    updateMessageReaction, addClassroomMessage, genMsgId,
    resetClassroom, ws_close, refreshRooms, disconnectSpeakerPipeline,
    connectSpeakerPipeline, pc_disconnect, stopAudioPlayback, ctx_close,
    ws_send_if_open,
    persistUserMode, clearInterval, setInterval, react, listens, ws_is_open,
    classroomRoom_update, classroomSelf_update, classroomMessages_update.

Ltac to_writes := repeat progress to_writes1.

Ltac writes_done :=
  repeat first
    [ reflexivity
    | progress playback_writes
    | progress cbn -[playNextChunk ensureAudioContext queueAudioChunk]
    | case_match ].

(** A handler that is a chain of [let]s is followed one step at a time. *)
Ltac by_steps tac :=
  lazymatch goal with
  | |- ?π (let c1 := ?X in @?body c1) = ?r =>
      lazymatch type of X with
      | Client =>
          let x := fresh "c" in
          transitivity (π X);
          [ generalize X; intros x; change (π (body x) = π x); cbv beta;
            by_steps tac
          | tac ]
      | _ => change (π (body X) = r); cbv beta; by_steps tac
      end
  | |- _ => tac
  end.

(** The same for a property [I] of the state that every step keeps;
    [tac] proves one step from the property of the state before. *)
Ltac inv_steps I tac :=
  lazymatch goal with
  | H : I _ |- I (let c1 := ?X in @?body c1) =>
      lazymatch type of X with
      | Client =>
          let x := fresh "c" in
          let Hx := fresh "Hinv" in
          cut (I X);
          [ generalize X; clear H; intros x Hx; change (I (body x));
            cbv beta; inv_steps I tac
          | tac ]
      | _ => change (I (body X)); cbv beta; inv_steps I tac
      end
  | |- _ => tac
  end.

(** ** The voice pipeline *)

Ltac held_done :=
  unfold kept_or_dropped, held in *; to_writes;
  repeat first
    [ by left | by right | assumption
    | progress playback_writes
    | progress cbn -[playNextChunk ensureAudioContext queueAudioChunk] in *
    | case_match ].

(** No handler creates a voice pipeline: a handler run keeps the one that
    is held or drops it. *)
Lemma handle_keeps_or_drops now a c :
  kept_or_dropped (held c) (handle now a c).
Proof.
  assert (kept_or_dropped (held c) c) as H by (by left).
  generalize dependent (held c). intros k H.
  destruct a;
    lazymatch goal with
    | |- context [a_ws_frame _ ?f] =>
        destruct f as [bytes|bytes|data|raw]; [| |destruct data|];
        cbn [handle];
        lazymatch goal with
        | |- context [kicked _] =>
            cbn [ws_onmessage handleWsMessage];
            case_match; [right; apply leave_resets|exact H]
        | |- _ => held_done
        end
    | |- context [a_destroy] =>
        cbn [handle]; cbv beta delta [onDestroy];
        inv_steps (kept_or_dropped k) ltac:(idtac; held_done)
    | |- context [a_leave] =>
        right; cbn [handle]; apply leave_resets
    | |- _ => cbn [handle]; held_done
    end.
Qed.

Lemma update_stores r c : stores (update r c) = stores c.
Proof.
  unfold update. cbv zeta.
  repeat case_match;
    by rewrite ?stores_react_disconnect, ?stores_react_connect,
      ?stores_react_reset_mode.
Qed.

Lemma held_reset_mode c : held (react_reset_mode c) = held c.
Proof. unfold react_reset_mode. by case_match. Qed.

Lemma mode_react_connect c :
  speakerMode (speaker (react_connect c)) = speakerMode (speaker c).
Proof.
  destruct (react_connect_cases c) as [->|[-> _]]; [done|apply mode_connect].
Qed.

(** The flush that reruns all three statements is [react]. *)
Lemma update_all c :
  update {| reset_mode_runs := true; connect_runs := true;
            disconnect_runs := true |} c
  = react c.
Proof.
  unfold update. cbn [reset_mode_runs connect_runs disconnect_runs orb].
  rewrite react_in_source_order. cbn [flush foldl].
  by rewrite reset_mode_disconnect, reset_mode_connect.
Qed.

(** X15.  Whichever statements the flush after a handler run reruns, as
    long as it reruns each statement that reads a variable the handler
    has changed: if a voice pipeline was held only by the speaker in
    voice mode before the handler ran, that is so after the flush; and a
    client that loses the speaker status in the handler run is in text
    mode after the flush and holds no pipeline.  The flush that reruns
    all three statements is the one [step] runs. *)
Theorem voice_pipeline_only_for_speaker (now : Z) (a : Action) (c : Client)
  (r : Rerun) :
  pipeline_for_speaker c →
  due c (handle now a c) r →
  pipeline_for_speaker (update r (handle now a c))
  ∧ (isSpeaker (stores c) = true →
     isSpeaker (stores (handle now a c)) = false →
     speakerMode (speaker (update r (handle now a c))) = text
     ∧ speakerPipecat (speaker (update r (handle now a c))) = None)
  ∧ update {| reset_mode_runs := true; connect_runs := true;
              disconnect_runs := true |} (handle now a c)
    = step now a c.
Proof.
  intros Hinv (Hs & Hst & Hm & Hp).
  pose proof (handle_keeps_or_drops now a c) as Hk.
  set (c1 := handle now a c) in *.
  split; [|split; [|apply update_all]].
  - unfold update. cbv zeta.
    set (c2 := if reset_mode_runs r then react_reset_mode c1 else c1).
    set (mode_assigned :=
           negb (bool_decide (speakerMode (speaker c2)
                              = speakerMode (speaker c1)))).
    set (c3 := if connect_runs r || mode_assigned then react_connect c2
               else c2).
    set (pipecat_assigned :=
           negb (bool_decide (speakerPipecat (speaker c3)
                              = speakerPipecat (speaker c2)))).
    destruct (disconnect_runs r || mode_assigned || pipecat_assigned)
      eqn:Hran.
    + destruct (react_disconnect_cases c3) as [[-> Hok]|[-> _]].
      * intros Hheld. destruct Hok as [Hn|Hok]; [|done].
        rewrite Hn in Hheld. by destruct Hheld.
      * intros Hheld. rewrite pipecat_disconnect in Hheld. by destruct Hheld.
    + apply orb_false_iff in Hran as [Hran Hpa].
      apply orb_false_iff in Hran as [Hd Hma].
      apply negb_false_iff, bool_decide_eq_true in Hpa, Hma.
      assert (stores c3 = stores c1) as Hst3.
      { subst c3 c2. repeat case_match;
          by rewrite ?stores_react_connect, ?stores_react_reset_mode. }
      assert (speakerMode (speaker c3) = speakerMode (speaker c2)) as Hm3.
      { subst c3. case_match; [apply mode_react_connect|done]. }
      assert (held c2 = held c1) as Hh2.
      { subst c2. case_match; [apply held_reset_mode|done]. }
      assert (isSpeaker (stores c1) = isSpeaker (stores c)) as Hs1.
      { destruct (decide (isSpeaker (stores c1) = isSpeaker (stores c)))
          as [?|Hne]; [done|].
        destruct (Hs Hne) as (_ & _ & ?). congruence. }
      assert (speakerMode (speaker c1) = speakerMode (speaker c)) as Hm1.
      { destruct (decide (speakerMode (speaker c1) = speakerMode (speaker c)))
          as [?|Hne]; [done|].
        destruct (Hm Hne) as (_ & ?). congruence. }
      assert (speakerPipecat (speaker c1) = speakerPipecat (speaker c)) as Hp1.
      { destruct (decide (speakerPipecat (speaker c1)
                          = speakerPipecat (speaker c)))
          as [?|Hne]; [done|].
        destruct (Hp Hne) as (_ & ?). congruence. }
      unfold pipeline_for_speaker.
      rewrite Hst3, Hs1, Hm3, Hma, Hm1, Hpa.
      unfold held in Hh2. rewrite Hh2, Hp1. exact Hinv.
  - intros Hwas Hnow.
    destruct Hs as (Hr1 & Hr2 & Hr3); [congruence|].
    unfold update. rewrite Hr1, Hr2, Hr3. cbn [orb]. cbv zeta.
    assert (react_reset_mode c1 = speakerMode_set text c1) as ->.
    { unfold react_reset_mode. by rewrite Hnow. }
    assert (react_connect (speakerMode_set text c1) = speakerMode_set text c1)
      as ->.
    { unfold react_connect. cbn. by rewrite Hnow. }
    destruct (react_disconnect_cases (speakerMode_set text c1))
      as [[-> Hok]|[-> _]].
    + split; [done|]. destruct Hok as [Hn|[Hok _]]; [exact Hn|].
      cbn in Hok. congruence.
    + rewrite mode_disconnect. split; [done|apply pipecat_disconnect].
Qed.

Lemma voice_pipeline_only_for_speaker_witness :
  speakerPipecat (speaker Sample.talking) = Some 0%nat
  ∧ speakerPipecat
      (speaker
         (update {| reset_mode_runs := true; connect_runs := true;
                    disconnect_runs := true |}
            (handle 7 (a_ws_frame 0%nat
                         (frame_json (token_changed (Some "u2") (Some "Bob"))))
               Sample.talking)))
    = None.
Proof.
  split; [vm_compute; reflexivity|].
  destruct (voice_pipeline_only_for_speaker 7
              (a_ws_frame 0%nat
                 (frame_json (token_changed (Some "u2") (Some "Bob"))))
              Sample.talking
              {| reset_mode_runs := true; connect_runs := true;
                 disconnect_runs := true |}) as (_ & H & _).
  - intros _. split; vm_compute; reflexivity.
  - unfold due. cbn [reset_mode_runs connect_runs disconnect_runs].
    by repeat split.
  - apply H; vm_compute; reflexivity.
Defined.

(** ** The lobby poll *)

Ltac poll_done := unfold poll_view; to_writes; writes_done.

Lemma poll_view_react c : poll_view (react c) = poll_view c.
Proof. poll_done. Qed.

(** The handler runs that leave the polls' bookkeeping alone: all but a
    leave, a timer tick, a settled request, a closed socket and a frame. *)
Lemma poll_view_handle now a c :
  match a with
  | a_leave | a_timer _ | a_settled _ _ | a_ws_close _ | a_ws_frame _ _ => True
  | _ => poll_view (handle now a c) = poll_view c
  end.
Proof.
  destruct a; try exact I;
    lazymatch goal with
    | |- context [a_destroy] =>
        cbn [handle]; cbv beta delta [onDestroy]; by_steps poll_done
    | |- _ => poll_done
    end.
Qed.

Lemma flags_track_refresh_view c c' :
  poll_view c' = poll_view c → flags_track_refresh c → flags_track_refresh c'.
Proof.
  unfold poll_view, flags_track_refresh, lobby_refreshes.
  intros [= -> -> ->]. done.
Qed.

(** Another kind of request is issued. *)
Lemma flags_track_refresh_other r c c' :
  is_lobby_refresh r = false →
  poll_view c' = (requests (browser c) ++ [r],
                  roomListPollInFlight (polling c),
                  teacherStatusPollInFlight (polling c)) →
  flags_track_refresh c → flags_track_refresh c'.
Proof.
  unfold poll_view, flags_track_refresh, lobby_refreshes.
  intros Hr [= -> -> ->]. rewrite filter_app, filter_cons, filter_nil.
  rewrite decide_False by (by rewrite Hr). by rewrite app_nil_r.
Qed.

Lemma poll_view_leave c :
  poll_view (handleLeaveRoom c)
  = (requests (browser c) ++ [req_refreshRooms],
     roomListPollInFlight (polling c), teacherStatusPollInFlight (polling c)).
Proof. poll_done. Qed.

Lemma flags_track_refresh_frame now f c :
  flags_track_refresh c → flags_track_refresh (ws_onmessage now f c).
Proof.
  intros Hinv. destruct f as [bytes|bytes|data|raw].
  - apply (flags_track_refresh_view c); [|done].
    poll_done.
  - apply (flags_track_refresh_view c); [|done].
    poll_done.
  - destruct data;
      lazymatch goal with
      | |- context [kicked _] =>
          apply (flags_track_refresh_other req_refreshRooms c); [done| |done];
          cbn [ws_onmessage handleWsMessage]; by rewrite poll_view_leave
      | |- _ => apply (flags_track_refresh_view c); [|done]; poll_done
      end.
  - done.
Qed.

Lemma length_filter_delete {A} (P : A → Prop) `{!∀ x, Decision (P x)}
  (l : list A) i x :
  l !! i = Some x →
  length (filter P (delete i l))
  = (length (filter P l) - if decide (P x) then 1 else 0)%nat.
Proof.
  revert i. induction l as [|y l IH]; intros i Hi; [done|].
  destruct i as [|i]; cbn in Hi.
  - injection Hi as ->. cbn [delete list_delete]. rewrite filter_cons.
    destruct (decide (P x)); cbn; lia.
  - change (delete (S i) (y :: l)) with (y :: delete i l).
    rewrite !filter_cons. specialize (IH i Hi).
    destruct (decide (P y)); cbn [length]; rewrite IH; [|done].
    destruct (decide (P x)); [|lia].
    assert (0 < length (filter P l))%nat; [|lia].
    apply list_elem_of_lookup_2 in Hi.
    assert (x ∈ filter P l) as Hin by (by apply list_elem_of_filter).
    destruct (filter P l); [by apply elem_of_nil in Hin|cbn; lia].
Qed.

Lemma flags_track_refresh_handle now a c :
  flags_track_refresh c → flags_track_refresh (handle now a c).
Proof.
  intros Hinv. pose proof (poll_view_handle now a c) as Hframe.
  destruct a; try (by apply (flags_track_refresh_view c)); clear Hframe.
  - (* a_leave *)
    apply (flags_track_refresh_other req_refreshRooms c); [done| |done].
    apply poll_view_leave.
  - (* a_ws_frame *)
    cbn [handle]. case_match; [|done]. by apply flags_track_refresh_frame.
  - (* a_ws_close *)
    cbn [handle]. case_match; [|done]. case_match; [done|].
    unfold ws_onclose. cbv zeta. case_match; [|done].
    apply (flags_track_refresh_other req_refreshRooms c); [done| |done].
    poll_done.
  - (* a_timer *)
    cbn [handle]. unfold timer_fires.
    destruct (list_find _ _) as [[? [? []]]|]; [| |done].
    + unfold room_poll_tick. case_match; [|done].
      destruct (classroomRoom (stores c)) as [r|]; [|done].
      by apply (flags_track_refresh_other (req_getRoom (room_id r)) c).
    + unfold lobby_poll_tick. case_match; [done|]. case_match; [done|].
      destruct Hinv as [Heq Hlen].
      destruct (roomListPollInFlight (polling c)) eqn:E1; [done|].
      unfold flags_track_refresh, lobby_refreshes in *. cbn.
      split; [done|]. rewrite filter_app, length_app, Hlen. done.
  - (* a_settled *)
    cbn [handle]. unfold request_settles.
    destruct (requests (browser c) !! i) as [r|] eqn:Ei; [|done].
    destruct Hinv as [Heq Hlen].
    pose proof (length_filter_delete
                  (λ r, is_lobby_refresh r = true) _ i r Ei) as Hdel.
    unfold flags_track_refresh, lobby_refreshes in *.
    destruct r as [rid| |]; cbn in Hdel.
    + destruct result; cbn; (split; [done|]); rewrite Hdel, Hlen;
        apply Nat.sub_0_r.
    + cbn. split; [done|]. rewrite Hdel, Hlen. apply Nat.sub_0_r.
    + cbn. split; [done|]. rewrite Hdel, Hlen.
      destruct (roomListPollInFlight (polling c)); [done|].
      (* no refresh in flight, yet one settles *)
      apply list_elem_of_lookup_2 in Ei.
      assert (req_lobby_refresh
              ∈ filter (λ r, is_lobby_refresh r = true)
                  (requests (browser c))) as Hin
        by (by apply list_elem_of_filter).
      destruct (filter _ _); [by apply elem_of_nil in Hin|done].
Qed.

Lemma flags_track_refresh_run evs : ∀ c,
  flags_track_refresh c → flags_track_refresh (run evs c).
Proof.
  induction evs as [|e evs IH]; intros c Hinv; [done|].
  rewrite run_cons. apply IH. unfold step.
  apply (flags_track_refresh_view (handle e.1 e.2 c));
    [apply poll_view_react|].
  by apply flags_track_refresh_handle.
Qed.

(** X16.  In every run of the controller from the mounted component, at
    most one refresh of the lobby poll is in flight, and the in-flight flag
    is set exactly while one is: whatever the order of ticks, settled
    requests and other events. *)
Theorem lobby_refreshes_never_overlap (name uid : string)
  (policy : CtxState) (token : option string) (mode : option PlaybackMode)
  (evs : list (Z * Action)) :
  let c := run evs (initial name uid policy token mode) in
  (length (lobby_refreshes c) ≤ 1)%nat
  ∧ (roomListPollInFlight (polling c) = true ↔ lobby_refreshes c ≠ []).
Proof.
  intros c.
  assert (flags_track_refresh c) as [Heq Hlen].
  { apply flags_track_refresh_run. by split. }
  split.
  - rewrite Hlen. case_match; lia.
  - destruct (roomListPollInFlight (polling c)).
    + split; [|done]. intros _ Hnil. by rewrite Hnil in Hlen.
    + split; [done|]. intros Hne. by destruct (lobby_refreshes c).
Qed.

(** ** The audio contexts *)

Lemma one_live_view c c' : ctx_view c' = ctx_view c → one_live c → one_live c'.
Proof. unfold ctx_view, one_live. by intros [= -> ->]. Qed.

Lemma one_live_ensureAudioContext c :
  one_live c → one_live (ensureAudioContext c).2.
Proof.
  intros Hlive. unfold ensureAudioContext. cbv zeta.
  set (usable := match audioContext (audio c) with
                 | Some h => negb (bool_decide (ctx_state_of h c = closed))
                 | None => false
                 end).
  assert (one_live
            (if usable then c
             else audioContext_set (Some (length (contexts (browser c))))
                    (contexts_set (contexts (browser c)
                                   ++ [fresh_ctx_state (browser c)]) c)))
    as Hnext.
  { destruct usable eqn:Eu; [done|]. intros h s. cbn. intros Hh Hs.
    apply lookup_app_Some in Hh as [Hh|[Hlen Hh]].
    - (* an older context would be live, and so the one held *)
      pose proof (Hlive h s Hh Hs) as Hheld. subst usable.
      rewrite Hheld in Eu. unfold ctx_state_of in Eu. rewrite Hh in Eu.
      cbn in Eu. by rewrite bool_decide_eq_false_2 in Eu.
    - f_equal. apply list_lookup_singleton_Some in Hh as [Hh _]. lia. }
  cbn [snd]. set (c1 := if usable then _ else _) in *.
  case_bool_decide; [|exact Hnext].
  eapply one_live_view; [|exact Hnext]. reflexivity.
Qed.

Lemma one_live_playNextChunk c : one_live c → one_live (playNextChunk c).
Proof.
  intros Hlive. unfold playNextChunk.
  destruct (audioQueue (audio c)) as [|chunk rest]; [done|].
  assert (one_live (isPlayingAudio_set true c)) as H1 by done.
  apply one_live_ensureAudioContext in H1.
  destruct (ensureAudioContext (isPlayingAudio_set true c)) as [ctx c1].
  cbn [snd] in H1. by case_match.
Qed.

Lemma one_live_queueAudioChunk bytes c :
  one_live c → one_live (default c (queueAudioChunk bytes c)).
Proof.
  intros Hlive. unfold queueAudioChunk.
  destruct (Int16Array bytes) as [int16|]; [|done]. cbn.
  case_match; [done|]. by apply one_live_playNextChunk.
Qed.

(** [if (audioContext) { audioContext.close(); audioContext = null; }] *)
Lemma one_live_close c :
  one_live c →
  one_live match audioContext (audio c) with
           | Some h => audioContext_set None (ctx_close h c)
           | None => c
           end.
Proof.
  intros Hlive. destruct (audioContext (audio c)) as [h|] eqn:Eh; [|done].
  intros h' s. cbn. intros Hh Hs. exfalso.
  destruct (decide (h' = h)) as [->|Hne].
  - apply list_lookup_insert_Some in Hh as [(_ & <- & _)|[? _]]; done.
  - rewrite list_lookup_insert_ne in Hh by done.
    pose proof (Hlive h' s Hh Hs) as Hheld. congruence.
Qed.

Lemma one_live_resume_settles i ok c :
  one_live c → one_live (resume_settles i ok c).
Proof.
  intros Hlive. unfold resume_settles.
  destruct (resumes (browser c) !! i) as [[ctx again]|]; [|done].
  cbv zeta. destruct ok; [|done].
  set (c1 := resumes_set _ c).
  assert (one_live
            (if bool_decide (ctx_state_of ctx c1 = suspended)
             then contexts_set (<[ctx := running]> (contexts (browser c1))) c1
             else c1)) as Hnext.
  { case_bool_decide as Hs; [|done]. intros h s. cbn. intros Hh Hne.
    destruct (decide (h = ctx)) as [->|Hd].
    - unfold ctx_state_of in Hs. cbn in Hs.
      destruct (contexts (browser c) !! ctx) as [s0|] eqn:E0; [|done].
      cbn in Hs. subst s0. by apply (Hlive ctx suspended).
    - rewrite list_lookup_insert_ne in Hh by done. by apply (Hlive h s). }
  destruct again; [|done]. by apply one_live_playNextChunk.
Qed.

Ltac ctx_done := unfold ctx_view; to_writes; writes_done.

(** One step of a chain of [let]s. *)
Ltac live_step :=
  idtac;
  lazymatch goal with
  | H : one_live ?x |- one_live ?e =>
      first
        [ exact H
        | by apply one_live_ensureAudioContext
        | by apply one_live_playNextChunk
        | by apply one_live_queueAudioChunk
        | by apply one_live_close
        | by apply one_live_resume_settles
        | case_match; [by apply one_live_ensureAudioContext|exact H]
        | apply (one_live_view x); [solve [ctx_done]|exact H] ]
  end.

Lemma one_live_handleLeaveRoom c : one_live c → one_live (handleLeaveRoom c).
Proof. intros Hlive. cbv beta delta [handleLeaveRoom]. inv_steps one_live live_step. Qed.

Lemma one_live_handle now a c : one_live c → one_live (handle now a c).
Proof.
  intros Hlive. destruct a; cbn [handle].
  all: lazymatch goal with
       | |- context [onDestroy] => cbv beta delta [onDestroy]; inv_steps one_live live_step
       | |- context [handleJoinRoom] =>
           cbv beta delta [handleJoinRoom]; inv_steps one_live live_step
       | |- context [handleLeaveRoom] => by apply one_live_handleLeaveRoom
       | |- context [ws_onmessage] => idtac
       | |- context [blob_ready] => idtac
       | |- _ => live_step
       end.
  - (* a_ws_frame *)
    case_match; [|done]. destruct f as [bytes|bytes|data|raw];
      cbn [ws_onmessage].
    + case_match; [|done]. by apply one_live_queueAudioChunk.
    + live_step.
    + destruct data;
        lazymatch goal with
        | |- context [kicked _] =>
            cbn [handleWsMessage]; by apply one_live_handleLeaveRoom
        | |- context [bot_audio_start] => cbn [handleWsMessage]; live_step
        | |- _ => live_step
        end.
    + done.
  - (* a_blob_ready *)
    unfold blob_ready. destruct (blobs (browser c) !! i); [|done]. cbv zeta.
    by apply one_live_queueAudioChunk.
Qed.

Lemma ctx_view_react c : ctx_view (react c) = ctx_view c.
Proof. ctx_done. Qed.

Lemma one_live_run evs : ∀ c, one_live c → one_live (run evs c).
Proof.
  induction evs as [|e evs IH]; intros c Hinv; [done|].
  rewrite run_cons. apply IH. unfold step.
  apply (one_live_view (handle e.1 e.2 c)); [apply ctx_view_react|].
  by apply one_live_handle.
Qed.

Lemma live_contexts_held c :
  one_live c →
  Forall (λ h, audioContext (audio c) = Some h) (live_contexts c).
Proof.
  intros Hlive. apply Forall_forall. intros h Hh.
  apply list_elem_of_filter in Hh as [Hs Hin].
  unfold ctx_state_of in Hs.
  destruct (contexts (browser c) !! h) as [s|] eqn:E; [|done].
  by apply (Hlive h s).
Qed.

Lemma live_contexts_NoDup c : NoDup (live_contexts c).
Proof. apply NoDup_filter, NoDup_seq. Qed.

(** X17.  In every run of the controller from the mounted component,
    every audio context that was created and is not closed is the one
    [audioContext] holds; so at most one is open at a time. *)
Theorem at_most_one_live_context (name uid : string)
  (policy : CtxState) (token : option string) (mode : option PlaybackMode)
  (evs : list (Z * Action)) :
  let c := run evs (initial name uid policy token mode) in
  Forall (λ h, audioContext (audio c) = Some h) (live_contexts c)
  ∧ (length (live_contexts c) ≤ 1)%nat.
Proof.
  intros c.
  assert (one_live c) as Hlive.
  { apply one_live_run. intros h s Hh. done. }
  pose proof (live_contexts_held c Hlive) as Hheld.
  split; [done|].
  pose proof (live_contexts_NoDup c) as Hnd.
  destruct (live_contexts c) as [|h1 [|h2 l]]; cbn; [lia..|].
  exfalso. apply Forall_cons in Hheld as [H1 Hheld].
  apply Forall_cons in Hheld as [H2 _].
  apply NoDup_cons in Hnd as [Hnd _]. apply Hnd.
  assert (h1 = h2) as -> by congruence. left.
Qed.

(** ** Message ids *)

Lemma pretty_N_go_no_dash x : ∀ s,
  Str.has_char "-" s = false → Str.has_char "-" (pretty_N_go x s) = false.
Proof.
  induction (N.lt_wf_0 x) as [x _ IH]; intros s Hs.
  assert (x = 0 ∨ 0 < x)%N as [->|Hx] by lia.
  - by rewrite pretty_N_go_0.
  - rewrite pretty_N_go_step by done. apply IH; [by apply N.div_lt|].
    cbn [Str.has_char]. rewrite Hs, orb_false_r.
    unfold pretty_N_char. by repeat case_match.
Qed.

Lemma pretty_nat_no_dash (n : nat) : Str.has_char "-" (pretty n) = false.
Proof.
  unfold pretty, pretty_nat, pretty, pretty_N.
  case_decide; [done|]. by apply pretty_N_go_no_dash.
Qed.

(** The text after the last ["-"] of a string is determined. *)
Lemma after_last_dash p1 : ∀ p2 s1 s2,
  Str.has_char "-" s1 = false → Str.has_char "-" s2 = false →
  p1 +:+ String "-"%char s1 = p2 +:+ String "-"%char s2 → s1 = s2.
Proof.
  assert (∀ p s, Str.has_char "-" (p +:+ String "-"%char s) = true) as Hin.
  { intros p s. induction p as [|a p IH]; [done|].
    change (Ascii.eqb a "-"%char || Str.has_char "-" (p +:+ String "-"%char s) = true).
    rewrite IH. apply orb_true_r. }
  induction p1 as [|a p1 IH]; intros [|b p2] s1 s2 Hs1 Hs2; cbn.
  - by intros [= ->].
  - intros [= _ Heq]. rewrite Heq, Hin in Hs1. done.
  - intros [= _ Heq]. rewrite <- Heq, Hin in Hs2. done.
  - intros [= _ Heq]. by apply (IH p2).
Qed.

Lemma genMsgId_inj now now' c c' :
  (genMsgId now c).1 = (genMsgId now' c').1 →
  msgCounter (stores c) = msgCounter (stores c').
Proof.
  unfold genMsgId. cbn [fst]. intros [= Heq].
  change ("-" +:+ ?s) with (String "-"%char s) in Heq.
  apply after_last_dash in Heq; [|apply pretty_nat_no_dash..].
  apply (inj pretty) in Heq. lia.
Qed.

Ltac counter_done :=
  unfold counter; to_writes;
  repeat first
    [ reflexivity
    | lia
    | progress playback_writes
    | progress cbn -[playNextChunk ensureAudioContext queueAudioChunk]
    | case_match ].

Lemma counter_react c : counter (react c) = counter c.
Proof. counter_done. Qed.

Lemma counter_handleLeaveRoom c : counter (handleLeaveRoom c) = counter c.
Proof. cbv beta delta [handleLeaveRoom]. by_steps counter_done. Qed.

Lemma counter_handle now a c : (counter c ≤ counter (handle now a c))%nat.
Proof.
  destruct a; cbn [handle].
  all: lazymatch goal with
       | |- context [onDestroy] =>
           apply Nat.eq_le_incl; symmetry;
           cbv beta delta [onDestroy]; by_steps counter_done
       | |- context [handleLeaveRoom] =>
           by rewrite counter_handleLeaveRoom
       | |- context [ws_onmessage] => idtac
       | |- _ => solve [counter_done]
       end.
  case_match; [|done]. destruct f as [bytes|bytes|data|raw];
    cbn [ws_onmessage]; [solve [counter_done]..| |done].
  destruct data;
    lazymatch goal with
    | |- context [kicked _] =>
        cbn [handleWsMessage]; by rewrite counter_handleLeaveRoom
    | |- _ => solve [counter_done]
    end.
Qed.

Lemma counter_run evs : ∀ c, (counter c ≤ counter (run evs c))%nat.
Proof.
  induction evs as [|e evs IH]; intros c; [done|].
  rewrite run_cons. etrans; [|apply IH]. unfold step.
  rewrite counter_react. apply counter_handle.
Qed.

(** X18.  An id that [genMsgId] hands out is never handed out again,
    whatever the controller does in between and even when the clock has
    not moved: the counter after the last ["-"] only grows. *)
Theorem minted_ids_never_repeat (now now' : Z) (evs : list (Z * Action))
  (c : Client) :
  let first := genMsgId now c in
  let second := genMsgId now' (run evs first.2) in
  bool_decide (first.1 = second.1) = false.
Proof.
  intros first second. apply bool_decide_eq_false. intros Heq.
  apply genMsgId_inj in Heq.
  pose proof (counter_run evs first.2) as Hle. unfold counter in Hle.
  rewrite <- Heq in Hle. cbn in Hle. lia.
Qed.

(** ** The stored playback mode *)

Lemma mode_is_stored_view c c' :
  mode_view c' = mode_view c → mode_is_stored c → mode_is_stored c'.
Proof. unfold mode_view, mode_is_stored. by intros [= -> ->]. Qed.

Ltac mode_done := unfold mode_view; to_writes; writes_done.

Lemma mode_view_react c : mode_view (react c) = mode_view c.
Proof. mode_done. Qed.

Lemma mode_view_handleLeaveRoom c :
  mode_view (handleLeaveRoom c) = mode_view c.
Proof. cbv beta delta [handleLeaveRoom]. by_steps mode_done. Qed.

Lemma mode_is_stored_persist m c :
  mode_is_stored (persistUserMode m (userMode_set m c)).
Proof. done. Qed.

Lemma mode_is_stored_handle now a c :
  mode_is_stored c → mode_is_stored (handle now a c).
Proof.
  intros Hinv. destruct a; cbn [handle].
  all: lazymatch goal with
       | |- context [onDestroy] =>
           apply (mode_is_stored_view c); [|done];
           cbv beta delta [onDestroy]; by_steps mode_done
       | |- context [handleLeaveRoom] =>
           apply (mode_is_stored_view c); [|done];
           apply mode_view_handleLeaveRoom
       | |- context [ws_onmessage] => idtac
       | |- context [handleSetPlaybackMode] => idtac
       | |- context [loadStoredUserMode] => idtac
       | |- _ => apply (mode_is_stored_view c); [solve [mode_done]|done]
       end.
  - (* a_mount *)
    unfold loadStoredUserMode, mode_is_stored in *.
    destruct (stored_mode (browser c)) as [m|] eqn:Em; cbn; by rewrite ?Em.
  - (* a_set_playback_mode *)
    unfold handleSetPlaybackMode. cbv zeta.
    eapply mode_is_stored_view; [|apply (mode_is_stored_persist m c)].
    mode_done.
  - (* a_ws_frame *)
    case_match; [|done]. destruct f as [bytes|bytes|data|raw];
      cbn [ws_onmessage];
      [apply (mode_is_stored_view c); [solve [mode_done]|done]..| |done].
    destruct data;
      lazymatch goal with
      | |- context [kicked _] =>
          apply (mode_is_stored_view c); [|done];
          cbn [handleWsMessage]; by rewrite mode_view_handleLeaveRoom
      | |- context [joined _ ?you _] =>
          eapply mode_is_stored_view;
          [|apply (mode_is_stored_persist (self_mode you) c)]; mode_done
      | |- context [mode_changed ?m] =>
          eapply mode_is_stored_view;
          [|apply (mode_is_stored_persist m c)]; mode_done
      | |- _ => apply (mode_is_stored_view c); [solve [mode_done]|done]
      end.
Qed.

Lemma mode_is_stored_run evs : ∀ c,
  mode_is_stored c → mode_is_stored (run evs c).
Proof.
  induction evs as [|e evs IH]; intros c Hinv; [done|].
  rewrite run_cons. apply IH. unfold step.
  apply (mode_is_stored_view (handle e.1 e.2 c)); [apply mode_view_react|].
  by apply mode_is_stored_handle.
Qed.

(** X19.  Reloading the page restores the playback mode: after any run
    of the mounted component, a fresh component that loads the stored mode
    has the mode the old one had.  What is written to [localStorage] is
    taken to be kept. *)
Theorem reload_restores_playback_mode (name uid : string)
  (policy : CtxState) (token : option string) (mode : option PlaybackMode)
  (evs : list (Z * Action))
  (name' uid' : string) (policy' : CtxState) (token' : option string) :
  let c := run evs (loadStoredUserMode (initial name uid policy token mode)) in
  userMode (prefs (reload name' uid' policy' token' c)) = userMode (prefs c).
Proof.
  intros c.
  assert (mode_is_stored c) as Hc.
  { apply mode_is_stored_run. unfold mode_is_stored. by destruct mode. }
  unfold reload, loadStoredUserMode, mode_is_stored in *. cbn.
  rewrite Hc. by destruct (stored_mode (browser c)).
Qed.

(** ** What the controller sends on a socket *)

Lemma join_first_send o w :
  is_join o = false → readyState w = OPEN →
  join_first w → join_first (ws_send o w).
Proof.
  unfold join_first, ws_send. cbn. intros Ho Hopen.
  destruct (ws_sent w) as [|j rest]; [done|]. cbn.
  intros (Hj & Hrest & Hst). split; [done|]. split; [|done].
  apply Forall_app. split; [done|]. by apply Forall_singleton.
Qed.

Lemma join_first_state n w :
  n ≠ OPEN → n ≠ CONNECTING →
  join_first w → join_first (ws_with_readyState n w).
Proof.
  unfold join_first, ws_with_readyState. cbn. intros Ho Hc.
  destruct (ws_sent w) as [|j rest]; [done|]. by intros (? & ? & _).
Qed.

Lemma join_first_open uid name language mode token w :
  readyState w = CONNECTING → join_first w →
  join_first (ws_send (out_join uid name language mode token)
                (ws_with_readyState OPEN w)).
Proof.
  unfold join_first, ws_send, ws_with_readyState. cbn. intros Hc.
  destruct (ws_sent w) as [|j rest]; [|intros (_ & _ & Hne); by destruct Hne].
  intros _. cbn. by repeat split.
Qed.

Lemma Forall_alter_lookup {A} (P : A → Prop) (f : A → A) l i :
  Forall P l → (∀ x, l !! i = Some x → P x → P (f x)) →
  Forall P (alter f i l).
Proof.
  intros Hl Hf. apply Forall_lookup. intros j y Hj.
  destruct (decide (i = j)) as [->|Hne].
  - rewrite list_lookup_alter_eq in Hj. apply fmap_Some in Hj as (x & Hx & ->).
    apply Hf; [done|]. by eapply Forall_lookup_1.
  - rewrite list_lookup_alter_ne in Hj by done. by eapply Forall_lookup_1.
Qed.

Lemma joins_first_view c c' :
  sockets (browser c') = sockets (browser c) → joins_first c → joins_first c'.
Proof. unfold joins_first. by intros ->. Qed.

Lemma joins_first_send o c :
  is_join o = false → joins_first c → joins_first (ws_send_if_open o c).
Proof.
  intros Ho Hc. unfold ws_send_if_open.
  destruct (classroomWs (stores c)) as [h|]; [|done].
  destruct (sockets (browser c) !! h) as [w|] eqn:Eh; [|done].
  case_bool_decide as Hopen; [|done].
  apply Forall_alter_lookup; [done|]. intros x Hx Hok.
  apply join_first_send; [done| |done]. congruence.
Qed.

Lemma joins_first_resetClassroom c :
  joins_first c → joins_first (resetClassroom c).
Proof.
  intros Hc. unfold resetClassroom. cbv zeta.
  apply (joins_first_view
           match classroomWs (stores c) with
           | Some h =>
               match sockets (browser c) !! h with
               | Some ws => if bool_decide (readyState ws ≤ OPEN)%nat
                            then ws_close h c else c
               | None => c
               end
           | None => c
           end).
  { cbn. by repeat case_match. }
  repeat case_match; try done.
  apply Forall_alter_lookup; [done|]. intros x _.
  by apply join_first_state.
Qed.

Lemma joins_first_new_socket u c :
  joins_first c →
  joins_first
    (sockets_set
       (sockets (browser c)
        ++ [ {| ws_url := u; readyState := CONNECTING; ws_sent := [] |} ]) c).
Proof.
  intros Hc. apply Forall_app. split; [done|]. by apply Forall_singleton.
Qed.

Lemma joins_first_ws_onopen h c :
  socket_state h c = Some CONNECTING →
  joins_first c → joins_first (ws_onopen h c).
Proof.
  intros Hs Hc. unfold ws_onopen. cbv zeta.
  apply Forall_alter_lookup; [done|]. intros x Hx Hok.
  apply join_first_open; [|done].
  unfold socket_state in Hs. rewrite Hx in Hs. by injection Hs.
Qed.

Lemma joins_first_ws_onclose h c :
  joins_first c → joins_first (ws_onclose h c).
Proof.
  intros Hc. unfold ws_onclose. cbv zeta.
  set (c1 := sockets_set _ c).
  assert (joins_first c1) as H1.
  { apply Forall_alter_lookup; [done|]. intros x _.
    by apply join_first_state. }
  case_match; [|done].
  apply (joins_first_view c1); [|done]. to_writes. writes_done.
Qed.

(** Follows a handler down to its sends. *)
Ltac join_auto c Hc :=
  repeat first
    [ exact Hc
    | match goal with
      | |- joins_first (ws_send_if_open _ _) =>
          apply joins_first_send; [reflexivity|]
      | |- joins_first (resetClassroom _) => apply joins_first_resetClassroom
      | |- joins_first (sockets_set (sockets (browser ?x) ++ _) ?x) =>
          apply joins_first_new_socket
      | |- joins_first (if ?b then _ else _) => destruct b eqn:?
      | |- joins_first (match ?o with Some _ => _ | None => _ end) =>
          destruct o eqn:?
      | |- joins_first (?f (ws_send_if_open ?o ?x)) =>
          apply (joins_first_view (ws_send_if_open o x)); [reflexivity|]
      end
    | apply (joins_first_view c); [solve [to_writes; writes_done]|exact Hc] ].

Ltac join_step :=
  idtac;
  lazymatch goal with
  | H : joins_first ?x |- _ => join_auto x H
  end.

Lemma joins_first_handleLeaveRoom c :
  joins_first c → joins_first (handleLeaveRoom c).
Proof.
  intros Hc. cbv beta delta [handleLeaveRoom]. inv_steps joins_first join_step.
Qed.

Lemma joins_first_handleWsMessage now data c :
  joins_first c → joins_first (handleWsMessage now data c).
Proof.
  intros Hc.
  destruct data;
    lazymatch goal with
    | |- context [kicked _] =>
        cbn [handleWsMessage]; by apply joins_first_handleLeaveRoom
    | |- _ =>
        apply (joins_first_view c); [solve [to_writes; writes_done]|exact Hc]
    end.
Qed.

Lemma joins_first_handle now a c :
  joins_first c → joins_first (handle now a c).
Proof.
  intros Hc. destruct a; cbn [handle].
  all: lazymatch goal with
       | |- context [onDestroy] =>
           cbv beta delta [onDestroy]; inv_steps joins_first join_step
       | |- context [handleLeaveRoom] => by apply joins_first_handleLeaveRoom
       | |- context [handleJoinRoom] =>
           cbv beta delta [handleJoinRoom]; inv_steps joins_first join_step
       | |- context [ws_onopen] =>
           case_bool_decide; [by apply joins_first_ws_onopen|done]
       | |- context [ws_onclose] =>
           repeat case_match; try done; by apply joins_first_ws_onclose
       | |- context [ws_onmessage] =>
           case_match; [|done];
           destruct f; cbn [ws_onmessage];
           [ apply (joins_first_view c);
             [solve [to_writes; writes_done]|exact Hc]..
           | by apply joins_first_handleWsMessage
           | done ]
       | |- context [bridge_message] =>
           destruct msg;
           lazymatch goal with
           | |- context [b_user_transcript] =>
               unfold bridge_message, handleJsonMsg, on_userTranscript;
               cbv beta zeta; join_auto c Hc
           | |- _ =>
               apply (joins_first_view c);
               [solve [to_writes; writes_done]|exact Hc]
           end
       | |- _ =>
           unfold handleSetPlaybackMode, handleSendMessage, requestToken,
             releaseToken, passToken, hand_button_click, handleRaiseHand,
             handleLowerHand, handleAcknowledgeHand, handleDismissHand,
             handleReaction, handleTeacherAction, handleRequestTopics,
             handleSelectTopic, handleSendMessage;
           cbv zeta; join_auto c Hc
       end.
Qed.

Lemma sockets_react c : sockets (browser (react c)) = sockets (browser c).
Proof. to_writes. writes_done. Qed.

Lemma joins_first_run evs : ∀ c, joins_first c → joins_first (run evs c).
Proof.
  induction evs as [|e evs IH]; intros c Hc; [done|].
  rewrite run_cons. apply IH. unfold step.
  apply (joins_first_view (handle e.1 e.2 c)); [apply sockets_react|].
  by apply joins_first_handle.
Qed.

(** X20.  In every run of the controller from the mounted component, on
    every room socket: nothing is sent unless the socket has opened, a
    socket that is open has been sent its [join] frame, and the [join]
    frame is the first frame sent and the only [join]. *)
Theorem join_is_sent_first (name uid : string)
  (policy : CtxState) (token : option string) (mode : option PlaybackMode)
  (evs : list (Z * Action)) :
  Forall join_first
    (sockets (browser (run evs (initial name uid policy token mode)))).
Proof. apply joins_first_run. constructor. Qed.

(** ** The URL builders *)

Lemma append_cons a p s : String a p +:+ s = String a (p +:+ s).
Proof. reflexivity. Qed.

Lemma startsWith_app p s : Str.startsWith p (p +:+ s) = true.
Proof.
  induction p as [|a p IH]; [done|].
  rewrite append_cons. cbn [Str.startsWith]. by rewrite Ascii.eqb_refl.
Qed.

Lemma startsWith_refl p : Str.startsWith p p = true.
Proof.
  induction p as [|a p IH]; [done|].
  cbn [Str.startsWith]. by rewrite Ascii.eqb_refl.
Qed.

Lemma includes_app_r sub s t :
  Str.includes sub t = true → Str.includes sub (s +:+ t) = true.
Proof.
  intros Ht. induction s as [|a s IH]; [done|].
  rewrite append_cons. cbn [Str.includes]. rewrite IH. apply orb_true_r.
Qed.

Lemma includes_refl sub : Str.includes sub sub = true.
Proof. destruct sub; [done|]. cbn [Str.includes]. by rewrite startsWith_refl. Qed.

Lemma includes_suffix sub s : Str.includes sub (s +:+ sub) = true.
Proof. apply includes_app_r, includes_refl. Qed.

Lemma endsWith_suffix suf s : Str.endsWith suf (s +:+ suf) = true.
Proof.
  induction s as [|a s IH].
  - change ("" +:+ suf) with suf.
    destruct suf; cbn [Str.endsWith]; by rewrite String.eqb_refl.
  - rewrite append_cons. cbn [Str.endsWith]. rewrite IH. apply orb_true_r.
Qed.

Lemma endsWith_includes suf s :
  Str.endsWith suf s = true → Str.includes suf s = true.
Proof.
  induction s as [|a s IH]; cbn [Str.endsWith Str.includes].
  - rewrite orb_false_r. intros ->%String.eqb_eq. done.
  - intros [->%String.eqb_eq|Hs]%orb_true_iff.
    + by rewrite startsWith_refl.
    + rewrite IH by done. apply orb_true_r.
Qed.

Lemma wsUrl_endsWith url : Str.endsWith "/ws" (wsUrl url) = true.
Proof.
  unfold wsUrl. cbv zeta. case_match; [done|]. apply endsWith_suffix.
Qed.

Lemma roomWsUrl_includes baseUrl roomId :
  Str.includes "/ws" (roomWsUrl baseUrl roomId) = true.
Proof.
  unfold roomWsUrl, getClassroomWsUrl.
  do 3 apply includes_app_r. done.
Qed.

(** *** The pre-flight URL *)

Lemma has_char_cons x a s :
  Str.has_char x (String a s) = false →
  Ascii.eqb x a = false ∧ Str.has_char x s = false.
Proof.
  cbn [Str.has_char]. intros [Ha Hs]%orb_false_elim.
  by rewrite Ascii.eqb_sym.
Qed.

Lemma startsWith_trans x p s :
  Str.startsWith x p = true → Str.startsWith p s = true →
  Str.startsWith x s = true.
Proof.
  revert p s. induction x as [|a x IH]; intros p s; [done|].
  destruct p as [|b p]; [done|]. destruct s as [|c s]; [done|].
  cbn [Str.startsWith].
  intros [Hab Hx]%andb_true_iff [Hbc Hp]%andb_true_iff.
  apply Ascii.eqb_eq in Hab, Hbc. subst.
  rewrite Ascii.eqb_refl. by apply (IH p).
Qed.

Lemma startsWith_tail a p b s :
  Str.startsWith (String a p) (String b s) = true → Str.startsWith p s = true.
Proof. cbn [Str.startsWith]. by intros [_ ?]%andb_true_iff. Qed.

(** What occurs in a prefix of [s] occurs in [s]. *)
Lemma startsWith_includes x p : ∀ s,
  Str.startsWith p s = true → Str.includes x p = true →
  Str.includes x s = true.
Proof.
  induction p as [|a p IH]; intros s Hp Hx.
  - cbn in Hx. rewrite orb_false_r in Hx. destruct x; [|done].
    by destruct s.
  - destruct s as [|b s]; [done|]. cbn [Str.includes] in *.
    apply orb_true_iff in Hx as [Hx|Hx].
    + by rewrite (startsWith_trans _ _ _ Hx Hp).
    + rewrite (IH s); [apply orb_true_r|by eapply startsWith_tail|done].
Qed.

Lemma includes_trans x pat : ∀ s,
  Str.includes x pat = true → Str.includes pat s = true →
  Str.includes x s = true.
Proof.
  intros s Hx. induction s as [|b s IH].
  - cbn [Str.includes]. rewrite orb_false_r. intros Hp.
    by apply (startsWith_includes x pat "").
  - intros Hp. cbn [Str.includes] in Hp.
    apply orb_true_iff in Hp as [Hp|Hp].
    + by apply (startsWith_includes x pat (String b s)).
    + cbn [Str.includes]. rewrite IH by done. apply orb_true_r.
Qed.

Lemma replace_absent pat rep : ∀ s,
  Str.includes pat s = false → Str.replace pat rep s = s.
Proof.
  induction s as [|a s IH]; cbn [Str.includes Str.replace].
  - rewrite orb_false_r. by intros ->.
  - intros [-> Hs]%orb_false_elim. by rewrite IH.
Qed.

(** A host name has no [/]: [//] does not occur up to the end of the
    voice socket's URL. *)
Lemma no_double_slash host :
  Str.has_char "/" host = false → Str.includes "//" (host +:+ "/ws") = false.
Proof.
  induction host as [|a host IH]; [done|].
  intros [Ha Hs]%has_char_cons. rewrite append_cons.
  cbn [Str.includes Str.startsWith]. by rewrite Ha, IH.
Qed.

Lemma replace_keeps_host pat rep host :
  Str.includes "//" pat = true → Str.has_char "/" host = false →
  Str.replace pat rep (host +:+ "/ws") = host +:+ "/ws".
Proof.
  intros Hpat Hhost. apply replace_absent.
  destruct (Str.includes pat _) eqn:E; [|done].
  pose proof (no_double_slash host Hhost) as Hnone.
  by rewrite (includes_trans _ _ _ Hpat E) in Hnone.
Qed.

(** A pattern that starts with [/] is looked for past the host name. *)
Lemma replace_past_host q rep t host :
  Str.has_char "/" host = false →
  Str.replace (String "/" q) rep (host +:+ t)
  = host +:+ Str.replace (String "/" q) rep t.
Proof.
  induction host as [|a host IH]; [done|].
  intros [Ha Hs]%has_char_cons. rewrite !append_cons.
  cbn [Str.replace Str.startsWith]. by rewrite Ha, IH.
Qed.

Lemma endsWith_host host :
  Str.has_char "/" host = false → Str.endsWith "/ws" host = false.
Proof.
  induction host as [|a host IH]; [done|].
  intros [Ha Hs]%has_char_cons. cbn [Str.endsWith].
  rewrite IH by done. rewrite orb_false_r.
  destruct (String.eqb_spec "/ws" (String a host)) as [[= <- _]|]; done.
Qed.

Lemma startsWith_ws_host host :
  Str.has_char "/" host = false →
  Str.startsWith "ws" (host +:+ "/ws") = Str.startsWith "ws" host.
Proof.
  destruct host as [|a [|b host]]; [done| |done].
  intros _. change (Ascii.eqb "w" a && false = Ascii.eqb "w" a && false).
  done.
Qed.

Lemma slice_ws_host host t :
  Str.startsWith "ws" host = true →
  Str.slice 2 (host +:+ t) = Str.slice 2 host +:+ t.
Proof. destruct host as [|a [|b host]]; [done| |done]. cbn. by rewrite andb_false_r. Qed.

(** The last step of [healthUrl], from the [/] before the host name. *)
Lemma health_tail host :
  Str.has_char "/" host = false →
  Str.replace "/ws" "/health" ("/" +:+ (host +:+ "/ws"))
  = if Str.startsWith "ws" host
    then "/health" +:+ Str.slice 2 host +:+ "/ws"
    else "/" +:+ host +:+ "/health".
Proof.
  intros Hhost.
  change (Str.replace "/ws" "/health" ("/" +:+ (host +:+ "/ws")))
    with (if Str.startsWith "ws" (host +:+ "/ws")
          then "/health" +:+ Str.slice 2 (host +:+ "/ws")
          else "/" +:+ Str.replace "/ws" "/health" (host +:+ "/ws")).
  rewrite startsWith_ws_host by done.
  destruct (Str.startsWith "ws" host) eqn:Hws.
  - by rewrite slice_ws_host.
  - by rewrite replace_past_host.
Qed.

Lemma endsWith_after_scheme (secure : bool) host :
  Str.has_char "/" host = false → host ≠ "ws" →
  Str.endsWith "/ws" ((if secure then "wss://" else "ws://") +:+ host)
  = false.
Proof.
  intros Hhost Hne.
  assert (String.eqb "ws" host || Str.endsWith "/ws" host = false) as Hlast.
  { rewrite endsWith_host by done. rewrite orb_false_r.
    by destruct (String.eqb_spec "ws" host). }
  destruct secure; exact Hlast.
Qed.

(** X21.  The URL of the pre-flight check that [connect] derives from
    the server URL, for a server given as scheme and host name (no [/]
    after the scheme): it is the server URL followed by [/health], unless
    the host name starts with [ws]; then the leading [ws] of the host name
    is replaced by [health], and [/ws] stays at the end unless the host
    name is [ws] itself. *)
Theorem preflight_url (secure : bool) (host : string) :
  Str.has_char "/" host = false →
  healthUrl (wsUrl (scheme secure +:+ host))
  = if String.eqb host "ws" then scheme secure +:+ "health"
    else if Str.startsWith "ws" host
         then scheme secure +:+ "health" +:+ Str.slice 2 host +:+ "/ws"
    else scheme secure +:+ host +:+ "/health".
Proof.
  intros Hhost.
  destruct (String.eqb_spec host "ws") as [->|Hne]; [by destruct secure|].
  assert (wsUrl (scheme secure +:+ host)
          = (if secure then "wss://" else "ws://") +:+ (host +:+ "/ws"))
    as ->.
  { pose proof (endsWith_after_scheme secure host Hhost Hne) as Hends.
    unfold scheme.
    destruct secure;
      [ change (Str.endsWith "/ws" ("wss://" +:+ host) = false) in Hends
      | change (Str.endsWith "/ws" ("ws://" +:+ host) = false) in Hends ].
    - change (wsUrl ("https://" +:+ host))
        with (if Str.endsWith "/ws" ("wss://" +:+ host)
              then "wss://" +:+ host else ("wss://" +:+ host) +:+ "/ws").
      by rewrite Hends.
    - change (wsUrl ("http://" +:+ host))
        with (if Str.endsWith "/ws" ("ws://" +:+ host)
              then "ws://" +:+ host else ("ws://" +:+ host) +:+ "/ws").
      by rewrite Hends. }
  unfold healthUrl. destruct secure; unfold scheme.
  - change (Str.replace "wss://" "https://" ("wss://" +:+ (host +:+ "/ws")))
      with ("https://" +:+ (host +:+ "/ws")).
    change (Str.replace "ws://" "http://" ("https://" +:+ (host +:+ "/ws")))
      with ("https://" +:+ Str.replace "ws://" "http://" (host +:+ "/ws")).
    rewrite replace_keeps_host by done.
    change (Str.replace "/ws" "/health" ("https://" +:+ (host +:+ "/ws")))
      with ("https:/"
            +:+ Str.replace "/ws" "/health" ("/" +:+ (host +:+ "/ws"))).
    rewrite health_tail by done. by case_match.
  - change (Str.replace "wss://" "https://" ("ws://" +:+ (host +:+ "/ws")))
      with ("ws://" +:+ Str.replace "wss://" "https://" (host +:+ "/ws")).
    rewrite replace_keeps_host by done.
    change (Str.replace "ws://" "http://" ("ws://" +:+ (host +:+ "/ws")))
      with ("http://" +:+ (host +:+ "/ws")).
    change (Str.replace "/ws" "/health" ("http://" +:+ (host +:+ "/ws")))
      with ("http:/"
            +:+ Str.replace "/ws" "/health" ("/" +:+ (host +:+ "/ws"))).
    rewrite health_tail by done. by case_match.
Qed.

Lemma preflight_url_witness :
  healthUrl (wsUrl "https://ws.example.com") = "https://health.example.com/ws"
  ∧ healthUrl (wsUrl "http://localhost:7860") = "http://localhost:7860/health".
Proof.
  split.
  - exact (preflight_url true "ws.example.com" eq_refl).
  - exact (preflight_url false "localhost:7860" eq_refl).
Defined.

(** ** The socket interception *)

Module PatchFacts.
Import Patch.

Lemma kept_initial token : kept 0 (initial token).
Proof. repeat split; cbn; try constructor; done. Qed.

Lemma configs_snoc (l : list Socket) s :
  (l ++ [s]) ≫= sent = (l ≫= sent) ++ sent s.
Proof. by rewrite bind_app, bind_singleton. Qed.

Lemma configs_insert (l : list Socket) h s s' m :
  l !! h = Some s → sent s' = sent s ++ m →
  length ((<[h := s']> l) ≫= sent) = (length (l ≫= sent) + length m)%nat.
Proof.
  revert h. induction l as [|x l IH]; intros [|h] Hh Hs; try done.
  - injection Hh as ->. cbn. rewrite Hs, !length_app. lia.
  - change (length (sent x ++ ((<[h := s']> l) ≫= sent))
            = (length (sent x ++ (l ≫= sent)) + length m)%nat).
    rewrite !length_app, (IH h) by done. lia.
Qed.

Lemma listeners_insert (l : list Socket) h s s' :
  l !! h = Some s → listened s' = listened s →
  length (filter (λ s, listened s = true) (<[h := s']> l))
  = length (filter (λ s, listened s = true) l).
Proof.
  revert h. induction l as [|x l IH]; intros [|h] Hh Hs; try done.
  - injection Hh as ->. change (<[0%nat := s']> (s :: l)) with (s' :: l).
    rewrite !filter_cons, Hs. by case_decide.
  - change (<[S h := s']> (x :: l)) with (x :: <[h := s']> l).
    rewrite !filter_cons. case_decide; cbn [length]; by rewrite (IH h).
Qed.

Lemma kept_step e n w :
  kept n w → kept (if is_construct e then S n else n) (step e w).
Proof.
  intros (Hord & Hhook & Hzero & Hcfg & Hlis).
  unfold kept, configs, listeners in *.
  destruct e; cbn [step is_construct].
  - (* construct *)
    refine (conj _ (conj _ (conj _ (conj _ _)))); cbn; [done| |done|..].
    + eapply Forall_impl; [exact Hhook|]. by intros s [_ ?].
    + destruct (wsIntercepted w) eqn:Ei.
      * destruct (configSent w); lia.
      * destruct (Hzero eq_refl) as (Hn & Hc & _). rewrite Hc in Hcfg. lia.
    + destruct (wsIntercepted w) eqn:Ei.
      * destruct (textListenerAttached w); lia.
      * destruct (Hzero eq_refl) as (Hn & _ & Hl). rewrite Hl in Hlis. lia.
  - (* set_classroomConfig *) done.
  - (* new_WebSocket *)
    refine (conj _ (conj _ (conj _ (conj _ _)))); cbn.
    + apply Forall_app. split; [done|]. apply Forall_singleton.
      split; [cbn; lia|]. cbn. intros [?|Hl]; [done|].
      apply andb_true_iff in Hl as [[-> ->]%andb_true_iff _]. done.
    + apply Forall_app. split; [done|]. by apply Forall_singleton.
    + intros Hi. destruct (Hzero Hi) as (-> & ? & ->). by rewrite Hi.
    + rewrite configs_snoc. cbn. by rewrite app_nil_r.
    + rewrite filter_app, length_app, filter_cons, filter_nil.
      destruct (wsIntercepted w), (Str.includes "/ws" u),
        (textListenerAttached w); cbn [listened andb orb negb] in *;
        case_decide; try done; cbn [length]; lia.
  - (* open *)
    unfold ws_open. destruct (sockets w !! h) as [s|] eqn:Eh; [|done].
    destruct (opened s) eqn:Eo; [done|]. cbv zeta.
    set (send := hooked s && negb (configSent w)
                 && Str.includes "/ws" (url s)).
    pose proof (Forall_lookup_1 _ _ _ _ Hord Eh) as [Hlen Hwhy].
    pose proof (Forall_lookup_1 _ _ _ _ Hhook Eh) as [Hint Hnone].
    specialize (Hnone Eo).
    refine (conj _ (conj _ (conj _ (conj _ _)))); cbn.
    + apply Forall_insert; [exact Hord|]. split; cbn.
      * rewrite Hnone. destruct send; cbn; lia.
      * intros [Hs|Hl]; [|by apply Hwhy; right].
        rewrite Hnone in Hs. destruct send eqn:Es; [|done].
        by apply andb_true_iff in Es as [[-> _]%andb_true_iff ->].
    + apply Forall_insert; [|done].
      eapply Forall_impl; [exact Hhook|]. done.
    + intros Hi. destruct (Hzero Hi) as (-> & Hc & ->).
      split; [done|]. split; [|done]. rewrite Hc. subst send.
      destruct (hooked s); [|done]. by rewrite Hint in Hi.
    + rewrite (configs_insert _ h s _ (if send then [configMsg w] else []))
        by (try done; cbn; destruct send; by rewrite ?app_nil_r).
      destruct send eqn:Es.
      * apply andb_true_iff in Es as [[_ Hc]%andb_true_iff _].
        apply negb_true_iff in Hc. rewrite Hc in *. cbn.
        destruct (wsIntercepted w); lia.
      * rewrite orb_false_r. cbn. lia.
    + by rewrite (listeners_insert _ h s).
Qed.

Lemma kept_run evs : ∀ n w,
  kept n w → kept (n + constructions evs) (run evs w).
Proof.
  induction evs as [|e evs IH]; intros n w Hw.
  - by rewrite Nat.add_0_r.
  - apply (kept_step e) in Hw. apply IH in Hw. cbn [run foldl].
    unfold constructions in *. rewrite filter_cons.
    destruct (is_construct e); [rewrite decide_True by done|
                                rewrite decide_False by done]; cbn [length].
    + by rewrite Nat.add_succ_r.
    + done.
Qed.

End PatchFacts.

(** X22.  Whatever clients are constructed and sockets are made and
    opened, the interception sends at most one [config] message and
    attaches at most one text listener per [PipecatClient] constructed;
    a socket gets one [config] at most, and it gets one or listens only
    if it was made after the first construction, for a URL that contains
    [/ws]. *)
Theorem config_once_per_client (token : option string)
  (evs : list Patch.Event) :
  let w := Patch.run evs (Patch.initial token) in
  (length (Patch.configs w) ≤ Patch.constructions evs)%nat
  ∧ (length (Patch.listeners w) ≤ Patch.constructions evs)%nat
  ∧ Forall Patch.in_order (Patch.sockets w).
Proof.
  intros w.
  pose proof (PatchFacts.kept_run evs 0 _ (PatchFacts.kept_initial token))
    as (Hord & _ & Hzero & Hcfg & Hlis).
  fold w in Hord, Hzero, Hcfg, Hlis. cbn [Nat.add] in *.
  split; [|split; [|done]].
  - destruct (Patch.wsIntercepted w);
      [|destruct (Hzero eq_refl) as (Hn & Hc & _); rewrite Hc in Hcfg];
      destruct (Patch.configSent w); lia.
  - destruct (Patch.wsIntercepted w);
      [|destruct (Hzero eq_refl) as (Hn & _ & Hl); rewrite Hl in Hlis];
      destruct (Patch.textListenerAttached w); lia.
Qed.

Lemma ws_open_new u w :
  let h := length (Patch.sockets w) in
  let send := Patch.wsIntercepted w && negb (Patch.configSent w)
              && Str.includes "/ws" u in
  let w' := Patch.ws_open h (Patch.new_WebSocket u w) in
  Patch.sockets w'
  = Patch.sockets w
    ++ [ {| Patch.url := u; Patch.hooked := Patch.wsIntercepted w;
            Patch.listened :=
              Patch.wsIntercepted w && Str.includes "/ws" u
              && negb (Patch.textListenerAttached w);
            Patch.opened := true;
            Patch.sent := if send
                          then [Patch.configMsg (Patch.new_WebSocket u w)]
                          else [] |} ]
  ∧ Patch.configSent w' = Patch.configSent w || send
  ∧ Patch.wsIntercepted w' = Patch.wsIntercepted w.
Proof.
  intros h send w'. subst w'. unfold Patch.ws_open.
  assert (Patch.sockets (Patch.new_WebSocket u w) !! h
          = Some {| Patch.url := u; Patch.hooked := Patch.wsIntercepted w;
                    Patch.listened :=
                      Patch.wsIntercepted w && Str.includes "/ws" u
                      && negb (Patch.textListenerAttached w);
                    Patch.opened := false; Patch.sent := [] |}) as ->.
  { cbn. by rewrite list_lookup_middle. }
  cbn. fold send. split; [|done].
  rewrite (insert_app_r_alt _ _ h) by (subst h; lia).
  replace (h - length (Patch.sockets w))%nat with 0%nat by (subst h; lia).
  cbn. by destruct send.
Qed.

(** X23.  The URL of the room socket contains [/ws], so the
    interception takes the room socket for a voice socket: once a
    [PipecatClient] was constructed and no [config] went out since, a room
    socket that opens is sent the [config] message, and the voice socket
    that opens after it is sent none; the text listener goes the same
    way. *)
Theorem room_socket_takes_config (baseUrl roomId url : string)
  (w : Patch.Window) :
  Patch.wsIntercepted w = true → Patch.configSent w = false →
  let room := length (Patch.sockets w) in
  let w1 := Patch.ws_open room
              (Patch.new_WebSocket (roomWsUrl baseUrl roomId) w) in
  let voice := length (Patch.sockets w1) in
  let w2 := Patch.ws_open voice (Patch.new_WebSocket (wsUrl url) w1) in
  Patch.sent <$> Patch.sockets w2 !! room = Some [Patch.configMsg w]
  ∧ Patch.sent <$> Patch.sockets w2 !! voice = Some []
  ∧ (Patch.textListenerAttached w = false →
     Patch.listened <$> Patch.sockets w2 !! room = Some true
     ∧ Patch.listened <$> Patch.sockets w2 !! voice = Some false).
Proof.
  intros Hi Hc room w1 voice w2.
  destruct (ws_open_new (roomWsUrl baseUrl roomId) w) as (Hs1 & Hc1 & Hi1).
  fold room w1 in Hs1, Hc1, Hi1.
  destruct (ws_open_new (wsUrl url) w1) as (Hs2 & Hc2 & Hi2).
  fold voice w2 in Hs2, Hc2, Hi2.
  rewrite Hi, Hc, roomWsUrl_includes in Hs1, Hc1. cbn in Hs1, Hc1.
  rewrite Hi1, Hi, Hc1 in Hs2. cbn in Hs2.
  rewrite Hs2, Hs1.
  assert (voice = S room) as Hv.
  { subst voice. rewrite Hs1, length_app. cbn. subst room. lia. }
  split; [|split].
  - rewrite lookup_app_l by (rewrite length_app; cbn; subst room; lia).
    by rewrite list_lookup_middle.
  - rewrite list_lookup_middle; [done|].
    rewrite Hv, length_app. cbn. subst room. lia.
  - intros Hl. rewrite Hl. split.
    + rewrite lookup_app_l by (rewrite length_app; cbn; subst room; lia).
      by rewrite list_lookup_middle.
    + rewrite list_lookup_middle
        by (rewrite Hv, length_app; cbn; subst room; lia).
      cbn. unfold w1, Patch.ws_open. cbn.
      rewrite list_lookup_middle by done. cbn.
      by rewrite Hl, Hi, roomWsUrl_includes, andb_false_r.
Qed.

Lemma room_socket_takes_config_witness :
  Patch.sent
    <$> Patch.sockets
          (Patch.ws_open 1
             (Patch.new_WebSocket (wsUrl "http://localhost:7860")
                (Patch.ws_open 0
                   (Patch.new_WebSocket
                      (roomWsUrl "http://localhost:7860" "r1")
                      (Patch.construct (Patch.initial (Some "jwt")))))))
        !! 0%nat
  = Some [ {| Patch.cfg_token := Some "jwt"; Patch.cfg_room := None |} ].
Proof.
  destruct (room_socket_takes_config "http://localhost:7860" "r1"
              "http://localhost:7860"
              (Patch.construct (Patch.initial (Some "jwt")))
              eq_refl eq_refl) as (H1 & _).
  exact H1.
Defined.
